(** * Procedural generation (city, terrain, weapon): model and properties

    A shallow embedding of the three generators of [CPP_ProceduralGeneration]:
    [AProceduralCityGenerator], [AProceduralTerrainGenerator] and
    [AProceduralWeaponGenerator].

    Conventions of the embedding.
    - [int32] values are integers of [Z]; seed arithmetic is wrapped to 32 bits
      by [wrap32].
    - [float] values are exact rationals of [Q]: rounding, infinities and NaN
      are not modelled, comparisons and arithmetic are the exact ones.
    - A C++ member function that mutates its object returns the new object;
      a function that draws random numbers is a computation in the state
      monad [State] over the generator it draws from.
    - The engine primitives the generators call ([FRandomStream], the
      process-wide [FMath] generator, [FMath::Cos], [FMath::Sin], ...) are not
      part of the repository.  They are the interfaces [Random] and [Trig]
      below; [Random] carries the ranges of the draws.  The properties hold
      for every implementation of the interfaces; [ReferenceEngine.engine] is
      one, used where a property is an evaluation on a concrete input.

    The file has two parts: the model (numbers, state passing, the engine
    interfaces, the three generators, a reference engine, the documents of
    the export functions, the vocabulary of the properties, concrete inputs),
    then the properties. *)

From Stdlib Require Import ZArith QArith List String Lia Lqa Bool.
From Stdlib Require Import DecimalString.
Import ListNotations.

Set Implicit Arguments.

(* ------------------------------------------------------------------ *)
(** ** Numbers and strings *)

Definition wrap32 (z : Z) : Z := ((z + 2 ^ 31) mod 2 ^ 32 - 2 ^ 31)%Z.

(** [static_cast<float>(int32)] *)
Definition to_float (z : Z) : Q := inject_Z z.

(** [static_cast<int32>(float)]: truncation toward zero.  C++ defines the
    cast for a value whose truncation is an [int32]; the function is the cast
    there.  Outside that range the cast has no defined result and the
    function stands for no behaviour of the code: a property that bounds the
    result of a cast states the range of its argument. *)
Definition trunc_int32 (q : Q) : Z := Z.quot (Qnum q) (Zpos (Qden q)).

(** [a < b] and [a > b] on [float]. *)
Definition Qltb (a b : Q) : bool := negb (Qle_bool b a).
Definition Qgtb (a b : Q) : bool := Qltb b a.

(** [FMath::Max] and [FMath::Clamp] on [float]. *)
Definition FMax (a b : Q) : Q := if Qle_bool b a then a else b.
Definition FClamp (x lo hi : Q) : Q :=
  if Qltb x lo then lo else if Qltb x hi then x else hi.

(** The [%d] conversion of [FString::Printf]. *)
Definition string_of_int32 (z : Z) : string := NilZero.string_of_int (Z.to_int z).

(** [FString::Printf(TEXT("<prefix>%d"), z)] *)
Definition Printf_d (prefix : string) (z : Z) : string :=
  (prefix ++ string_of_int32 z)%string.

(* ------------------------------------------------------------------ *)
(** ** State-passing computations *)

Definition State (S A : Type) : Type := S -> A * S.

Definition ret {S A : Type} (a : A) : State S A := fun s => (a, s).

Definition bind {S A B : Type} (m : State S A) (k : A -> State S B) : State S B :=
  fun s => let (a, s') := m s in k a s'.

Declare Scope state_scope.
Delimit Scope state_scope with state.
Notation "x <- m ;; k" := (bind m (fun x => k))
  (at level 100, m at next level, right associativity) : state_scope.
Open Scope state_scope.

(** [for (int32 i = start; i < start + n; i++) acc = body(i, acc);] *)
Fixpoint for_loop {S A : Type} (n : nat) (i : Z) (body : Z -> A -> State S A)
  (acc : A) : State S A :=
  match n with
  | O => ret acc
  | S n' => acc' <- body i acc ;; for_loop n' (i + 1)%Z body acc'
  end.

(** [n] successive integers from [i]. *)
Fixpoint Zseq (i : Z) (n : nat) : list Z :=
  match n with
  | O => []
  | S n' => i :: Zseq (i + 1)%Z n'
  end.

(** The results of [f i], [f (i + 1)], ... run one after the other. *)
Fixpoint collect {S A : Type} (n : nat) (i : Z) (f : Z -> State S A)
  : State S (list A) :=
  match n with
  | O => ret []
  | S n' => x <- f i ;; xs <- collect n' (i + 1)%Z f ;; ret (x :: xs)
  end.

(* ------------------------------------------------------------------ *)
(** ** Engine interfaces *)

(** Random numbers of the engine, taken as parameters.  [Stream] is the state
    of an [FRandomStream], built from an [int32] seed; [GlobalRand] is the
    state of the process-wide generator behind [FMath::Rand], [FMath::FRand]
    and [FMath::RandRange], which no seed of a generator object initialises.
    The ranges are those of the stream contract of the specification: a
    fraction lies in [0, 1), an integer or float drawn from a range [lo, hi]
    with [lo <= hi] lies in it. *)
Class Random : Type := {
  Stream : Type;
  FRandomStream : Z -> Stream;
  Stream_FRand : State Stream Q;
  Stream_RandRange : Z -> Z -> State Stream Z;
  Stream_FRandRange : Q -> Q -> State Stream Q;
  GlobalRand : Type;
  FMath_Rand : State GlobalRand Z;
  FMath_FRand : State GlobalRand Q;
  FMath_RandRange : Z -> Z -> State GlobalRand Z;
  Stream_FRand_range : forall s, 0 <= fst (Stream_FRand s) /\ fst (Stream_FRand s) < 1;
  Stream_RandRange_range : forall lo hi s,
    (lo <= hi)%Z -> (lo <= fst (Stream_RandRange lo hi s) <= hi)%Z;
  Stream_FRandRange_range : forall lo hi s,
    lo <= hi -> lo <= fst (Stream_FRandRange lo hi s) /\ fst (Stream_FRandRange lo hi s) <= hi;
  FMath_Rand_range : forall g, (0 <= fst (FMath_Rand g))%Z;
  FMath_FRand_range : forall g, 0 <= fst (FMath_FRand g) /\ fst (FMath_FRand g) < 1;
  FMath_RandRange_range : forall lo hi g,
    (lo <= hi)%Z -> (lo <= fst (FMath_RandRange lo hi g) <= hi)%Z
}.

(** Elementary functions of [FMath] on [float]. *)
Class Trig : Type := {
  Cos : Q -> Q;
  Sin : Q -> Q;
  Sqrt : Q -> Q;
  DegreesToRadians : Q -> Q
}.

(** The successive draws of [FMath::FRand] from the state [g]. *)
Fixpoint Draws `{Random} (n : nat) (g : GlobalRand) : list Q :=
  match n with
  | O => []
  | S n' => let (r, g') := FMath_FRand g in r :: Draws n' g'
  end.

(** The state of the process-wide generator after [n] draws. *)
Fixpoint AfterDraws `{Random} (n : nat) (g : GlobalRand) : GlobalRand :=
  match n with
  | O => g
  | S n' => AfterDraws n' (snd (FMath_FRand g))
  end.

(** [FVector] *)
Record FVector : Type := MkVector { X : Q; Y : Q; Z_ : Q }.

Definition FVector_add (a b : FVector) : FVector :=
  MkVector (X a + X b) (Y a + Y b) (Z_ a + Z_ b).

(** [FVector::Dist] *)
Definition FVector_Dist `{Trig} (a b : FVector) : Q :=
  Sqrt ((X b - X a) * (X b - X a) + (Y b - Y a) * (Y b - Y a)
        + (Z_ b - Z_ a) * (Z_ b - Z_ a)).

(* ------------------------------------------------------------------ *)
(** ** Weapon generator: [ProceduralWeaponGenerator.h/.cpp] *)

Module Weapon.

Inductive EWeaponType : Type :=
  Sword | Bow | Staff | Hammer | Spear | Dagger | Rifle | Pistol | Wand | Axe.

Inductive EWeaponRarity : Type := Common | Uncommon | Rare | Epic | Legendary.

Inductive EElementalType : Type :=
  Fire | Ice | Lightning | Nature | Holy | Dark | Pure | Chaos.

(** [static_cast<int32>] of the enumerators. *)
Definition EWeaponType_to_int (t : EWeaponType) : Z :=
  match t with
  | Sword => 0 | Bow => 1 | Staff => 2 | Hammer => 3 | Spear => 4
  | Dagger => 5 | Rifle => 6 | Pistol => 7 | Wand => 8 | Axe => 9
  end%Z.

Definition EWeaponRarity_to_int (r : EWeaponRarity) : Z :=
  match r with
  | Common => 0 | Uncommon => 1 | Rare => 2 | Epic => 3 | Legendary => 4
  end%Z.

(** [static_cast<EWeaponType>] and [static_cast<EElementalType>] of an
    [int32].  The generators apply them to [RandRange(0, 9)] and
    [RandRange(0, 7)] only; the last arm stands for the values no enumerator
    names, which the range of [RandRange] excludes. *)
Definition EWeaponType_of_int (z : Z) : EWeaponType :=
  match z with
  | 0 => Sword | 1 => Bow | 2 => Staff | 3 => Hammer | 4 => Spear
  | 5 => Dagger | 6 => Rifle | 7 => Pistol | 8 => Wand | _ => Axe
  end%Z.

Definition EElementalType_of_int (z : Z) : EElementalType :=
  match z with
  | 0 => Fire | 1 => Ice | 2 => Lightning | 3 => Nature | 4 => Holy
  | 5 => Dark | 6 => Pure | _ => Chaos
  end%Z.

Record FWeaponStat : Type := MkStat {
  Damage : Q;
  CriticalChance : Q;
  CriticalDamage : Q;
  AttackSpeed : Q;
  Range : Q;
  SpecialAbilityPower : Q
}.

Record FWeapon : Type := MkWeapon {
  WeaponId : string;
  WeaponName : string;
  Type_ : EWeaponType;
  Rarity : EWeaponRarity;
  Element : EElementalType;
  Stats : FWeaponStat;
  RequiredLevel : Z;
  Enchantments : list string;
  Weight : Q;
  Description : string;
  GoldValue : Z;
  bIsUnique : bool
}.

(** The default member initialisers of [FWeaponStat] and [FWeapon]. *)
Definition FWeaponStat_default : FWeaponStat := MkStat 10 0.05 1.5 1 100 0.

Definition FWeapon_default : FWeapon :=
  MkWeapon "" "" Sword Common Pure FWeaponStat_default 1 [] 10 "" 100 false.

(** Assignments to one member. *)
Definition set_Damage (v : Q) (s : FWeaponStat) : FWeaponStat :=
  MkStat v (CriticalChance s) (CriticalDamage s) (AttackSpeed s) (Range s)
    (SpecialAbilityPower s).
Definition set_CriticalChance (v : Q) (s : FWeaponStat) : FWeaponStat :=
  MkStat (Damage s) v (CriticalDamage s) (AttackSpeed s) (Range s)
    (SpecialAbilityPower s).
Definition set_CriticalDamage (v : Q) (s : FWeaponStat) : FWeaponStat :=
  MkStat (Damage s) (CriticalChance s) v (AttackSpeed s) (Range s)
    (SpecialAbilityPower s).
Definition set_AttackSpeed (v : Q) (s : FWeaponStat) : FWeaponStat :=
  MkStat (Damage s) (CriticalChance s) (CriticalDamage s) v (Range s)
    (SpecialAbilityPower s).
Definition set_Range (v : Q) (s : FWeaponStat) : FWeaponStat :=
  MkStat (Damage s) (CriticalChance s) (CriticalDamage s) (AttackSpeed s) v
    (SpecialAbilityPower s).
Definition set_SpecialAbilityPower (v : Q) (s : FWeaponStat) : FWeaponStat :=
  MkStat (Damage s) (CriticalChance s) (CriticalDamage s) (AttackSpeed s)
    (Range s) v.

Definition set_WeaponId (v : string) (w : FWeapon) : FWeapon :=
  MkWeapon v (WeaponName w) (Type_ w) (Rarity w) (Element w) (Stats w)
    (RequiredLevel w) (Enchantments w) (Weight w) (Description w) (GoldValue w)
    (bIsUnique w).
Definition set_WeaponName (v : string) (w : FWeapon) : FWeapon :=
  MkWeapon (WeaponId w) v (Type_ w) (Rarity w) (Element w) (Stats w)
    (RequiredLevel w) (Enchantments w) (Weight w) (Description w) (GoldValue w)
    (bIsUnique w).
Definition set_Type (v : EWeaponType) (w : FWeapon) : FWeapon :=
  MkWeapon (WeaponId w) (WeaponName w) v (Rarity w) (Element w) (Stats w)
    (RequiredLevel w) (Enchantments w) (Weight w) (Description w) (GoldValue w)
    (bIsUnique w).
Definition set_Rarity (v : EWeaponRarity) (w : FWeapon) : FWeapon :=
  MkWeapon (WeaponId w) (WeaponName w) (Type_ w) v (Element w) (Stats w)
    (RequiredLevel w) (Enchantments w) (Weight w) (Description w) (GoldValue w)
    (bIsUnique w).
Definition set_Element (v : EElementalType) (w : FWeapon) : FWeapon :=
  MkWeapon (WeaponId w) (WeaponName w) (Type_ w) (Rarity w) v (Stats w)
    (RequiredLevel w) (Enchantments w) (Weight w) (Description w) (GoldValue w)
    (bIsUnique w).
Definition set_Stats (v : FWeaponStat) (w : FWeapon) : FWeapon :=
  MkWeapon (WeaponId w) (WeaponName w) (Type_ w) (Rarity w) (Element w) v
    (RequiredLevel w) (Enchantments w) (Weight w) (Description w) (GoldValue w)
    (bIsUnique w).
Definition set_RequiredLevel (v : Z) (w : FWeapon) : FWeapon :=
  MkWeapon (WeaponId w) (WeaponName w) (Type_ w) (Rarity w) (Element w) (Stats w)
    v (Enchantments w) (Weight w) (Description w) (GoldValue w) (bIsUnique w).
Definition set_Enchantments (v : list string) (w : FWeapon) : FWeapon :=
  MkWeapon (WeaponId w) (WeaponName w) (Type_ w) (Rarity w) (Element w) (Stats w)
    (RequiredLevel w) v (Weight w) (Description w) (GoldValue w) (bIsUnique w).
Definition set_Weight (v : Q) (w : FWeapon) : FWeapon :=
  MkWeapon (WeaponId w) (WeaponName w) (Type_ w) (Rarity w) (Element w) (Stats w)
    (RequiredLevel w) (Enchantments w) v (Description w) (GoldValue w)
    (bIsUnique w).
Definition set_GoldValue (v : Z) (w : FWeapon) : FWeapon :=
  MkWeapon (WeaponId w) (WeaponName w) (Type_ w) (Rarity w) (Element w) (Stats w)
    (RequiredLevel w) (Enchantments w) (Weight w) (Description w) v
    (bIsUnique w).

(** The generator object: its properties and its two protected arrays. *)
Record AProceduralWeaponGenerator : Type := MkGenerator {
  RandomSeed : Z;
  MaxEnchantments : Z;
  LegendaryChance : Q;
  EpicChance : Q;
  RareChance : Q;
  GeneratedWeapons : list FWeapon;
  EnchantmentLibrary : list string
}.

(** The object as constructed: default properties, both arrays empty. *)
Definition Generator_default : AProceduralWeaponGenerator :=
  MkGenerator 999 3 0.01 0.05 0.15 [] [].

Definition InitializeEnchantmentLibrary (G : AProceduralWeaponGenerator)
  : AProceduralWeaponGenerator :=
  MkGenerator (RandomSeed G) (MaxEnchantments G) (LegendaryChance G)
    (EpicChance G) (RareChance G) (GeneratedWeapons G)
    ["Burning"; "Freezing"; "Shocking"; "Poisoned"; "Blessed"; "Cursed";
     "Enchanted"; "Sharpened"; "Reinforced"; "Ethereal"; "Timeless"; "Wise";
     "Mighty"; "Swift"; "Resilient"]%string.

Definition BeginPlay (G : AProceduralWeaponGenerator) : AProceduralWeaponGenerator :=
  InitializeEnchantmentLibrary G.

(** The decision list of [DetermineRarity] on the draw [Random]. *)
Definition RarityOfDraw (G : AProceduralWeaponGenerator) (Random : Q) : EWeaponRarity :=
  if Qltb Random (LegendaryChance G) then Legendary
  else if Qltb Random (LegendaryChance G + EpicChance G) then Epic
  else if Qltb Random (LegendaryChance G + EpicChance G + RareChance G) then Rare
  else if Qltb Random 0.4 then Uncommon
  else Common.

Definition GenerateWeaponName (Type_ : EWeaponType) (Rarity : EWeaponRarity)
  (Element : EElementalType) : string :=
  let ElementName :=
    match Element with
    | Fire => "Flaming" | Ice => "Frozen" | Lightning => "Thundering"
    | Nature => "Natural" | Holy => "Holy" | Dark => "Dark"
    | _ => ""
    end%string in
  let TypeName :=
    match Type_ with
    | Sword => "Sword" | Bow => "Bow" | Staff => "Staff" | Hammer => "Hammer"
    | Spear => "Spear" | Dagger => "Dagger" | Rifle => "Rifle"
    | Pistol => "Pistol" | Wand => "Wand" | Axe => "Axe"
    end%string in
  let RarityPrefix :=
    match Rarity with
    | Legendary => "Legendary " | Epic => "Epic " | Rare => "Rare "
    | Uncommon => "" | _ => ""
    end%string in
  (RarityPrefix ++ ElementName ++ " " ++ TypeName)%string.

Definition CalculateWeaponValue (Weapon : FWeapon) : Z :=
  let BaseValue := 100%Z in
  let RarityValue := (EWeaponRarity_to_int (Rarity Weapon) * 200)%Z in
  let StatsValue := trunc_int32 (Damage (Stats Weapon) * 5) in
  let EnchantmentValue := (Z.of_nat (List.length (Enchantments Weapon)) * 150)%Z in
  (BaseValue + RarityValue + StatsValue + EnchantmentValue)%Z.

(** The enchantment count by rarity, the [switch] of [GenerateWeapon]. *)
Definition NumEnchantmentsOf (r : EWeaponRarity) : Z :=
  match r with
  | Legendary => 4 | Epic => 3 | Rare => 2 | Uncommon => 1 | _ => 0
  end%Z.

Section Generator.
Context `{Random}.
Variable G : AProceduralWeaponGenerator.

Definition DetermineRarity : State GlobalRand EWeaponRarity :=
  Random <- FMath_FRand ;;
  ret (RarityOfDraw G Random).

Definition CalculateWeaponStats (Weapon : FWeapon) (Level : Z) : FWeapon :=
  let RandomStream :=
    FRandomStream (wrap32 (RandomSeed G + EWeaponType_to_int (Type_ Weapon))) in
  let LevelMultiplier := 1 + to_float Level * 0.1 in
  let RarityMultiplier := 1 + to_float (EWeaponRarity_to_int (Rarity Weapon)) * 0.3 in
  let dmg (base : Q) (w : FWeapon) :=
    set_Stats (set_Damage (base * LevelMultiplier * RarityMultiplier) (Stats w)) w in
  let spd (v : Q) (w : FWeapon) := set_Stats (set_AttackSpeed v (Stats w)) w in
  let rng (v : Q) (w : FWeapon) := set_Stats (set_Range v (Stats w)) w in
  let sap (v : Q) (w : FWeapon) :=
    set_Stats (set_SpecialAbilityPower (v * RarityMultiplier) (Stats w)) w in
  let Weapon :=
    match Type_ Weapon with
    | Sword => set_Weight 15 (rng 200 (spd 1 (dmg 25 Weapon)))
    | Bow => set_Weight 5 (rng 1000 (spd 1.2 (dmg 20 Weapon)))
    | Staff => set_Weight 8 (rng 500 (sap 30 (dmg 15 Weapon)))
    | Hammer =>
        let w := spd 0.7 (dmg 35 Weapon) in
        let w := set_Stats (set_CriticalDamage 2 (Stats w)) w in
        set_Weight 25 (rng 150 w)
    | Spear => set_Weight 12 (rng 300 (spd 1.1 (dmg 22 Weapon)))
    | Dagger =>
        let w := spd 1.5 (dmg 15 Weapon) in
        let w := set_Stats (set_CriticalChance 0.2 (Stats w)) w in
        set_Weight 3 (rng 100 w)
    | Rifle => set_Weight 7 (rng 2000 (spd 0.9 (dmg 30 Weapon)))
    | Pistol => set_Weight 4 (rng 800 (spd 1.3 (dmg 18 Weapon)))
    | Wand => set_Weight 2 (rng 600 (sap 40 (dmg 12 Weapon)))
    | Axe => set_Weight 20 (rng 180 (spd 0.8 (dmg 32 Weapon)))
    end in
  set_Stats
    (set_CriticalChance
       (CriticalChance (Stats Weapon)
        + to_float (EWeaponRarity_to_int (Rarity Weapon)) * 0.02)
       (Stats Weapon))
    Weapon.

(** [Element] is a parameter of the C++ function that its body never reads. *)
Definition AddEnchantment (Weapon : FWeapon) (Element : EElementalType)
  : State GlobalRand FWeapon :=
  if (MaxEnchantments G <=? Z.of_nat (List.length (Enchantments Weapon)))%Z
  then ret Weapon
  else
    RandomIndex <-
      FMath_RandRange 0 (Z.of_nat (List.length (EnchantmentLibrary G)) - 1) ;;
    if ((0 <=? RandomIndex) && (RandomIndex <? Z.of_nat (List.length (EnchantmentLibrary G))))%Z
    then
      ret (set_Enchantments
             (Enchantments Weapon
              ++ [nth (Z.to_nat RandomIndex) (EnchantmentLibrary G) ""%string])
             Weapon)
    else ret Weapon.

(** [for (i = 0; i < NumEnchantments && i < MaxEnchantments; i++)
      AddEnchantment(Weapon, Weapon.Element);]
    [n] bounds the iterations; [GenerateWeapon] passes [NumEnchantments],
    at which the loop condition is false. *)
Fixpoint EnchantLoop (n : nat) (i NumEnchantments : Z) (Weapon : FWeapon)
  : State GlobalRand FWeapon :=
  match n with
  | O => ret Weapon
  | S n' =>
      if ((i <? NumEnchantments) && (i <? MaxEnchantments G))%Z
      then
        Weapon' <- AddEnchantment Weapon (Element Weapon) ;;
        EnchantLoop n' (i + 1)%Z NumEnchantments Weapon'
      else ret Weapon
  end.

Definition GenerateWeapon (Type_ : EWeaponType) (Level : Z) : State GlobalRand FWeapon :=
  id <- FMath_Rand ;;
  let Weapon := set_WeaponId (Printf_d "WPN_" id) FWeapon_default in
  let Weapon := set_Type Type_ Weapon in
  rarity <- DetermineRarity ;;
  let Weapon := set_Rarity rarity Weapon in
  let Weapon := set_RequiredLevel Level Weapon in
  element <- FMath_RandRange 0 7 ;;
  let Weapon := set_Element (EElementalType_of_int element) Weapon in
  let Weapon :=
    set_WeaponName (GenerateWeaponName Type_ (Rarity Weapon) (Element Weapon)) Weapon in
  let Weapon := CalculateWeaponStats Weapon Level in
  let NumEnchantments := NumEnchantmentsOf (Rarity Weapon) in
  Weapon <- EnchantLoop (Z.to_nat NumEnchantments) 0 NumEnchantments Weapon ;;
  ret (set_GoldValue (CalculateWeaponValue Weapon) Weapon).

Definition GenerateRandomWeapon (Level : Z) : State GlobalRand FWeapon :=
  RandomType <- FMath_RandRange 0 9 ;;
  GenerateWeapon (EWeaponType_of_int RandomType) Level.

End Generator.

(** [GenerateWeaponSet] returns the set and records every weapon in
    [GeneratedWeapons]. *)
Fixpoint GenerateWeaponSetLoop `{Random} (n : nat) (Level : Z)
  (G : AProceduralWeaponGenerator) (WeaponSet : list FWeapon)
  : State GlobalRand (list FWeapon * AProceduralWeaponGenerator) :=
  match n with
  | O => ret (WeaponSet, G)
  | S n' =>
      NewWeapon <- GenerateRandomWeapon G Level ;;
      GenerateWeaponSetLoop n' Level
        (MkGenerator (RandomSeed G) (MaxEnchantments G) (LegendaryChance G)
           (EpicChance G) (RareChance G) (GeneratedWeapons G ++ [NewWeapon])
           (EnchantmentLibrary G))
        (WeaponSet ++ [NewWeapon])
  end.

Definition GenerateWeaponSet `{Random} (G : AProceduralWeaponGenerator)
  (Count Level : Z)
  : State GlobalRand (list FWeapon * AProceduralWeaponGenerator) :=
  GenerateWeaponSetLoop (Z.to_nat Count) Level G [].

End Weapon.

(* ------------------------------------------------------------------ *)
(** ** City generator: [ProceduralCityGenerator.h/.cpp] *)

Module City.

Inductive EBuildingType : Type :=
  | Residential | Commercial | Industrial | Government | Religious
  | Military | Educational | Entertainment | Infrastructure.

(** [static_cast<EBuildingType>] of an [int32]; applied to [RandRange(0, 8)]
    only, the last arm also stands for the values no enumerator names. *)
Definition EBuildingType_of_int (z : Z) : EBuildingType :=
  match z with
  | 0 => Residential | 1 => Commercial | 2 => Industrial | 3 => Government
  | 4 => Religious | 5 => Military | 6 => Educational | 7 => Entertainment
  | _ => Infrastructure
  end%Z.

Record FBuilding : Type := MkBuilding {
  BuildingId : string;
  Location : FVector;
  Size : FVector;
  BuildingType : EBuildingType;
  Floors : Z;
  Material : string;
  Rotation : Q;
  bHasGarden : bool;
  Building_Population : Z
}.

Record FRoad : Type := MkRoad {
  StartPoint : FVector;
  EndPoint : FVector;
  Width : Q;
  RoadType : string
}.

Record FDistrict : Type := MkDistrict {
  DistrictName : string;
  Center : FVector;
  Radius : Q;
  Buildings : list FBuilding;
  District_Population : Z;
  DistrictType : string
}.

(** [District.Buildings = v] *)
Definition set_Buildings (v : list FBuilding) (D : FDistrict) : FDistrict :=
  MkDistrict (DistrictName D) (Center D) (Radius D) v (District_Population D)
    (DistrictType D).

(** The generator object: its properties, the actor's location in the world
    ([GetActorLocation]) and the two arrays it owns.  The spawned actors of
    [CityActors] belong to the host and are left out. *)
Record AProceduralCityGenerator : Type := MkGenerator {
  CityName : string;
  CityPopulation : Z;
  CityRadius : Q;
  NumberOfDistricts : Z;
  BuildingsPerDistrict : Z;
  BuildingDensity : Q;
  RandomSeed : Z;
  ActorLocation : FVector;
  Districts : list FDistrict;
  RoadNetwork : list FRoad
}.

Definition set_Districts (v : list FDistrict) (G : AProceduralCityGenerator)
  : AProceduralCityGenerator :=
  MkGenerator (CityName G) (CityPopulation G) (CityRadius G) (NumberOfDistricts G)
    (BuildingsPerDistrict G) (BuildingDensity G) (RandomSeed G) (ActorLocation G)
    v (RoadNetwork G).

Definition set_RoadNetwork (v : list FRoad) (G : AProceduralCityGenerator)
  : AProceduralCityGenerator :=
  MkGenerator (CityName G) (CityPopulation G) (CityRadius G) (NumberOfDistricts G)
    (BuildingsPerDistrict G) (BuildingDensity G) (RandomSeed G) (ActorLocation G)
    (Districts G) v.

(** The object as constructed, placed at the origin. *)
Definition Generator_default : AProceduralCityGenerator :=
  MkGenerator "ProceduralCity" 100000 5000 8 50 0.6 42 (MkVector 0 0 0) [] [].

Definition ClearCity (G : AProceduralCityGenerator) : AProceduralCityGenerator :=
  set_RoadNetwork [] (set_Districts [] G).

(** [Districts.IsValidIndex(Index)] guards the access. *)
Fixpoint ClearBuildingsAt (n : nat) (ds : list FDistrict) : list FDistrict :=
  match ds, n with
  | [], _ => []
  | D :: ds', O => set_Buildings [] D :: ds'
  | D :: ds', S n' => D :: ClearBuildingsAt n' ds'
  end.

Definition CreateDistrict (Index : Z) (ds : list FDistrict) : list FDistrict :=
  if ((0 <=? Index) && (Index <? Z.of_nat (List.length ds)))%Z
  then ClearBuildingsAt (Z.to_nat Index) ds
  else ds.

Section Generator.
Context `{Random} `{Trig}.

(** The body of the loop of [GenerateDistricts], for district [i]; the
    accumulator is the array [Districts]. *)
Definition GenerateDistrict (G : AProceduralCityGenerator) (i : Z)
  (ds : list FDistrict) : State Stream (list FDistrict) :=
  let AngleBetweenDistricts := 360 / to_float (NumberOfDistricts G) in
  let DistrictName := Printf_d "District_" i in
  let Angle := DegreesToRadians (to_float i * AngleBetweenDistricts) in
  let DistanceFromCenter := CityRadius G * 0.6 in
  let Center :=
    FVector_add (ActorLocation G)
      (MkVector (Cos Angle * DistanceFromCenter) (Sin Angle * DistanceFromCenter) 0) in
  let Radius := CityRadius G / (to_float (NumberOfDistricts G) * 0.5) in
  let Population := Z.quot (CityPopulation G) (NumberOfDistricts G) in
  TypeChoice <- Stream_RandRange 0 3 ;;
  let DistrictType :=
    match TypeChoice with
    | 0 => "residential" | 1 => "commercial" | 2 => "industrial" | 3 => "mixed"
    | _ => ""
    end%Z%string in
  let District := MkDistrict DistrictName Center Radius [] Population DistrictType in
  let ds := CreateDistrict i ds in
  ret (ds ++ [District]).

Definition GenerateDistricts (G : AProceduralCityGenerator) : AProceduralCityGenerator :=
  let RandomStream := FRandomStream (RandomSeed G) in
  let ds :=
    fst (for_loop (Z.to_nat (NumberOfDistricts G)) 0 (GenerateDistrict G) []
           RandomStream) in
  set_Districts ds G.

(** The two roads of district [i]; [ds] is the whole array [Districts]. *)
Definition RoadsOfDistrict (G : AProceduralCityGenerator) (ds : list FDistrict)
  (i : Z) : list FRoad :=
  let NextDistrict := Z.rem (i + 1) (Z.of_nat (List.length ds)) in
  let dflt := MkDistrict "" (MkVector 0 0 0) 500 [] 0 "" in
  let Di := nth (Z.to_nat i) ds dflt in
  let Dn := nth (Z.to_nat NextDistrict) ds dflt in
  [ MkRoad (Center Di) (Center Dn) 25 "main";
    MkRoad (Center Di) (ActorLocation G) 15 "secondary" ].

Fixpoint RoadLoop (G : AProceduralCityGenerator) (ds : list FDistrict)
  (n : nat) (i : Z) (roads : list FRoad) : list FRoad :=
  match n with
  | O => roads
  | S n' => RoadLoop G ds n' (i + 1)%Z (roads ++ RoadsOfDistrict G ds i)
  end.

Definition GenerateRoadNetwork (G : AProceduralCityGenerator) : AProceduralCityGenerator :=
  let RandomStream := FRandomStream (wrap32 (RandomSeed G + 1)) in
  set_RoadNetwork (RoadLoop G (Districts G) (List.length (Districts G)) 0 []) G.

Definition GenerateRandomLocationInDistrict (G : AProceduralCityGenerator)
  (District : FDistrict) : FVector :=
  let RandomStream := FRandomStream (wrap32 (RandomSeed G + 3)) in
  let (r1, RandomStream) := Stream_FRand RandomStream in
  let RandomAngle := DegreesToRadians (r1 * 360) in
  let (r2, RandomStream) := Stream_FRand RandomStream in
  let RandomDistance := r2 * Radius District * 0.8 in
  FVector_add (Center District)
    (MkVector (Cos RandomAngle * RandomDistance) (Sin RandomAngle * RandomDistance) 0).

(** The three components of [Building.Size].  C++ leaves open the order in
    which the three arguments of [FVector(...)] are evaluated; the embedding
    draws them left to right.  Under any order each component is one draw of
    its own range, which is all the properties use. *)
Definition DrawSize (x0 x1 y0 y1 z0 z1 : Q) : State Stream FVector :=
  sx <- Stream_FRandRange x0 x1 ;;
  sy <- Stream_FRandRange y0 y1 ;;
  sz <- Stream_FRandRange z0 z1 ;;
  ret (MkVector sx sy sz).

Definition GenerateBuilding (G : AProceduralCityGenerator) (Type_ : EBuildingType)
  (Location : FVector) (DistrictIndex : Z) : FBuilding :=
  let RandomStream := FRandomStream (wrap32 (RandomSeed G + wrap32 (DistrictIndex * 100))) in
  fst
    ((id <- Stream_RandRange 10000 99999 ;;
      let BuildingId := Printf_d "Building_" id in
      r <- Stream_FRand ;;
      let Rotation := r * 360 in
      Population <- Stream_RandRange 10 500 ;;
      match Type_ with
      | Residential =>
          Size <- DrawSize 20 50 20 50 30 100 ;;
          Floors <- Stream_RandRange 1 5 ;;
          ret (MkBuilding BuildingId Location Size Type_ Floors "Brick" Rotation
                 false Population)
      | Commercial =>
          Size <- DrawSize 50 100 50 100 50 150 ;;
          Floors <- Stream_RandRange 3 10 ;;
          ret (MkBuilding BuildingId Location Size Type_ Floors "Glass" Rotation
                 false Population)
      | Industrial =>
          Size <- DrawSize 100 200 100 200 30 80 ;;
          ret (MkBuilding BuildingId Location Size Type_ 1 "Concrete" Rotation
                 false Population)
      | Government =>
          Size <- DrawSize 80 120 80 120 80 200 ;;
          Floors <- Stream_RandRange 5 8 ;;
          ret (MkBuilding BuildingId Location Size Type_ Floors "Marble" Rotation
                 false Population)
      | _ =>
          Size <- DrawSize 30 60 30 60 40 120 ;;
          Floors <- Stream_RandRange 2 6 ;;
          ret (MkBuilding BuildingId Location Size Type_ Floors "Mixed" Rotation
                 false Population)
      end) RandomStream).

(** The [if]/[else] chain of [PopulateDistricts] that picks the building type
    from the district type; only a mixed district draws from the stream. *)
Definition PickBuildingType (District : FDistrict) : State Stream EBuildingType :=
  if String.eqb (DistrictType District) "residential" then ret Residential
  else if String.eqb (DistrictType District) "commercial" then ret Commercial
  else if String.eqb (DistrictType District) "industrial" then ret Industrial
  else (t <- Stream_RandRange 0 8 ;; ret (EBuildingType_of_int t)).

(** The body of the inner loop of [PopulateDistricts]: one placement attempt
    in district [i]; the accumulator is the district. *)
Definition PlaceBuilding (G : AProceduralCityGenerator) (i : Z) (j : Z)
  (District : FDistrict) : State Stream FDistrict :=
  r <- Stream_FRand ;;
  if Qgtb r (BuildingDensity G) then ret District
  else
    let BuildingLocation := GenerateRandomLocationInDistrict G District in
    BuildingType <- PickBuildingType District ;;
    let Building := GenerateBuilding G BuildingType BuildingLocation i in
    ret (set_Buildings (Buildings District ++ [Building]) District).

(** The outer loop of [PopulateDistricts] over the districts from index [i]. *)
Fixpoint PopulateFrom (G : AProceduralCityGenerator) (i : Z) (ds : list FDistrict)
  : State Stream (list FDistrict) :=
  match ds with
  | [] => ret []
  | District :: ds' =>
      District' <-
        for_loop (Z.to_nat (BuildingsPerDistrict G)) 0 (PlaceBuilding G i) District ;;
      rest <- PopulateFrom G (i + 1)%Z ds' ;;
      ret (District' :: rest)
  end.

Definition PopulateDistricts (G : AProceduralCityGenerator) : AProceduralCityGenerator :=
  let RandomStream := FRandomStream (wrap32 (RandomSeed G + 2)) in
  set_Districts (fst (PopulateFrom G 0 (Districts G) RandomStream)) G.

Definition GenerateCity (G : AProceduralCityGenerator) : AProceduralCityGenerator :=
  PopulateDistricts (GenerateRoadNetwork (GenerateDistricts (ClearCity G))).

(** [IsValidBuildingLocation] is defined by the class and called by none of
    its member functions. *)
Definition IsValidBuildingLocation (G : AProceduralCityGenerator)
  (Location : FVector) (BuildingSize : Q) : bool :=
  forallb
    (fun District =>
       forallb
         (fun Building =>
            negb (Qltb (FVector_Dist Location (City.Location Building))
                    (BuildingSize + FMax (X (Size Building)) (Y (Size Building)))))
         (Buildings District))
    (Districts G).

End Generator.

(** The separation the specification asks of two placed buildings: the
    distance between their centres is at least the sum of their
    half-footprints, the half-footprint being half the larger horizontal
    extent.  The sum [s] is never negative for the sizes drawn, and a distance
    is at least [s] exactly when its square is at least [s * s]; the relation
    is stated on the squares, which needs no square root. *)
Definition HalfFootprint (b : FBuilding) : Q := FMax (X (Size b)) (Y (Size b)) / 2.

Definition DistSquared (a b : FVector) : Q :=
  (X b - X a) * (X b - X a) + (Y b - Y a) * (Y b - Y a)
  + (Z_ b - Z_ a) * (Z_ b - Z_ a).

Definition Separated (b1 b2 : FBuilding) : Prop :=
  let s := HalfFootprint b1 + HalfFootprint b2 in
  s * s <= DistSquared (Location b1) (Location b2).

Definition NoOverlap (bs : list FBuilding) : Prop :=
  forall (i j : nat) (b1 b2 : FBuilding),
    (i < j)%nat -> nth_error bs i = Some b1 -> nth_error bs j = Some b2 ->
    Separated b1 b2.

(** Every building of the city, district after district. *)
Definition AllBuildings (G : AProceduralCityGenerator) : list FBuilding :=
  flat_map Buildings (Districts G).

(** What one call of [PopulateDistricts] adds to a district [D], given the
    district [D'] it leaves: the buildings of [D] are kept in front, and the
    added ones all stand at the point [P]. *)
Definition AddedAt (P : FVector) (D D' : FDistrict) : Prop :=
  exists added : list FBuilding,
    Buildings D' = Buildings D ++ added
    /\ Forall (fun b => Location b = P) added.

End City.

(* ------------------------------------------------------------------ *)
(** ** Terrain generator: [ProceduralTerrainGenerator.h/.cpp] *)

Module Terrain.

Inductive EBiomeType : Type :=
  Plains | Forest | Desert | Mountain | Tundra | Volcanic | Jungle | Ocean.

Record FTerrainCell : Type := MkCell {
  Height : Q;
  Moisture : Q;
  Temperature : Q;
  BiomeType : EBiomeType;
  Objects : list string;
  bWalkable : bool
}.

(** The default member initialisers of [FTerrainCell]. *)
Definition FTerrainCell_default : FTerrainCell := MkCell 0 0 0.5 Plains [] true.

Definition set_Height (v : Q) (c : FTerrainCell) : FTerrainCell :=
  MkCell v (Moisture c) (Temperature c) (BiomeType c) (Objects c) (bWalkable c).
Definition set_Moisture (v : Q) (c : FTerrainCell) : FTerrainCell :=
  MkCell (Height c) v (Temperature c) (BiomeType c) (Objects c) (bWalkable c).
Definition set_Temperature (v : Q) (c : FTerrainCell) : FTerrainCell :=
  MkCell (Height c) (Moisture c) v (BiomeType c) (Objects c) (bWalkable c).
Definition add_Object (v : string) (c : FTerrainCell) : FTerrainCell :=
  MkCell (Height c) (Moisture c) (Temperature c) (BiomeType c) (Objects c ++ [v])
    (bWalkable c).

(** The generator object: its properties and the grid.  The spawned actors of
    [VegetationActors] belong to the host and are left out. *)
Record AProceduralTerrainGenerator : Type := MkGenerator {
  TerrainWidth : Z;
  TerrainHeight : Z;
  CellSize : Q;
  NoiseScale : Q;
  NoiseOctaves : Z;
  NoisePersistence : Q;
  NoiseFrequency : Q;
  RandomSeed : Z;
  TreeDensity : Q;
  RockDensity : Q;
  BushDensity : Q;
  TerrainGrid : list FTerrainCell
}.

Definition set_TerrainGrid (v : list FTerrainCell) (G : AProceduralTerrainGenerator)
  : AProceduralTerrainGenerator :=
  MkGenerator (TerrainWidth G) (TerrainHeight G) (CellSize G) (NoiseScale G)
    (NoiseOctaves G) (NoisePersistence G) (NoiseFrequency G) (RandomSeed G)
    (TreeDensity G) (RockDensity G) (BushDensity G) v.

(** The object as constructed. *)
Definition Generator_default : AProceduralTerrainGenerator :=
  MkGenerator 256 256 100 50 4 0.5 0.01 12345 0.3 0.2 0.25 [].

Definition DetermineBiome (Height Moisture Temperature : Q) : EBiomeType :=
  if Qltb Height (-0.3) then Ocean
  else if Qgtb Height 0.7 then Mountain
  else if Qltb Temperature 0.2 then Tundra
  else if Qgtb Temperature 0.8 && Qgtb Moisture 0.6 then Jungle
  else if Qgtb Temperature 0.8 && Qltb Moisture 0.3 then Desert
  else if Qgtb Height 0.4 && Qgtb Moisture 0.5 then Forest
  else if Qgtb Temperature 0.6 && Qgtb Height 0.5 then Volcanic
  else Plains.

(** The assignment of [GenerateMoistureMap] to one cell. *)
Definition MoistureOfHeight (Height : Q) : Q := FMax 0 (1 - Height * 0.5).

Definition GenerateMoistureMap (G : AProceduralTerrainGenerator)
  : AProceduralTerrainGenerator :=
  set_TerrainGrid
    (map (fun c => set_Moisture (MoistureOfHeight (Height c)) c) (TerrainGrid G)) G.

(** The loop of [GenerateTemperatureMap] over the cells from index [i].
    [i / TerrainHeight] is a division of [int32]: with a cell in the grid
    the code is defined for [TerrainHeight <> 0] only, where [Z.quot] is that
    division.  At [TerrainHeight = 0] the code divides by zero, which the
    function does not show; the properties of this pass exclude it. *)
Fixpoint TemperatureFrom (G : AProceduralTerrainGenerator) (i : Z)
  (cells : list FTerrainCell) : list FTerrainCell :=
  match cells with
  | [] => []
  | c :: cells' =>
      let LatitudeFactor :=
        to_float (Z.quot i (TerrainHeight G)) / to_float (TerrainHeight G) in
      let t := 0.5 + Height c * 0.3 - LatitudeFactor * 0.4 in
      set_Temperature (FClamp t 0 1) c :: TemperatureFrom G (i + 1)%Z cells'
  end.

Definition GenerateTemperatureMap (G : AProceduralTerrainGenerator)
  : AProceduralTerrainGenerator :=
  set_TerrainGrid (TemperatureFrom G 0 (TerrainGrid G)) G.

Section Generator.
Context `{Random}.

(** The loop of [GenerateHeightMap]: one draw of [FMath::FRand] per cell. *)
Fixpoint HeightMapOver (cells : list FTerrainCell) : State GlobalRand (list FTerrainCell) :=
  match cells with
  | [] => ret []
  | c :: cells' =>
      r <- FMath_FRand ;;
      rest <- HeightMapOver cells' ;;
      ret (set_Height (r * 2 - 1) c :: rest)
  end.

Definition GenerateHeightMap (G : AProceduralTerrainGenerator)
  : State GlobalRand AProceduralTerrainGenerator :=
  cells <- HeightMapOver (TerrainGrid G) ;;
  ret (set_TerrainGrid cells G).

(** The octave loop of [GetPerlinNoise]; the accumulator holds
    [(Value, Amplitude, Frequency, MaxValue)].  The sums are exact.  In
    [float] they stay finite while the amplitude does, which a persistence of
    at most 1 ensures; a larger one lets [Amplitude] and [MaxValue] overflow,
    and with no octave the code divides 0 by 0.  The properties of the noise
    are stated for at least one octave and a persistence in [0, 1]. *)
Definition Octave (G : AProceduralTerrainGenerator) (i : Z) (acc : Q * Q * Q * Q)
  : State Stream (Q * Q * Q * Q) :=
  let '(Value, Amplitude, Frequency, MaxValue) := acc in
  r <- Stream_FRand ;;
  ret (Value + r * Amplitude, Amplitude * NoisePersistence G, Frequency * 2,
       MaxValue + Amplitude).

Definition GetPerlinNoise (G : AProceduralTerrainGenerator) (X Y : Q) (Seed : Z) : Q :=
  let Random := FRandomStream (wrap32 (Seed + trunc_int32 (X + Y * 1000))) in
  let '(Value, _, _, MaxValue) :=
    fst (for_loop (Z.to_nat (NoiseOctaves G)) 0 (Octave G) (0, 1, 1, 0) Random) in
  Value / MaxValue.

(** The body of the two nested loops of [GenerateTerrain]: the cell built at
    [(X, Y)], appended to the grid. *)
Definition MakeCell (G : AProceduralTerrainGenerator) (X Y : Z)
  : State GlobalRand FTerrainCell :=
  let Height := GetPerlinNoise G (to_float X) (to_float Y) (RandomSeed G) in
  Moisture <- FMath_FRand ;;
  let Temperature := FClamp (0.5 + Height * 0.5) 0 1 in
  ret (MkCell Height Moisture Temperature
         (DetermineBiome Height Moisture Temperature) [] (Qgtb Height (-0.3))).

Definition FillColumn (G : AProceduralTerrainGenerator) (X : Z)
  (grid : list FTerrainCell) : State GlobalRand (list FTerrainCell) :=
  for_loop (Z.to_nat (TerrainHeight G)) 0
    (fun Y grid => Cell <- MakeCell G X Y ;; ret (grid ++ [Cell])) grid.

Definition GenerateTerrain (G : AProceduralTerrainGenerator)
  : State GlobalRand AProceduralTerrainGenerator :=
  let G := set_TerrainGrid [] G in
  let RandomStream := FRandomStream (RandomSeed G) in
  G <- GenerateHeightMap G ;;
  let G := GenerateMoistureMap G in
  let G := GenerateTemperatureMap G in
  grid <- for_loop (Z.to_nat (TerrainWidth G)) 0 (FillColumn G) (TerrainGrid G) ;;
  ret (set_TerrainGrid grid G).

(** The coordinates [GenerateVegetation] reads off the index [i] of a cell:
    [CellX = i % TerrainWidth] and [CellY = i / TerrainWidth], defined for
    [TerrainWidth <> 0] only; the properties of [GenerateVegetation] exclude
    [TerrainWidth = 0]. *)
Definition CellXOfIndex (G : AProceduralTerrainGenerator) (i : Z) : Z :=
  Z.rem i (TerrainWidth G).
Definition CellYOfIndex (G : AProceduralTerrainGenerator) (i : Z) : Z :=
  Z.quot i (TerrainWidth G).

(** The body of the loop of [GenerateVegetation] for the cell at index [i]. *)
Definition Vegetate (G : AProceduralTerrainGenerator) (i : Z) (Cell : FTerrainCell)
  : State Stream FTerrainCell :=
  if negb (bWalkable Cell) then ret Cell
  else
    let CellX := CellXOfIndex G i in
    let CellY := CellYOfIndex G i in
    let Location :=
      MkVector (to_float CellX * CellSize G) (to_float CellY * CellSize G)
        (Height Cell * 1000) in
    Cell <-
      (match BiomeType Cell with
       | Forest | Jungle =>
           r <- Stream_FRand ;;
           ret (if Qltb r (TreeDensity G) then add_Object "tree" Cell else Cell)
       | _ => ret Cell
       end) ;;
    r <- Stream_FRand ;;
    let Cell := if Qltb r (RockDensity G) then add_Object "rock" Cell else Cell in
    r <- Stream_FRand ;;
    let Cell := if Qltb r (BushDensity G) then add_Object "bush" Cell else Cell in
    ret Cell.

Fixpoint VegetateFrom (G : AProceduralTerrainGenerator) (i : Z)
  (cells : list FTerrainCell) : State Stream (list FTerrainCell) :=
  match cells with
  | [] => ret []
  | c :: cells' =>
      c' <- Vegetate G i c ;;
      rest <- VegetateFrom G (i + 1)%Z cells' ;;
      ret (c' :: rest)
  end.

Definition GenerateVegetation (G : AProceduralTerrainGenerator)
  : AProceduralTerrainGenerator :=
  let RandomStream := FRandomStream (RandomSeed G) in
  set_TerrainGrid (fst (VegetateFrom G 0 (TerrainGrid G) RandomStream)) G.

End Generator.

End Terrain.

(* ------------------------------------------------------------------ *)
(** ** A reference implementation of the [Random] interface

    The seeded stream is a 32-bit linear congruential generator whose fraction
    is the top 23 bits of the state, with [RandRange] and [FRandRange] derived
    from the fraction.  The process-wide generator replays a tape of raw
    15-bit draws (an exhausted tape yields 0); two different tapes stand for
    two different states of the process.  [ReferenceEngine.engine] below
    packs these functions as an instance of [Random]: the ranges required by
    the interface can be met, and the generators can be evaluated on concrete
    inputs. *)

Module Reference.

Definition MutateSeed (s : Z) : Z := ((s * 196314165 + 907633515) mod 2 ^ 32)%Z.

Definition GetFraction : State Z Q :=
  fun s => let s' := MutateSeed s in (Qmake (s' / 2 ^ 9) (2 ^ 23), s').

Definition RandHelper (A : Z) : State Z Z :=
  if (0 <? A)%Z
  then f <- GetFraction ;; ret (trunc_int32 (f * to_float A))
  else ret 0%Z.

Definition RandRange (lo hi : Z) : State Z Z :=
  r <- RandHelper (hi - lo + 1) ;; ret (lo + r)%Z.

Definition FRandRange (lo hi : Q) : State Z Q :=
  f <- GetFraction ;; ret (lo + (hi - lo) * f).

Definition TapeRand : State (list Z) Z :=
  fun g =>
    match g with
    | [] => (0%Z, [])
    | r :: g' => ((r mod 2 ^ 15)%Z, g')
    end.

Definition TapeFRand : State (list Z) Q :=
  r <- TapeRand ;; ret (Qmake r (2 ^ 15)).

Definition TapeRandRange (lo hi : Z) : State (list Z) Z :=
  if (0 <? hi - lo + 1)%Z
  then f <- TapeFRand ;; ret (lo + trunc_int32 (f * to_float (hi - lo + 1)))%Z
  else ret lo.

End Reference.


(* ------------------------------------------------------------------ *)
(** ** Stand-ins for the elementary functions

    Rational stand-ins for [FMath::Cos], [FMath::Sin], [FMath::Sqrt] and
    [FMath::DegreesToRadians]: Taylor polynomials, an integer square root and
    355/113 for pi.  They let the city generator be evaluated on concrete
    inputs; every property of the city is proved for any [Trig]. *)

Module ReferenceTrig.

Definition CosApprox (x : Q) : Q := 1 - x * x / 2 + x * x * x * x / 24.

Definition SinApprox (x : Q) : Q := x - x * x * x / 6 + x * x * x * x * x / 120.

Definition SqrtApprox (q : Q) : Q := Qmake (Z.sqrt (Qnum q * Zpos (Qden q))) (Qden q).

Definition DegreesToRadiansApprox (x : Q) : Q := x * (355 # 113) / 180.

#[export] Instance trig : Trig := {|
  Cos := CosApprox;
  Sin := SinApprox;
  Sqrt := SqrtApprox;
  DegreesToRadians := DegreesToRadiansApprox
|}.

End ReferenceTrig.

(* ------------------------------------------------------------------ *)
(** ** The export functions

    Each of the four export functions builds a tree of [FJsonObject]s, hands
    it to the engine's serializer and saves the text under [FilePath].  The
    serializer and the file system are the engine's; the embedding of an
    export function is the tree it builds, as a function of the object.

    An [FJsonObject] is the list of its fields in the order they were first
    set; setting a field that is there replaces its value, as the map
    behind the engine's class does.  A number field holds a [double], here a
    rational like every [float]. *)

Module Json.

#[local] Set Warnings "-register-all".

Inductive FJsonValue : Type :=
  | FJsonValueString (s : string)
  | FJsonValueNumber (q : Q)
  | FJsonValueArray (a : list FJsonValue)
  | FJsonValueObject (o : list (string * FJsonValue)).

Definition FJsonObject : Type := list (string * FJsonValue).

Fixpoint SetField (FieldName : string) (v : FJsonValue) (o : FJsonObject) : FJsonObject :=
  match o with
  | [] => [(FieldName, v)]
  | (k, w) :: o' =>
      if String.eqb k FieldName then (FieldName, v) :: o'
      else (k, w) :: SetField FieldName v o'
  end.

Definition SetStringField (FieldName : string) (s : string) : FJsonObject -> FJsonObject :=
  SetField FieldName (FJsonValueString s).
Definition SetNumberField (FieldName : string) (q : Q) : FJsonObject -> FJsonObject :=
  SetField FieldName (FJsonValueNumber q).
Definition SetArrayField (FieldName : string) (a : list FJsonValue)
  : FJsonObject -> FJsonObject :=
  SetField FieldName (FJsonValueArray a).
Definition SetObjectField (FieldName : string) (o : FJsonObject)
  : FJsonObject -> FJsonObject :=
  SetField FieldName (FJsonValueObject o).

(** Reading a field back, as [FJsonObject::TryGetField] does; the export
    functions do not call it, the properties are stated with it. *)
Fixpoint TryGetField (FieldName : string) (o : FJsonObject) : option FJsonValue :=
  match o with
  | [] => None
  | (k, w) :: o' => if String.eqb k FieldName then Some w else TryGetField FieldName o'
  end.

End Json.

(** [UEnum::GetValueAsString]: the name the engine's reflection gives an
    enumerator. *)
Class UEnum (E : Type) : Type := GetValueAsString : E -> string.

Module WeaponExport.
Import Weapon Json.

Section Document.
Context `{UEnum EWeaponType} `{UEnum EWeaponRarity} `{UEnum EElementalType}.

Definition ExportWeaponToJSON (Weapon : FWeapon) : FJsonObject :=
  let WeaponObject := [] in
  let WeaponObject := SetStringField "id" (WeaponId Weapon) WeaponObject in
  let WeaponObject := SetStringField "name" (WeaponName Weapon) WeaponObject in
  let WeaponObject :=
    SetStringField "type" (GetValueAsString (Type_ Weapon)) WeaponObject in
  let WeaponObject :=
    SetStringField "rarity" (GetValueAsString (Rarity Weapon)) WeaponObject in
  let WeaponObject :=
    SetStringField "element" (GetValueAsString (Element Weapon)) WeaponObject in
  let StatsObject := [] in
  let StatsObject := SetNumberField "damage" (Damage (Stats Weapon)) StatsObject in
  let StatsObject :=
    SetNumberField "critical_chance" (CriticalChance (Stats Weapon)) StatsObject in
  let StatsObject :=
    SetNumberField "attack_speed" (AttackSpeed (Stats Weapon)) StatsObject in
  let StatsObject := SetNumberField "range" (Range (Stats Weapon)) StatsObject in
  let WeaponObject := SetObjectField "stats" StatsObject WeaponObject in
  let WeaponObject :=
    SetNumberField "required_level" (to_float (RequiredLevel Weapon)) WeaponObject in
  let WeaponObject := SetNumberField "weight" (Weight Weapon) WeaponObject in
  let WeaponObject :=
    SetNumberField "value" (to_float (GoldValue Weapon)) WeaponObject in
  let EnchantmentsArray := map FJsonValueString (Enchantments Weapon) in
  SetArrayField "enchantments" EnchantmentsArray WeaponObject.

End Document.

(** The object [ExportWeaponSetToJSON] adds to [WeaponsArray] for a weapon. *)
Definition WeaponSetEntry (Weapon : FWeapon) : FJsonValue :=
  let WeaponObject := [] in
  let WeaponObject := SetStringField "id" (WeaponId Weapon) WeaponObject in
  let WeaponObject := SetStringField "name" (WeaponName Weapon) WeaponObject in
  let WeaponObject := SetNumberField "damage" (Damage (Stats Weapon)) WeaponObject in
  let WeaponObject :=
    SetNumberField "value" (to_float (GoldValue Weapon)) WeaponObject in
  FJsonValueObject WeaponObject.

Definition ExportWeaponSetToJSON (Weapons : list FWeapon) : FJsonObject :=
  let RootObject := [] in
  let WeaponsArray := map WeaponSetEntry Weapons in
  let RootObject := SetArrayField "weapons" WeaponsArray RootObject in
  SetNumberField "total_weapons" (to_float (Z.of_nat (List.length Weapons))) RootObject.

End WeaponExport.

Module CityExport.
Import City Json.

(** The object [ExportCityToBlender] adds to [BuildingsArray] for a building. *)
Definition BuildingEntry (Building : FBuilding) : FJsonValue :=
  let BuildingObj := [] in
  let BuildingObj := SetStringField "id" (BuildingId Building) BuildingObj in
  let BuildingObj := SetNumberField "floors" (to_float (Floors Building)) BuildingObj in
  let BuildingObj := SetStringField "material" (Material Building) BuildingObj in
  let BuildingObj :=
    SetNumberField "population" (to_float (Building_Population Building)) BuildingObj in
  FJsonValueObject BuildingObj.

(** The object it adds to [DistrictsArray] for a district. *)
Definition DistrictEntry (District : FDistrict) : FJsonValue :=
  let DistrictObj := [] in
  let DistrictObj := SetStringField "name" (DistrictName District) DistrictObj in
  let DistrictObj := SetStringField "type" (DistrictType District) DistrictObj in
  let DistrictObj :=
    SetNumberField "population" (to_float (District_Population District)) DistrictObj in
  let BuildingsArray := map BuildingEntry (Buildings District) in
  let DistrictObj := SetArrayField "buildings" BuildingsArray DistrictObj in
  FJsonValueObject DistrictObj.

Definition ExportCityToBlender (G : AProceduralCityGenerator) : FJsonObject :=
  let RootObject := [] in
  let RootObject := SetStringField "city_name" (CityName G) RootObject in
  let RootObject :=
    SetNumberField "population" (to_float (CityPopulation G)) RootObject in
  let RootObject := SetNumberField "radius" (CityRadius G) RootObject in
  let DistrictsArray := map DistrictEntry (Districts G) in
  SetArrayField "districts" DistrictsArray RootObject.

End CityExport.

Module TerrainExport.
Import Terrain Json.

Section Document.
Context `{UEnum EBiomeType}.

(** The object [ExportToBlender] adds to [TerrainArray] for a cell. *)
Definition CellEntry (Cell : FTerrainCell) : FJsonValue :=
  let CellObject := [] in
  let CellObject := SetNumberField "height" (Height Cell) CellObject in
  let CellObject := SetNumberField "moisture" (Moisture Cell) CellObject in
  let CellObject := SetNumberField "temperature" (Temperature Cell) CellObject in
  let CellObject :=
    SetStringField "biome" (GetValueAsString (BiomeType Cell)) CellObject in
  let ObjectsArray := map FJsonValueString (Objects Cell) in
  let CellObject := SetArrayField "objects" ObjectsArray CellObject in
  FJsonValueObject CellObject.

Definition ExportToBlender (G : AProceduralTerrainGenerator) : FJsonObject :=
  let RootObject := [] in
  let TerrainArray := map CellEntry (TerrainGrid G) in
  let RootObject := SetArrayField "terrain" TerrainArray RootObject in
  let RootObject := SetNumberField "width" (to_float (TerrainWidth G)) RootObject in
  SetNumberField "height" (to_float (TerrainHeight G)) RootObject.

End Document.

End TerrainExport.

(* ------------------------------------------------------------------ *)
(** ** Vocabulary of the properties

    Predicates and functions the properties of the second part are stated
    with.  They are read off the generators and are no part of them. *)

Module TerrainTerms.
Import Terrain.

(** What holds of every cell [GenerateTerrain] builds. *)
Definition GeneratedCell (c : FTerrainCell) : Prop :=
  (0 <= Height c /\ Height c <= 1)
  /\ (0 <= Moisture c /\ Moisture c <= 1)
  /\ Temperature c = 0.5 + Height c * 0.5
  /\ BiomeType c = DetermineBiome (Height c) (Moisture c) (Temperature c)
  /\ BiomeType c <> Ocean /\ BiomeType c <> Tundra
  /\ bWalkable c = true
  /\ Objects c = [].

(** The tags one pass of [GenerateVegetation] appends to a cell, by the
    outcome of its three rolls. *)
Definition VegetationTags (tree rock bush : bool) : list string :=
  ((if tree then ["tree"%string] else []) ++ (if rock then ["rock"%string] else [])
   ++ (if bush then ["bush"%string] else []))%list.

(** A cell with [added] appended to its objects and nothing else changed. *)
Definition WithObjects (added : list string) (c : FTerrainCell) : FTerrainCell :=
  MkCell (Height c) (Moisture c) (Temperature c) (BiomeType c)
    (Objects c ++ added) (bWalkable c).

(** What the three map passes make of a cell [c]. *)
Definition AfterPasses (c c' : FTerrainCell) : Prop :=
  (-1 <= Height c' /\ Height c' <= 1)
  /\ Moisture c' = 1 - Height c' * 0.5
  /\ (0.5 <= Moisture c' /\ Moisture c' <= 1.5)
  /\ (0 <= Temperature c' /\ Temperature c' <= 1)
  /\ BiomeType c' = BiomeType c /\ Objects c' = Objects c
  /\ bWalkable c' = bWalkable c.

End TerrainTerms.

Module CityTerms.
Import City.

(** The size, floor and material profile [GenerateBuilding] uses for a
    building type: the bounds of width and depth, of the third extent, and of
    the floors, and the material. *)
Definition Profile (Ty : EBuildingType) : (Q * Q) * (Q * Q) * (Z * Z) * string :=
  match Ty with
  | Residential => ((20, 50), (30, 100), (1, 5)%Z, "Brick"%string)
  | Commercial => ((50, 100), (50, 150), (3, 10)%Z, "Glass"%string)
  | Industrial => ((100, 200), (30, 80), (1, 1)%Z, "Concrete"%string)
  | Government => ((80, 120), (80, 200), (5, 8)%Z, "Marble"%string)
  | _ => ((30, 60), (40, 120), (2, 6)%Z, "Mixed"%string)
  end.

(** What [GenerateDistricts] gives district [i], its type apart. *)
Definition LaidOut `{Trig} (G : AProceduralCityGenerator) (i : Z) (D : FDistrict) : Prop :=
  let Angle :=
    DegreesToRadians (to_float i * (360 / to_float (NumberOfDistricts G))) in
  DistrictName D = Printf_d "District_" i
  /\ Center D
     = FVector_add (ActorLocation G)
         (MkVector (Cos Angle * (CityRadius G * 0.6)) (Sin Angle * (CityRadius G * 0.6)) 0)
  /\ Radius D = CityRadius G / (to_float (NumberOfDistricts G) * 0.5)
  /\ District_Population D = Z.quot (CityPopulation G) (NumberOfDistricts G)
  /\ In (DistrictType D) ["residential"; "commercial"; "industrial"; "mixed"]%string.

(** The three draws every call of [GenerateBuilding] for district
    [DistrictIndex] starts with: the number in the identifier, the fraction
    behind the rotation, the population.  The stream is rebuilt from
    [RandomSeed + DistrictIndex * 100] on every call. *)
Definition BuildingDraws `{Random} (G : AProceduralCityGenerator) (DistrictIndex : Z)
  : Z * Q * Z :=
  let s0 := FRandomStream (wrap32 (RandomSeed G + wrap32 (DistrictIndex * 100))) in
  let (id, s1) := Stream_RandRange 10000 99999 s0 in
  let (r, s2) := Stream_FRand s1 in
  let (p, _) := Stream_RandRange 10 500 s2 in
  (id, r, p).

(** The building type [PopulateDistricts] may give a building of district
    [D]: the type of the district when it is one of the three named ones. *)
Definition TypeAllowed (D : FDistrict) (Ty : EBuildingType) : Prop :=
  (DistrictType D = "residential"%string -> Ty = Residential)
  /\ (DistrictType D = "commercial"%string -> Ty = Commercial)
  /\ (DistrictType D = "industrial"%string -> Ty = Industrial).

(** What one call of [PopulateDistricts] makes of district [D] of index [i]:
    [D'] is [D] with [added] appended to its buildings. *)
Definition Populated `{Random} `{Trig} (G : AProceduralCityGenerator) (i : Z)
  (D D' : FDistrict) (added : list FBuilding) : Prop :=
  D' = set_Buildings (Buildings D ++ added) D
  /\ (List.length added <= Z.to_nat (BuildingsPerDistrict G))%nat
  /\ Forall
       (fun b =>
          exists Ty : EBuildingType,
            TypeAllowed D Ty
            /\ b = GenerateBuilding G Ty (GenerateRandomLocationInDistrict G D) i)
       added.

End CityTerms.

Module WeaponTerms.
Import Weapon.

(** The base damage [CalculateWeaponStats] gives each weapon type. *)
Definition BaseDamage (t : EWeaponType) : Q :=
  match t with
  | Sword => 25 | Bow => 20 | Staff => 15 | Hammer => 35 | Spear => 22
  | Dagger => 15 | Rifle => 30 | Pistol => 18 | Wand => 12 | Axe => 32
  end.

(** The weapon [GenerateWeapon] has built when it enters the enchantment
    loop, from the three draws [id], [r] and [el]. *)
Definition BeforeEnchantments `{Random} (G : AProceduralWeaponGenerator)
  (Ty : EWeaponType) (Level : Z) (id : Z) (r : Q) (el : Z) : FWeapon :=
  let W := set_WeaponId (Printf_d "WPN_" id) FWeapon_default in
  let W := set_Type Ty W in
  let W := set_Rarity (RarityOfDraw G r) W in
  let W := set_RequiredLevel Level W in
  let W := set_Element (EElementalType_of_int el) W in
  let W := set_WeaponName (GenerateWeaponName Ty (Rarity W) (Element W)) W in
  CalculateWeaponStats G W Level.

End WeaponTerms.

(* ------------------------------------------------------------------ *)
(** ** Generator objects used as concrete inputs *)

Module Inputs.

(** The weapon generator with its default properties, after [BeginPlay]. *)
Definition WeaponGen : Weapon.AProceduralWeaponGenerator :=
  Weapon.BeginPlay Weapon.Generator_default.

(** The same with [RareChance] raised to 0.5: the three chances sum to 0.56,
    above the fixed Uncommon threshold 0.4. *)
Definition WeaponGenBadBands : Weapon.AProceduralWeaponGenerator :=
  Weapon.BeginPlay (Weapon.MkGenerator 999 3 0.01 0.05 0.5 [] []).

(** A weapon that already carries three enchantments. *)
Definition FullWeapon : Weapon.FWeapon :=
  Weapon.set_Enchantments ["Burning"; "Wise"; "Swift"]%string Weapon.FWeapon_default.

(** The default city with one district, two placement attempts in it and a
    density of 1. *)
Definition CityTwoInOne : City.AProceduralCityGenerator :=
  City.MkGenerator "ProceduralCity" 100000 5000 1 2 1 42 (MkVector 0 0 0) [] [].

(** The default city with a negative radius and three districts. *)
Definition CityNegativeRadius : City.AProceduralCityGenerator :=
  City.MkGenerator "ProceduralCity" 100000 (-5000) 3 50 0.6 42 (MkVector 0 0 0) [] [].

(** The default terrain on a 2 x 2 grid. *)
Definition Terrain2x2 : Terrain.AProceduralTerrainGenerator :=
  Terrain.MkGenerator 2 2 100 50 4 0.5 0.01 12345 0.3 0.2 0.25 [].

(** The default city with a negative density. *)
Definition CityNegativeDensity : City.AProceduralCityGenerator :=
  City.MkGenerator "ProceduralCity" 100000 5000 8 50 (-0.5) 42 (MkVector 0 0 0) [] [].

(** The default terrain, one cell wide and high, holding a walkable Jungle
    cell. *)
Definition TerrainJungleCell : Terrain.AProceduralTerrainGenerator :=
  Terrain.MkGenerator 1 1 100 50 4 0.5 0.01 12345 0.3 0.2 0.25
    [Terrain.MkCell 0.5 0.7 0.9 Terrain.Jungle [] true].

(** The same with the three densities at 1: every roll places its object. *)
Definition TerrainDenseJungleCell : Terrain.AProceduralTerrainGenerator :=
  Terrain.MkGenerator 1 1 100 50 4 0.5 0.01 12345 1 1 1
    [Terrain.MkCell 0.5 0.7 0.9 Terrain.Jungle [] true].

End Inputs.

(* ------------------------------------------------------------------ *)
(** * Comparisons on [float] *)

Lemma Qltb_lt (a b : Q) : Qltb a b = true <-> a < b.
Proof.
  unfold Qltb. rewrite negb_true_iff, <- not_true_iff_false, Qle_bool_iff.
  split; [apply Qnot_le_lt | apply Qlt_not_le].
Qed.

Lemma Qltb_ge (a b : Q) : Qltb a b = false <-> b <= a.
Proof.
  unfold Qltb. rewrite negb_false_iff. apply Qle_bool_iff.
Qed.

Lemma FMax_spec (a b : Q) :
  (b <= a /\ FMax a b = a) \/ (a < b /\ FMax a b = b).
Proof.
  unfold FMax. destruct (Qle_bool b a) eqn:E.
  - left. split; [apply Qle_bool_iff; exact E | reflexivity].
  - right. split; [|reflexivity].
    apply Qltb_lt. unfold Qltb. rewrite E. reflexivity.
Qed.

(* ------------------------------------------------------------------ *)
(** * The reference implementation meets the interface *)

Module ReferenceEngine.
Import Reference.

Lemma MutateSeed_range (s : Z) : (0 <= MutateSeed s < 2 ^ 32)%Z.
Proof. unfold MutateSeed. apply Z.mod_pos_bound. reflexivity. Qed.

Lemma GetFraction_range (s : Z) :
  0 <= fst (GetFraction s) /\ fst (GetFraction s) < 1.
Proof.
  unfold GetFraction; cbn [fst].
  pose proof (MutateSeed_range s) as Hs.
  assert (0 <= MutateSeed s / 2 ^ 9 < 2 ^ 23)%Z as Hq.
  { split.
    - apply Z.div_pos; lia.
    - apply Z.div_lt_upper_bound; lia. }
  unfold Qle, Qlt; cbn [Qnum Qden]. lia.
Qed.

Lemma TapeRand_range (g : list Z) : (0 <= fst (TapeRand g) < 2 ^ 15)%Z.
Proof.
  destruct g as [|r g]; cbn [TapeRand fst].
  - lia.
  - apply Z.mod_pos_bound. reflexivity.
Qed.

Lemma TapeFRand_range (g : list Z) :
  0 <= fst (TapeFRand g) /\ fst (TapeFRand g) < 1.
Proof.
  unfold TapeFRand, bind, ret.
  pose proof (TapeRand_range g) as Hr.
  destruct (TapeRand g) as [r g']; cbn [fst] in *.
  unfold Qle, Qlt; cbn [Qnum Qden]. lia.
Qed.

(** Scaling a fraction of [0, 1) by a positive [A] and truncating stays
    below [A]. *)
Lemma trunc_scaled_range (f : Q) (A : Z) :
  0 <= f -> f < 1 -> (0 < A)%Z ->
  (0 <= trunc_int32 (f * to_float A) < A)%Z.
Proof.
  destruct f as [n d]. unfold Qle, Qlt, trunc_int32, to_float, inject_Z.
  cbn [Qnum Qden Qmult]. intros H0 H1 HA.
  rewrite !Z.mul_1_r in *. rewrite Z.mul_1_l in H1. rewrite Pos.mul_1_r.
  rewrite Z.quot_div_nonneg by nia.
  split.
  - apply Z.div_pos; nia.
  - apply Z.div_lt_upper_bound; nia.
Qed.

Lemma RandRange_range (lo hi s : Z) :
  (lo <= hi)%Z -> (lo <= fst (RandRange lo hi s) <= hi)%Z.
Proof.
  intros Hle. unfold RandRange, RandHelper, bind, ret.
  destruct (Z.ltb_spec 0 (hi - lo + 1)) as [HA|HA]; [|lia].
  pose proof (GetFraction_range s) as [H0 H1].
  destruct (GetFraction s) as [f s']; cbn [fst] in *.
  pose proof (trunc_scaled_range H0 H1 HA). lia.
Qed.

Lemma FRandRange_range (lo hi : Q) (s : Z) :
  lo <= hi -> lo <= fst (FRandRange lo hi s) /\ fst (FRandRange lo hi s) <= hi.
Proof.
  intros Hle. unfold FRandRange, bind, ret.
  pose proof (GetFraction_range s) as [H0 H1].
  destruct (GetFraction s) as [f s']; cbn [fst] in *.
  split; nra.
Qed.

Lemma TapeRandRange_range (lo hi : Z) (g : list Z) :
  (lo <= hi)%Z -> (lo <= fst (TapeRandRange lo hi g) <= hi)%Z.
Proof.
  intros Hle. unfold TapeRandRange, bind, ret.
  destruct (Z.ltb_spec 0 (hi - lo + 1)) as [HA|HA]; [|lia].
  pose proof (TapeFRand_range g) as [H0 H1].
  destruct (TapeFRand g) as [f g']; cbn [fst] in *.
  pose proof (trunc_scaled_range H0 H1 HA). lia.
Qed.

#[export] Instance engine : Random := {|
  Stream := Z;
  FRandomStream := fun seed => (seed mod 2 ^ 32)%Z;
  Stream_FRand := GetFraction;
  Stream_RandRange := RandRange;
  Stream_FRandRange := FRandRange;
  GlobalRand := list Z;
  FMath_Rand := TapeRand;
  FMath_FRand := TapeFRand;
  FMath_RandRange := TapeRandRange;
  Stream_FRand_range := GetFraction_range;
  Stream_RandRange_range := RandRange_range;
  Stream_FRandRange_range := FRandRange_range;
  FMath_Rand_range := fun g => proj1 (TapeRand_range g);
  FMath_FRand_range := TapeFRand_range;
  FMath_RandRange_range := TapeRandRange_range
|}.

End ReferenceEngine.

(* ------------------------------------------------------------------ *)
(** * Properties of the weapon generator *)

Module WeaponFacts.
Import Weapon.

Ltac case_Qltb a b :=
  let E := fresh "E" in
  destruct (Qltb a b) eqn:E; [apply Qltb_lt in E | apply Qltb_ge in E].

Section Facts.
Context `{Random}.
Variable G : AProceduralWeaponGenerator.

Lemma AddEnchantment_frame (W : FWeapon) (e : EElementalType) (g : GlobalRand) :
  Rarity (fst (AddEnchantment G W e g)) = Rarity W
  /\ Type_ (fst (AddEnchantment G W e g)) = Type_ W
  /\ RequiredLevel (fst (AddEnchantment G W e g)) = RequiredLevel W.
Proof.
  unfold AddEnchantment, bind, ret.
  destruct (_ <=? _)%Z; [repeat split|].
  destruct (FMath_RandRange _ _ g) as [i g'].
  destruct (_ && _); repeat split.
Qed.

(** With a non-empty library and room left, [AddEnchantment] appends exactly
    one entry. *)
Lemma AddEnchantment_appends (W : FWeapon) (e : EElementalType) (g : GlobalRand) :
  EnchantmentLibrary G <> [] ->
  (Z.of_nat (List.length (Enchantments W)) < MaxEnchantments G)%Z ->
  List.length (Enchantments (fst (AddEnchantment G W e g)))
  = S (List.length (Enchantments W)).
Proof.
  intros Hlib Hroom. unfold AddEnchantment, bind, ret.
  destruct (Z.leb_spec (MaxEnchantments G) (Z.of_nat (List.length (Enchantments W))));
    [lia|].
  assert (0 <= Z.of_nat (List.length (EnchantmentLibrary G)) - 1)%Z as Hn.
  { destruct (EnchantmentLibrary G); [congruence | cbn [List.length]; lia]. }
  pose proof (FMath_RandRange_range g Hn) as Hr.
  destruct (FMath_RandRange _ _ g) as [i g']; cbn [fst] in *.
  destruct (Z.leb_spec 0 i); [|lia].
  destruct (Z.ltb_spec i (Z.of_nat (List.length (EnchantmentLibrary G)))); [|lia].
  cbn. rewrite length_app. cbn. lia.
Qed.

Lemma EnchantLoop_frame (n : nat) :
  forall (i Num : Z) (W : FWeapon) (g : GlobalRand),
    Rarity (fst (EnchantLoop G n i Num W g)) = Rarity W
    /\ Type_ (fst (EnchantLoop G n i Num W g)) = Type_ W
    /\ RequiredLevel (fst (EnchantLoop G n i Num W g)) = RequiredLevel W.
Proof.
  induction n as [|n IH]; intros i Num W g; cbn [EnchantLoop].
  - repeat split.
  - destruct (_ && _); [|repeat split].
    unfold bind. pose proof (AddEnchantment_frame W (Element W) g) as (HR & HT & HL).
    destruct (AddEnchantment G W (Element W) g) as [W' g']; cbn [fst] in *.
    destruct (IH (i + 1)%Z Num W' g') as (HR' & HT' & HL').
    repeat split; congruence.
Qed.

(** The loop of [GenerateWeapon] entered at index [i] with [i] enchantments
    in place leaves [max i (min Num MaxEnchantments)] of them. *)
Lemma EnchantLoop_length (n : nat) :
  forall (i Num : Z) (W : FWeapon) (g : GlobalRand),
    EnchantmentLibrary G <> [] ->
    Z.of_nat (List.length (Enchantments W)) = i ->
    (i <= Num)%Z -> Z.of_nat n = (Num - i)%Z ->
    Z.of_nat (List.length (Enchantments (fst (EnchantLoop G n i Num W g))))
    = Z.max i (Z.min Num (MaxEnchantments G)).
Proof.
  induction n as [|n IH]; intros i Num W g Hlib Hlen Hle Hn; cbn [EnchantLoop].
  - cbn [ret fst]. lia.
  - destruct (Z.ltb_spec i Num); [|lia].
    destruct (Z.ltb_spec i (MaxEnchantments G)); cbn [andb].
    + unfold bind.
      pose proof (@AddEnchantment_appends W (Element W) g Hlib) as Happ.
      destruct (AddEnchantment G W (Element W) g) as [W' g']; cbn [fst] in Happ.
      rewrite IH; try assumption; try lia.
    + cbn [ret fst]. lia.
Qed.

Lemma CalculateWeaponStats_frame (W : FWeapon) (Level : Z) :
  Rarity (CalculateWeaponStats G W Level) = Rarity W
  /\ Enchantments (CalculateWeaponStats G W Level) = Enchantments W
  /\ Type_ (CalculateWeaponStats G W Level) = Type_ W
  /\ RequiredLevel (CalculateWeaponStats G W Level) = RequiredLevel W.
Proof.
  destruct W as [i n t r e s l en w d v u]. unfold CalculateWeaponStats.
  cbn [Type_]. destruct t; repeat split; reflexivity.
Qed.

(** C10. Frame property of [AddEnchantment]: on a weapon whose enchantment
    list already holds at least [MaxEnchantments] entries the call returns the
    weapon as it was, every field included, appends nothing, and draws nothing
    from the process-wide generator. *)
Theorem AddEnchantment_at_capacity (W : FWeapon) (e : EElementalType) (g : GlobalRand) :
  (MaxEnchantments G <= Z.of_nat (List.length (Enchantments W)))%Z ->
  AddEnchantment G W e g = (W, g).
Proof.
  intros Hfull. unfold AddEnchantment.
  destruct (Z.leb_spec (MaxEnchantments G) (Z.of_nat (List.length (Enchantments W))));
    [reflexivity | lia].
Qed.

(** The checks of [DetermineRarity] in their order, for any chances: a tier is
    returned when its own test holds and every earlier test failed. *)
Lemma RarityOfDraw_in_order (r : Q) :
  (r < LegendaryChance G -> RarityOfDraw G r = Legendary)
  /\ (~ r < LegendaryChance G -> r < LegendaryChance G + EpicChance G ->
      RarityOfDraw G r = Epic)
  /\ (~ r < LegendaryChance G -> ~ r < LegendaryChance G + EpicChance G ->
      r < LegendaryChance G + EpicChance G + RareChance G ->
      RarityOfDraw G r = Rare)
  /\ (~ r < LegendaryChance G -> ~ r < LegendaryChance G + EpicChance G ->
      ~ r < LegendaryChance G + EpicChance G + RareChance G -> r < 0.4 ->
      RarityOfDraw G r = Uncommon)
  /\ (~ r < LegendaryChance G -> ~ r < LegendaryChance G + EpicChance G ->
      ~ r < LegendaryChance G + EpicChance G + RareChance G -> ~ r < 0.4 ->
      RarityOfDraw G r = Common).
Proof.
  unfold RarityOfDraw.
  case_Qltb r (LegendaryChance G);
    [|case_Qltb r (LegendaryChance G + EpicChance G);
      [|case_Qltb r (LegendaryChance G + EpicChance G + RareChance G);
        [|case_Qltb r 0.4]]];
    repeat split; intros; try reflexivity; exfalso; lra.
Qed.

(** C6. [DetermineRarity] draws [r] in [0, 1) and checks the thresholds in
    the order Legendary ([r < pL]), Epic ([r < pL + pE]), Rare
    ([r < pL + pE + pR]), Uncommon ([r < 0.4]), else Common, each tier being
    returned when its test holds and every earlier one failed; hence, the
    chances being non-negative, the result is Legendary exactly for
    [r < pL], Epic for [pL <= r < pL + pE], Rare for
    [pL + pE <= r < pL + pE + pR], Uncommon for [pL + pE + pR <= r < 0.4],
    and Common for the remaining draws. *)
Theorem DetermineRarity_bands (g : GlobalRand) :
  0 <= LegendaryChance G -> 0 <= EpicChance G -> 0 <= RareChance G ->
  let r := fst (FMath_FRand g) in
  let rarity := fst (DetermineRarity G g) in
  let pL := LegendaryChance G in
  let pE := EpicChance G in
  let pR := RareChance G in
  (0 <= r /\ r < 1)
  /\ ((r < pL -> rarity = Legendary)
      /\ (~ r < pL -> r < pL + pE -> rarity = Epic)
      /\ (~ r < pL -> ~ r < pL + pE -> r < pL + pE + pR -> rarity = Rare)
      /\ (~ r < pL -> ~ r < pL + pE -> ~ r < pL + pE + pR -> r < 0.4 ->
          rarity = Uncommon)
      /\ (~ r < pL -> ~ r < pL + pE -> ~ r < pL + pE + pR -> ~ r < 0.4 ->
          rarity = Common))
  /\ (rarity = Legendary <-> r < pL)
  /\ (rarity = Epic <-> pL <= r /\ r < pL + pE)
  /\ (rarity = Rare <-> pL + pE <= r /\ r < pL + pE + pR)
  /\ (rarity = Uncommon <-> pL + pE + pR <= r /\ r < 0.4)
  /\ (rarity = Common <-> pL + pE + pR <= r /\ 0.4 <= r).
Proof.
  intros HL HE HR. cbv zeta.
  split; [apply FMath_FRand_range|].
  unfold DetermineRarity, bind, ret.
  destruct (FMath_FRand g) as [r g']; cbn [fst].
  split; [apply RarityOfDraw_in_order|].
  unfold RarityOfDraw.
  case_Qltb r (LegendaryChance G);
    [|case_Qltb r (LegendaryChance G + EpicChance G);
      [|case_Qltb r (LegendaryChance G + EpicChance G + RareChance G);
        [|case_Qltb r 0.4]]];
    repeat split; intros; try discriminate; try reflexivity; try lra.
Qed.

(** What [GenerateWeapon] fixes from its arguments, whatever is drawn. *)
Lemma GenerateWeapon_type_level (Ty : EWeaponType) (Level : Z) (g : GlobalRand) :
  Type_ (fst (GenerateWeapon G Ty Level g)) = Ty
  /\ RequiredLevel (fst (GenerateWeapon G Ty Level g)) = Level.
Proof.
  unfold GenerateWeapon, DetermineRarity, bind, ret.
  destruct (FMath_Rand g) as [id g1].
  destruct (FMath_FRand g1) as [r g2].
  destruct (FMath_RandRange 0 7 g2) as [el g3].
  match goal with
  | |- context [EnchantLoop G ?n ?i ?m (CalculateWeaponStats G ?W0 ?L) g3] =>
      pose proof (CalculateWeaponStats_frame W0 L) as (_ & _ & HT' & HL');
      pose proof (EnchantLoop_frame n i m (CalculateWeaponStats G W0 L) g3)
        as (_ & HT & HL);
      destruct (EnchantLoop G n i m (CalculateWeaponStats G W0 L) g3) as [W' g4]
  end.
  cbn [fst set_GoldValue Type_ RequiredLevel] in *.
  split; [rewrite HT, HT' | rewrite HL, HL']; reflexivity.
Qed.

(** The rarity of the weapon is decided by the second draw from the
    process-wide generator, after the one behind [WeaponId]. *)
Lemma GenerateWeapon_rarity_is_draw (Ty : EWeaponType) (Level : Z) (g : GlobalRand) :
  Rarity (fst (GenerateWeapon G Ty Level g))
  = RarityOfDraw G (fst (FMath_FRand (snd (FMath_Rand g)))).
Proof.
  unfold GenerateWeapon, DetermineRarity, bind, ret.
  destruct (FMath_Rand g) as [id g1]. cbn [snd].
  destruct (FMath_FRand g1) as [r g2]. cbn [fst].
  destruct (FMath_RandRange 0 7 g2) as [el g3].
  match goal with
  | |- context [EnchantLoop G ?n ?i ?m (CalculateWeaponStats G ?W0 ?L) g3] =>
      pose proof (CalculateWeaponStats_frame W0 L) as (HR' & _ & _ & _);
      pose proof (EnchantLoop_frame n i m (CalculateWeaponStats G W0 L) g3)
        as (HR & _ & _);
      destruct (EnchantLoop G n i m (CalculateWeaponStats G W0 L) g3) as [W' g4]
  end.
  cbn [fst set_GoldValue Rarity] in *. rewrite HR, HR'. reflexivity.
Qed.

(** C8. With the enchantment library in place and a non-negative
    [MaxEnchantments], the weapon returned by [GenerateWeapon] carries exactly
    [min (rarity count) MaxEnchantments] enchantments, the rarity count being
    Legendary 4, Epic 3, Rare 2, Uncommon 1, Common 0; hence never more than
    [MaxEnchantments]. *)
Theorem GenerateWeapon_enchantment_count (Ty : EWeaponType) (Level : Z) (g : GlobalRand) :
  EnchantmentLibrary G <> [] ->
  (0 <= MaxEnchantments G)%Z ->
  let W := fst (GenerateWeapon G Ty Level g) in
  let count :=
    match Rarity W with
    | Legendary => 4 | Epic => 3 | Rare => 2 | Uncommon => 1 | Common => 0
    end%Z in
  Z.of_nat (List.length (Enchantments W)) = Z.min count (MaxEnchantments G)
  /\ (Z.of_nat (List.length (Enchantments W)) <= MaxEnchantments G)%Z.
Proof.
  intros Hlib Hmax. cbv zeta.
  unfold GenerateWeapon, DetermineRarity, bind, ret.
  destruct (FMath_Rand g) as [id g1].
  destruct (FMath_FRand g1) as [r g2].
  destruct (FMath_RandRange 0 7 g2) as [el g3].
  match goal with
  | |- context [EnchantLoop G ?n ?i ?m (CalculateWeaponStats G ?W0 ?L) g3] =>
      pose proof (CalculateWeaponStats_frame W0 L) as (HR' & HE' & _ & _);
      pose proof (EnchantLoop_frame n i m (CalculateWeaponStats G W0 L) g3)
        as (HR & _ & _);
      pose proof (@EnchantLoop_length n i m (CalculateWeaponStats G W0 L) g3 Hlib)
        as Hlen;
      destruct (EnchantLoop G n i m (CalculateWeaponStats G W0 L) g3) as [W' g4]
  end.
  cbn [fst set_GoldValue Rarity Enchantments] in *.
  rewrite HR' in *. cbn [set_WeaponName set_Element set_RequiredLevel set_Rarity
                          set_Type set_WeaponId Rarity Enchantments] in *.
  rewrite HE' in Hlen. cbn [FWeapon_default Enchantments List.length] in Hlen.
  rewrite HR.
  assert (0 <= NumEnchantmentsOf (RarityOfDraw G r))%Z as Hnum
    by (destruct (RarityOfDraw G r); cbn; lia).
  specialize (Hlen eq_refl Hnum).
  rewrite Z2Nat.id in Hlen by exact Hnum.
  specialize (Hlen (eq_sym (Z.sub_0_r _))).
  replace (match RarityOfDraw G r with
           | Legendary => 4 | Epic => 3 | Rare => 2 | Uncommon => 1 | Common => 0
           end%Z) with (NumEnchantmentsOf (RarityOfDraw G r))
    by (destruct (RarityOfDraw G r); reflexivity).
  lia.
Qed.

End Facts.

(** C5. [GenerateWeaponName] gives "Legendary Flaming Sword" for a legendary
    fire sword; for a common pure dagger it gives " Dagger", with a leading
    space, and not "Dagger": the separator is appended even when the prefix
    and the adjective are empty. *)
Theorem GenerateWeaponName_examples :
  GenerateWeaponName Sword Legendary Fire = "Legendary Flaming Sword"%string
  /\ GenerateWeaponName Dagger Common Pure = " Dagger"%string
  /\ GenerateWeaponName Dagger Common Pure <> "Dagger"%string.
Proof.
  split; [reflexivity|]. split; [reflexivity|]. discriminate.
Qed.

(** With an empty adjective the name keeps the separator: a leading space
    after an empty prefix, a doubled space after a non-empty one. *)
Lemma GenerateWeaponName_stray_space :
  GenerateWeaponName Axe Uncommon Chaos = " Axe"%string
  /\ GenerateWeaponName Sword Rare Pure = "Rare  Sword"%string.
Proof. split; reflexivity. Qed.

Lemma AddEnchantment_at_capacity_witness :
  (MaxEnchantments Inputs.WeaponGen
   <= Z.of_nat (List.length (Enchantments Inputs.FullWeapon)))%Z
  /\ @AddEnchantment ReferenceEngine.engine Inputs.WeaponGen Inputs.FullWeapon Fire [5; 6]%Z
     = (Inputs.FullWeapon, [5; 6]%Z).
Proof.
  assert (MaxEnchantments Inputs.WeaponGen
          <= Z.of_nat (List.length (Enchantments Inputs.FullWeapon)))%Z as Hfull
    by (cbn; lia).
  split; [exact Hfull|].
  exact (@AddEnchantment_at_capacity ReferenceEngine.engine Inputs.WeaponGen
           Inputs.FullWeapon Fire [5; 6]%Z Hfull).
Defined.

Lemma DetermineRarity_bands_witness :
  (0 <= LegendaryChance Inputs.WeaponGen /\ 0 <= EpicChance Inputs.WeaponGen
   /\ 0 <= RareChance Inputs.WeaponGen)
  /\ (fst (@DetermineRarity ReferenceEngine.engine Inputs.WeaponGen [100]%Z) = Legendary
      <-> fst (@FMath_FRand ReferenceEngine.engine [100]%Z)
          < LegendaryChance Inputs.WeaponGen).
Proof.
  assert (0 <= LegendaryChance Inputs.WeaponGen) as HL by (cbn; lra).
  assert (0 <= EpicChance Inputs.WeaponGen) as HE by (cbn; lra).
  assert (0 <= RareChance Inputs.WeaponGen) as HR by (cbn; lra).
  split; [repeat split; assumption|].
  exact (proj1 (proj2 (proj2 (@DetermineRarity_bands ReferenceEngine.engine
                                Inputs.WeaponGen [100]%Z HL HE HR)))).
Defined.

Lemma GenerateWeapon_enchantment_count_witness :
  EnchantmentLibrary Inputs.WeaponGen <> []
  /\ (0 <= MaxEnchantments Inputs.WeaponGen)%Z
  /\ Z.of_nat
       (List.length
          (Enchantments
             (fst (@GenerateWeapon ReferenceEngine.engine Inputs.WeaponGen Sword 1
                     [17; 100; 3; 5; 6; 7]%Z))))
     = 3%Z.
Proof.
  assert (EnchantmentLibrary Inputs.WeaponGen <> []) as Hlib by (cbn; discriminate).
  assert (0 <= MaxEnchantments Inputs.WeaponGen)%Z as Hmax by (cbn; lia).
  split; [exact Hlib|]. split; [exact Hmax|].
  exact (proj1 (@GenerateWeapon_enchantment_count ReferenceEngine.engine Inputs.WeaponGen
                  Sword 1 [17; 100; 3; 5; 6; 7]%Z Hlib Hmax)).
Defined.

(** C8, as stated, fails before [BeginPlay].  On the generator as
    constructed the enchantment library is still empty: the draws that make
    the weapon Legendary leave it without any enchantment, where
    [min 4 MaxEnchantments] is 3. *)
Lemma GenerateWeapon_before_BeginPlay :
  EnchantmentLibrary Generator_default = []
  /\ MaxEnchantments Generator_default = 3%Z
  /\ Rarity
       (fst (@GenerateWeapon ReferenceEngine.engine Generator_default Sword 1
               [17; 100; 3; 5; 6; 7]%Z))
     = Legendary
  /\ Enchantments
       (fst (@GenerateWeapon ReferenceEngine.engine Generator_default Sword 1
               [17; 100; 3; 5; 6; 7]%Z))
     = []
  /\ Z.of_nat
       (List.length
          (Enchantments
             (fst (@GenerateWeapon ReferenceEngine.engine Generator_default Sword 1
                     [17; 100; 3; 5; 6; 7]%Z))))
     <> Z.min 4 (MaxEnchantments Generator_default).
Proof.
  split; [reflexivity|]. split; [reflexivity|].
  split; [vm_compute; reflexivity|]. split; [vm_compute; reflexivity|].
  vm_compute. discriminate.
Qed.

End WeaponFacts.

(* ------------------------------------------------------------------ *)
(** * Properties of the city generator *)

Module CityFacts.
Import City.

Lemma FMax_ge_l (a b : Q) : a <= FMax a b.
Proof.
  destruct (FMax_spec a b) as [[Hle ->] | [Hlt ->]]; lra.
Qed.

Section Facts.
Context `{Random} `{Trig}.
Variable G : AProceduralCityGenerator.

(** The point depends on the district through its centre and radius only. *)
Lemma GenerateRandomLocationInDistrict_ext (D D' : FDistrict) :
  Center D' = Center D -> Radius D' = Radius D ->
  GenerateRandomLocationInDistrict G D' = GenerateRandomLocationInDistrict G D.
Proof.
  intros HC HR. unfold GenerateRandomLocationInDistrict. rewrite HC, HR. reflexivity.
Qed.

Lemma DrawSize_range (x0 x1 y0 y1 z0 z1 : Q) (s : Stream) :
  x0 <= x1 -> y0 <= y1 ->
  x0 <= X (fst (DrawSize x0 x1 y0 y1 z0 z1 s))
  /\ y0 <= Y (fst (DrawSize x0 x1 y0 y1 z0 z1 s)).
Proof.
  intros Hx Hy. unfold DrawSize, bind, ret.
  pose proof (Stream_FRandRange_range s Hx) as [Hx0 _].
  destruct (Stream_FRandRange x0 x1 s) as [sx s1]; cbn [fst] in Hx0.
  pose proof (Stream_FRandRange_range s1 Hy) as [Hy0 _].
  destruct (Stream_FRandRange y0 y1 s1) as [sy s2]; cbn [fst] in Hy0.
  destruct (Stream_FRandRange z0 z1 s2) as [sz s3].
  cbn. split; assumption.
Qed.

(** A generated building stands where it is told to and is at least 20 units
    wide and deep, whatever its type. *)
Lemma GenerateBuilding_placed (Ty : EBuildingType) (L : FVector) (i : Z) :
  Location (GenerateBuilding G Ty L i) = L
  /\ 20 <= X (Size (GenerateBuilding G Ty L i))
  /\ 20 <= Y (Size (GenerateBuilding G Ty L i)).
Proof.
  unfold GenerateBuilding, bind, ret.
  destruct (Stream_RandRange 10000 99999 _) as [id s1].
  destruct (Stream_FRand s1) as [r s2].
  destruct (Stream_RandRange 10 500 s2) as [p s3].
  destruct Ty;
    match goal with
    | |- context [DrawSize ?x0 ?x1 ?y0 ?y1 ?z0 ?z1 s3] =>
        let Hx := fresh "Hx" in
        let Hy := fresh "Hy" in
        assert (x0 <= x1) as Hx by (unfold Qle; cbn; lia);
        assert (y0 <= y1) as Hy by (unfold Qle; cbn; lia);
        pose proof (@DrawSize_range x0 x1 y0 y1 z0 z1 s3 Hx Hy) as [HX HY];
        destruct (DrawSize x0 x1 y0 y1 z0 z1 s3) as [sz s4]; cbn [fst] in HX, HY
    end;
    try (destruct (Stream_RandRange _ _ s4) as [fl s5]);
    cbn; repeat split; lra.
Qed.

(** One placement attempt keeps the district's centre and radius and either
    leaves its buildings alone or appends one, placed at the district's
    point. *)
Lemma PlaceBuilding_effect (i j : Z) (D : FDistrict) (s : Stream) :
  let D' := fst (PlaceBuilding G i j D s) in
  Center D' = Center D /\ Radius D' = Radius D
  /\ (Buildings D' = Buildings D
      \/ exists b, Buildings D' = Buildings D ++ [b]
                   /\ Location b = GenerateRandomLocationInDistrict G D
                   /\ 20 <= X (Size b) /\ 20 <= Y (Size b)).
Proof.
  cbv zeta. unfold PlaceBuilding, bind, ret.
  destruct (Stream_FRand s) as [r s1].
  destruct (Qgtb r (BuildingDensity G)).
  - cbn. auto.
  - destruct (PickBuildingType D s1) as [Ty s2].
    cbn [fst set_Buildings Center Radius Buildings].
    split; [reflexivity|]. split; [reflexivity|]. right.
    eexists. split; [reflexivity|]. apply GenerateBuilding_placed.
Qed.

(** With a density of at least 1 no attempt is skipped. *)
Lemma PlaceBuilding_dense (i j : Z) (D : FDistrict) (s : Stream) :
  1 <= BuildingDensity G ->
  List.length (Buildings (fst (PlaceBuilding G i j D s)))
  = S (List.length (Buildings D)).
Proof.
  intros Hd. unfold PlaceBuilding, bind, ret.
  pose proof (Stream_FRand_range s) as [_ Hr].
  destruct (Stream_FRand s) as [r s1]; cbn [fst] in Hr.
  assert (Qgtb r (BuildingDensity G) = false) as ->.
  { unfold Qgtb. apply Qltb_ge. lra. }
  destruct (PickBuildingType D s1) as [Ty s2].
  cbn. rewrite length_app. cbn. lia.
Qed.

(** The inner loop of [PopulateDistricts] on one district. *)
Lemma PlaceLoop_effect (i : Z) (n : nat) :
  forall (j : Z) (D : FDistrict) (s : Stream),
    let D' := fst (for_loop n j (PlaceBuilding G i) D s) in
    Center D' = Center D /\ Radius D' = Radius D
    /\ exists added : list FBuilding,
         Buildings D' = Buildings D ++ added
         /\ Forall (fun b => Location b = GenerateRandomLocationInDistrict G D
                             /\ 20 <= X (Size b) /\ 20 <= Y (Size b)) added
         /\ (1 <= BuildingDensity G -> List.length added = n).
Proof.
  induction n as [|n IH]; intros j D s; cbv zeta; cbn [for_loop].
  - cbn. repeat split. exists []. rewrite app_nil_r. repeat split; auto.
  - unfold bind.
    pose proof (PlaceBuilding_effect i j D s) as (HC & HR & HB).
    pose proof (fun Hd => @PlaceBuilding_dense i j D s Hd) as Hlen.
    destruct (PlaceBuilding G i j D s) as [D1 s1]; cbn [fst] in *.
    destruct (IH (j + 1)%Z D1 s1) as (HC' & HR' & added & HB' & Hall & Hn).
    split; [congruence|]. split; [congruence|].
    rewrite (GenerateRandomLocationInDistrict_ext _ _ HC HR) in Hall.
    destruct HB as [HB | (b & HB & Hb)].
    + exists added. rewrite HB', HB. repeat split; auto.
      intros Hd. specialize (Hlen Hd). rewrite HB in Hlen. lia.
    + exists (b :: added). rewrite HB', HB, <- app_assoc. cbn [app].
      repeat split; auto.
      intros Hd. cbn [List.length]. rewrite Hn by exact Hd. reflexivity.
Qed.

(** The outer loop of [PopulateDistricts], district by district. *)
Lemma PopulateFrom_effect (ds : list FDistrict) :
  forall (i : Z) (s : Stream),
    Forall2
      (fun D D' =>
         exists added : list FBuilding,
           Buildings D' = Buildings D ++ added
           /\ Forall (fun b => Location b = GenerateRandomLocationInDistrict G D
                               /\ 20 <= X (Size b) /\ 20 <= Y (Size b)) added
           /\ (1 <= BuildingDensity G ->
               List.length added = Z.to_nat (BuildingsPerDistrict G)))
      ds (fst (PopulateFrom G i ds s)).
Proof.
  induction ds as [|D ds IH]; intros i s; cbn [PopulateFrom].
  - constructor.
  - unfold bind, ret.
    pose proof (PlaceLoop_effect i (Z.to_nat (BuildingsPerDistrict G)) 0 D s)
      as (_ & _ & Hadded).
    destruct (for_loop _ 0%Z (PlaceBuilding G i) D s) as [D' s1]; cbn [fst] in Hadded.
    specialize (IH (i + 1)%Z s1).
    destruct (PopulateFrom G (i + 1) ds s1) as [rest s2]; cbn [fst] in *.
    constructor; assumption.
Qed.

(** C9. Within one call of [PopulateDistricts], with [RandomSeed] fixed,
    [GenerateRandomLocationInDistrict] returns one point per district: the
    point does not change when buildings are appended to the district, since
    every call restarts the stream from [RandomSeed + 3]; and every building
    the call adds to a district stands at that district's point. *)
Theorem PopulateDistricts_one_location :
  (forall (D : FDistrict) (bs : list FBuilding),
     GenerateRandomLocationInDistrict G (set_Buildings bs D)
     = GenerateRandomLocationInDistrict G D)
  /\ Forall2 (fun D D' => AddedAt (GenerateRandomLocationInDistrict G D) D D')
       (Districts G) (Districts (PopulateDistricts G)).
Proof.
  split.
  - intros D bs. apply GenerateRandomLocationInDistrict_ext; reflexivity.
  - unfold PopulateDistricts. cbn [set_Districts Districts].
    eapply Forall2_impl; [|apply PopulateFrom_effect].
    intros D D' (added & HB & Hall & _). exists added. split; [exact HB|].
    eapply Forall_impl; [|exact Hall]. intros b (HL & _). exact HL.
Qed.

Lemma ClearBuildingsAt_length (n : nat) :
  forall ds : list FDistrict, List.length (ClearBuildingsAt n ds) = List.length ds.
Proof.
  induction n as [|n IH]; intros [|D ds]; cbn; auto.
Qed.

Lemma CreateDistrict_length (i : Z) (ds : list FDistrict) :
  List.length (CreateDistrict i ds) = List.length ds.
Proof.
  unfold CreateDistrict. destruct (_ && _); [apply ClearBuildingsAt_length | reflexivity].
Qed.

(** [CreateDistrict(i)] runs before district [i] is added to the array, so
    its index test fails and the array is left as it is. *)
Lemma CreateDistrict_next (ds : list FDistrict) :
  CreateDistrict (Z.of_nat (List.length ds)) ds = ds.
Proof.
  unfold CreateDistrict.
  destruct (Z.ltb_spec (Z.of_nat (List.length ds)) (Z.of_nat (List.length ds))); [lia|].
  rewrite andb_false_r. reflexivity.
Qed.

Lemma GenerateDistrict_length (i : Z) (ds : list FDistrict) (s : Stream) :
  List.length (fst (GenerateDistrict G i ds s)) = S (List.length ds).
Proof.
  unfold GenerateDistrict, bind, ret.
  destruct (Stream_RandRange 0 3 s) as [c s1]. cbn [fst].
  rewrite length_app, CreateDistrict_length. cbn. lia.
Qed.

Lemma GenerateDistrict_loop_length (n : nat) :
  forall (i : Z) (ds : list FDistrict) (s : Stream),
    List.length (fst (for_loop n i (GenerateDistrict G) ds s))
    = (List.length ds + n)%nat.
Proof.
  induction n as [|n IH]; intros i ds s; cbn [for_loop].
  - cbn. lia.
  - unfold bind at 1.
    pose proof (GenerateDistrict_length i ds s) as Hlen.
    destruct (GenerateDistrict G i ds s) as [ds1 s1]; cbn [fst] in Hlen.
    rewrite IH, Hlen. lia.
Qed.

Lemma RoadLoop_length (ds : list FDistrict) (n : nat) :
  forall (i : Z) (roads : list FRoad),
    List.length (RoadLoop G ds n i roads) = (List.length roads + 2 * n)%nat.
Proof.
  induction n as [|n IH]; intros i roads; cbn [RoadLoop].
  - lia.
  - rewrite IH, length_app. cbn. lia.
Qed.

End Facts.

Section Counts.
Context `{Random} `{Trig}.

Lemma GenerateDistricts_length (G : AProceduralCityGenerator) :
  List.length (Districts (GenerateDistricts (ClearCity G)))
  = Z.to_nat (NumberOfDistricts G).
Proof.
  unfold GenerateDistricts. cbn [set_Districts Districts].
  rewrite GenerateDistrict_loop_length. reflexivity.
Qed.

Lemma PopulateDistricts_length (G : AProceduralCityGenerator) :
  List.length (Districts (PopulateDistricts G)) = List.length (Districts G).
Proof.
  symmetry. unfold PopulateDistricts. cbn [set_Districts Districts].
  eapply Forall2_length. apply PopulateFrom_effect.
Qed.

(** For any properties of the generator, [GenerateCity] leaves
    [max 0 NumberOfDistricts] districts and two roads per district. *)
Lemma GenerateCity_counts (G : AProceduralCityGenerator) :
  List.length (Districts (GenerateCity G)) = Z.to_nat (NumberOfDistricts G)
  /\ List.length (RoadNetwork (GenerateCity G))
     = (2 * Z.to_nat (NumberOfDistricts G))%nat.
Proof.
  unfold GenerateCity. split.
  - rewrite PopulateDistricts_length. unfold GenerateRoadNetwork.
    cbn [set_RoadNetwork Districts]. apply GenerateDistricts_length.
  - unfold PopulateDistricts, GenerateRoadNetwork.
    cbn [set_Districts set_RoadNetwork RoadNetwork Districts].
    rewrite RoadLoop_length, GenerateDistricts_length. cbn. lia.
Qed.

(** Two buildings on one point, each at least 20 units wide, are not
    separated. *)
Lemma same_location_overlap (b1 b2 : FBuilding) :
  Location b1 = Location b2 -> 20 <= X (Size b1) -> 20 <= X (Size b2) ->
  ~ Separated b1 b2.
Proof.
  intros HL H1 H2. unfold Separated, HalfFootprint, DistSquared. rewrite HL.
  pose proof (FMax_ge_l (X (Size b1)) (Y (Size b1))) as F1.
  pose proof (FMax_ge_l (X (Size b2)) (Y (Size b2))) as F2.
  set (m1 := FMax (X (Size b1)) (Y (Size b1))) in *.
  set (m2 := FMax (X (Size b2)) (Y (Size b2))) in *.
  cbv zeta. unfold Qdiv. change (/ 2) with (1 # 2). intros Hsep.
  assert (20 <= m1 * (1 # 2) + m2 * (1 # 2)) as Hs by lra.
  nra.
Qed.

(** C2. The city generated from the default properties with one district,
    two placement attempts and density 1 holds two buildings that overlap:
    both attempts are kept, no placement is checked against the buildings
    already placed (nothing calls [IsValidBuildingLocation]) or retried, and
    the two buildings stand on the same point. *)
Theorem GenerateCity_buildings_overlap :
  ~ NoOverlap (AllBuildings (GenerateCity Inputs.CityTwoInOne)).
Proof.
  unfold GenerateCity, AllBuildings.
  set (G := GenerateRoadNetwork (GenerateDistricts (ClearCity Inputs.CityTwoInOne))).
  assert (List.length (Districts G) = 1%nat) as Hlen.
  { unfold G, GenerateRoadNetwork. cbn [set_RoadNetwork Districts].
    rewrite GenerateDistricts_length. reflexivity. }
  assert (1 <= BuildingDensity G) as Hd by (cbn; lra).
  unfold PopulateDistricts. cbn [set_Districts Districts].
  pose proof (PopulateFrom_effect G (Districts G) 0
                (FRandomStream (wrap32 (RandomSeed G + 2)))) as HF.
  remember (fst (PopulateFrom G 0 (Districts G)
                   (FRandomStream (wrap32 (RandomSeed G + 2))))) as pop eqn:Hpop.
  clear Hpop.
  destruct (Districts G) as [|D0 [|D1 ds]]; try discriminate Hlen.
  inversion HF as [|D D0' l l' (added & HB & Hall & Hn) Hrest]; subst.
  inversion Hrest; subst.
  specialize (Hn Hd). change (Z.to_nat (BuildingsPerDistrict G)) with 2%nat in Hn.
  destruct added as [|b1 [|b2 [|b3 added]]]; try discriminate Hn.
  inversion Hall as [|? ? (HL1 & HX1 & _) Hall']; subst.
  inversion Hall' as [|? ? (HL2 & HX2 & _) _]; subst.
  intros Hno. cbn [flat_map] in Hno. rewrite app_nil_r, HB in Hno.
  apply (@same_location_overlap b1 b2); [congruence | assumption | assumption |].
  apply (Hno (List.length (Buildings D0)) (S (List.length (Buildings D0)))).
  - lia.
  - rewrite nth_error_app2 by lia. rewrite Nat.sub_diag. reflexivity.
  - rewrite nth_error_app2 by lia.
    replace (S (List.length (Buildings D0)) - List.length (Buildings D0))%nat
      with 1%nat by lia.
    reflexivity.
Qed.

End Counts.

End CityFacts.

(* ------------------------------------------------------------------ *)
(** * Properties of the terrain generator *)

Module TerrainFacts.
Import Terrain.

Lemma Zseq_length (n : nat) : forall i : Z, List.length (Zseq i n) = n.
Proof. induction n as [|n IH]; intros i; cbn; auto. Qed.

Lemma collect_length {S A : Type} (f : Z -> State S A) (n : nat) :
  forall (i : Z) (s : S), List.length (fst (collect n i f s)) = n.
Proof.
  induction n as [|n IH]; intros i s; cbn [collect].
  - reflexivity.
  - unfold bind, ret. destruct (f i s) as [x s1].
    specialize (IH (i + 1)%Z s1). destruct (collect n (i + 1) f s1) as [xs s2].
    cbn in *. congruence.
Qed.

(** A loop that appends the lists [F i] to its accumulator. *)
Lemma for_loop_app {S A : Type} (body : Z -> list A -> State S (list A))
  (F : Z -> State S (list A)) :
  (forall i acc s, body i acc s = (acc ++ fst (F i s), snd (F i s))) ->
  forall (n : nat) (i : Z) (acc : list A) (s : S),
    for_loop n i body acc s
    = (acc ++ List.concat (fst (collect n i F s)), snd (collect n i F s)).
Proof.
  intros Hbody. induction n as [|n IH]; intros i acc s; cbn [for_loop collect].
  - cbn. rewrite app_nil_r. reflexivity.
  - unfold bind, ret. rewrite Hbody. destruct (F i s) as [xs s1]. cbn [fst snd].
    rewrite IH. destruct (collect n (i + 1) F s1) as [xss s2]. cbn [fst snd List.concat].
    rewrite app_assoc. reflexivity.
Qed.

(** A loop that appends the single results [f i] to its accumulator. *)
Lemma for_loop_snoc {S A : Type} (f : Z -> State S A) (n : nat) :
  forall (i : Z) (acc : list A) (s : S),
    for_loop n i (fun i acc => x <- f i ;; ret (acc ++ [x])) acc s
    = (acc ++ fst (collect n i f s), snd (collect n i f s)).
Proof.
  induction n as [|n IH]; intros i acc s; cbn [for_loop collect].
  - cbn. rewrite app_nil_r. reflexivity.
  - unfold bind, ret. destruct (f i s) as [x s1].
    change (let (a, s') := (acc ++ [x], s1) in
            for_loop n (i + 1) (fun i acc => x <- f i ;; ret (acc ++ [x])) a s')
      with (for_loop n (i + 1) (fun i acc => x <- f i ;; ret (acc ++ [x]))
              (acc ++ [x]) s1).
    rewrite IH. destruct (collect n (i + 1) f s1) as [xs s2]. cbn [fst snd].
    rewrite <- app_assoc. reflexivity.
Qed.

(** A field that [f i] fixes whatever the state is the same along [collect]. *)
Lemma collect_map {S A B : Type} (f : Z -> State S A) (P : A -> B) (p : Z -> B) :
  (forall i s, P (fst (f i s)) = p i) ->
  forall (n : nat) (i : Z) (s : S),
    map P (fst (collect n i f s)) = map p (Zseq i n).
Proof.
  intros Hf. induction n as [|n IH]; intros i s; cbn [collect Zseq].
  - reflexivity.
  - unfold bind, ret. specialize (Hf i s). destruct (f i s) as [x s1].
    specialize (IH (i + 1)%Z s1). destruct (collect n (i + 1) f s1) as [xs s2].
    cbn in *. congruence.
Qed.

(** Entry [x * h + y] of [w] rows of [h] entries laid end to end. *)
Lemma nth_error_rows {B : Type} (cell : Z -> Z -> B) (h : nat) (w : nat) :
  forall (i : Z) (x y : nat),
    (x < w)%nat -> (y < h)%nat ->
    nth_error (flat_map (fun X => map (cell X) (Zseq 0 h)) (Zseq i w)) (x * h + y)
    = Some (cell (i + Z.of_nat x)%Z (Z.of_nat y)).
Proof.
  assert (Hrow : forall (c : Z -> B) (n : nat) (j : Z) (y : nat),
             (y < n)%nat ->
             nth_error (map c (Zseq j n)) y = Some (c (j + Z.of_nat y)%Z)).
  { intros c. induction n as [|n IH]; intros j y Hy; [lia|].
    destruct y as [|y]; cbn [Zseq map nth_error].
    - f_equal. f_equal. lia.
    - rewrite IH by lia. f_equal. f_equal. lia. }
  induction w as [|w IH]; intros i x y Hx Hy; [lia|].
  cbn [Zseq flat_map].
  destruct x as [|x].
  - cbn [Nat.mul Nat.add]. rewrite nth_error_app1
      by (rewrite length_map, Zseq_length; exact Hy).
    rewrite Hrow by exact Hy. f_equal. f_equal; lia.
  - rewrite nth_error_app2 by (rewrite length_map, Zseq_length; lia).
    rewrite length_map, Zseq_length.
    replace (S x * h + y - h)%nat with (x * h + y)%nat by lia.
    rewrite IH by lia. f_equal. f_equal. lia.
Qed.

Section Facts.
Context `{Random}.
Variable G : AProceduralTerrainGenerator.

Lemma Draws_app (a : nat) :
  forall (b : nat) (g : GlobalRand),
    Draws (a + b) g = Draws a g ++ Draws b (AfterDraws a g).
Proof.
  induction a as [|a IH]; intros b g; cbn [Draws AfterDraws Nat.add app].
  - reflexivity.
  - destruct (FMath_FRand g) as [r g']. cbn [snd]. rewrite IH. reflexivity.
Qed.

Lemma AfterDraws_add (a : nat) :
  forall (b : nat) (g : GlobalRand),
    AfterDraws (a + b) g = AfterDraws b (AfterDraws a g).
Proof.
  induction a as [|a IH]; intros b g; cbn [AfterDraws Nat.add]; auto.
Qed.

(** A cell built at [(X, Y)]: its height is the noise at [(X, Y)], its
    moisture the next draw of the process-wide generator. *)
Lemma MakeCell_fields (X Y : Z) (g : GlobalRand) :
  Height (fst (MakeCell G X Y g))
  = GetPerlinNoise G (to_float X) (to_float Y) (RandomSeed G)
  /\ Moisture (fst (MakeCell G X Y g)) = fst (FMath_FRand g)
  /\ snd (MakeCell G X Y g) = snd (FMath_FRand g).
Proof.
  unfold MakeCell, bind, ret. destruct (FMath_FRand g) as [r g']. cbn. auto.
Qed.

(** One column of cells: [n] cells built at [(X, i)], [(X, i + 1)], ... *)
Lemma column_moisture (X : Z) (n : nat) :
  forall (i : Z) (g : GlobalRand),
    map Moisture (fst (collect n i (MakeCell G X) g)) = Draws n g
    /\ snd (collect n i (MakeCell G X) g) = AfterDraws n g.
Proof.
  induction n as [|n IH]; intros i g; cbn [collect Draws AfterDraws].
  - split; reflexivity.
  - unfold bind, ret.
    destruct (MakeCell_fields X i g) as (_ & HM & HS).
    destruct (MakeCell G X i g) as [c g1]. cbn [fst snd] in HM, HS.
    destruct (IH (i + 1)%Z g1) as [IH1 IH2].
    destruct (collect n (i + 1) (MakeCell G X) g1) as [cs g2].
    cbn [fst snd map] in *.
    destruct (FMath_FRand g) as [r g']. cbn [fst snd] in *.
    rewrite HM, IH1, IH2, HS. split; reflexivity.
Qed.

Lemma columns_moisture (h : nat) (w : nat) :
  forall (i : Z) (g : GlobalRand),
    map Moisture
      (List.concat (fst (collect w i (fun X => collect h 0 (MakeCell G X)) g)))
    = Draws (w * h) g
    /\ snd (collect w i (fun X => collect h 0 (MakeCell G X)) g)
       = AfterDraws (w * h) g.
Proof.
  induction w as [|w IH]; intros i g; cbn [collect Nat.mul].
  - split; reflexivity.
  - unfold bind, ret.
    destruct (column_moisture i h 0 g) as [HM HS].
    destruct (collect h 0 (MakeCell G i) g) as [col g1]. cbn [fst snd] in HM, HS.
    destruct (IH (i + 1)%Z g1) as [IH1 IH2].
    destruct (collect w (i + 1) (fun X => collect h 0 (MakeCell G X)) g1)
      as [cols g2].
    cbn [fst snd List.concat] in *.
    rewrite map_app, Draws_app, AfterDraws_add, HM, IH1, IH2, HS. split; reflexivity.
Qed.

Lemma columns_height (h : nat) (w : nat) (i : Z) (g : GlobalRand) :
  map Height
    (List.concat (fst (collect w i (fun X => collect h 0 (MakeCell G X)) g)))
  = flat_map
      (fun X => map (fun Y => GetPerlinNoise G (to_float X) (to_float Y) (RandomSeed G))
                  (Zseq 0 h))
      (Zseq i w).
Proof.
  rewrite concat_map, flat_map_concat_map. f_equal.
  apply (collect_map (fun X => collect h 0 (MakeCell G X)) (map Height)).
  intros X s. apply collect_map. intros Y s'. apply MakeCell_fields.
Qed.

(** [GenerateTerrain] as one expression: the three map passes run on the
    emptied grid and change nothing; the grid is then filled column by
    column. *)
Lemma GenerateTerrain_unfold (g : GlobalRand) :
  let cols :=
    collect (Z.to_nat (TerrainWidth G)) 0
      (fun X => collect (Z.to_nat (TerrainHeight G)) 0 (MakeCell G X)) g in
  GenerateTerrain G g = (set_TerrainGrid (List.concat (fst cols)) G, snd cols).
Proof.
  cbv zeta. destruct G as [W Ht cs ns no np nf seed td rd bd grid].
  unfold GenerateTerrain, GenerateHeightMap, bind.
  cbn [set_TerrainGrid TerrainGrid HeightMapOver GenerateMoistureMap
       GenerateTemperatureMap TemperatureFrom map TerrainWidth TerrainHeight
       CellSize NoiseScale NoiseOctaves NoisePersistence NoiseFrequency RandomSeed
       TreeDensity RockDensity BushDensity ret].
  rewrite (for_loop_app
             (FillColumn (MkGenerator W Ht cs ns no np nf seed td rd bd []))
             (fun X => collect (Z.to_nat Ht) 0
                         (MakeCell (MkGenerator W Ht cs ns no np nf seed td rd bd grid) X))).
  - reflexivity.
  - intros i acc s. unfold FillColumn. cbn [TerrainHeight].
    rewrite for_loop_snoc. reflexivity.
Qed.

Lemma Draws_length (n : nat) : forall g : GlobalRand, List.length (Draws n g) = n.
Proof.
  induction n as [|n IH]; intros g; cbn [Draws].
  - reflexivity.
  - destruct (FMath_FRand g) as [r g']. cbn. rewrite IH. reflexivity.
Qed.

(** The moistures of the generated grid, in grid order, are the successive
    draws of [FMath::FRand]: neither the seed nor the heights enter them. *)
Lemma GenerateTerrain_moisture (g : GlobalRand) :
  map Moisture (TerrainGrid (fst (GenerateTerrain G g)))
  = Draws (Z.to_nat (TerrainWidth G) * Z.to_nat (TerrainHeight G)) g.
Proof.
  rewrite GenerateTerrain_unfold. cbn [fst set_TerrainGrid TerrainGrid].
  apply columns_moisture.
Qed.

(** The generated grid holds [TerrainWidth * TerrainHeight] cells, and the
    cell built for [(x, y)] sits at index [x * TerrainHeight + y]. *)
Lemma GenerateTerrain_layout (g : GlobalRand) :
  let grid := TerrainGrid (fst (GenerateTerrain G g)) in
  List.length grid = (Z.to_nat (TerrainWidth G) * Z.to_nat (TerrainHeight G))%nat
  /\ forall x y : nat,
       (x < Z.to_nat (TerrainWidth G))%nat -> (y < Z.to_nat (TerrainHeight G))%nat ->
       option_map Height (nth_error grid (x * Z.to_nat (TerrainHeight G) + y))
       = Some (GetPerlinNoise G (to_float (Z.of_nat x)) (to_float (Z.of_nat y))
                 (RandomSeed G)).
Proof.
  cbv zeta. split.
  - rewrite <- (length_map Moisture), GenerateTerrain_moisture. apply Draws_length.
  - intros x y Hx Hy. rewrite <- nth_error_map.
    rewrite GenerateTerrain_unfold. cbn [fst set_TerrainGrid TerrainGrid].
    rewrite columns_height.
    rewrite (@nth_error_rows _
               (fun X Y => GetPerlinNoise G (to_float X) (to_float Y) (RandomSeed G))
               (Z.to_nat (TerrainHeight G)) (Z.to_nat (TerrainWidth G)) 0 x y Hx Hy).
    reflexivity.
Qed.

End Facts.

(** C3. On the default terrain with a 2 x 2 grid, [GenerateTerrain] leaves
    4 cells, and the cell at index 1 is the one built for [(x, y) = (0, 1)],
    not for [(1, 0)]: the grid is filled column by column, index
    [x * TerrainHeight + y], while [GenerateVegetation] reads index 1 as
    [(CellX, CellY) = (1, 0)]. *)
Theorem GenerateTerrain_index_of_cell :
  let G := Inputs.Terrain2x2 in
  let grid :=
    TerrainGrid (fst (@GenerateTerrain ReferenceEngine.engine G [100; 200; 300; 400]%Z)) in
  List.length grid = 4%nat
  /\ (exists c : FTerrainCell,
        nth_error grid 1 = Some c
        /\ Height c = @GetPerlinNoise ReferenceEngine.engine G 0 1 (RandomSeed G)
        /\ ~ Height c == @GetPerlinNoise ReferenceEngine.engine G 1 0 (RandomSeed G))
  /\ CellXOfIndex G 1 = 1%Z /\ CellYOfIndex G 1 = 0%Z.
Proof.
  cbv zeta. split; [vm_compute; reflexivity|].
  split; [|split; reflexivity].
  eexists. split; [vm_compute; reflexivity|].
  split; [vm_compute; reflexivity|].
  intros E. vm_compute in E. discriminate E.
Qed.

(** C4. On the default terrain with a 2 x 2 grid, the moisture of a cell is
    the draw of the process-wide generator and not a function of its height:
    from two states of that generator the four heights are the same and the
    moistures differ; and within one grid the cell at index 2 is higher than
    the cell at index 1 and also moister. *)
Theorem GenerateTerrain_moisture_is_a_draw :
  let G := Inputs.Terrain2x2 in
  let grid1 :=
    TerrainGrid (fst (@GenerateTerrain ReferenceEngine.engine G [100; 200; 300; 400]%Z)) in
  let grid2 :=
    TerrainGrid (fst (@GenerateTerrain ReferenceEngine.engine G [400; 300; 200; 100]%Z)) in
  map Height grid1 = map Height grid2
  /\ map Moisture grid1 = [100 # 32768; 200 # 32768; 300 # 32768; 400 # 32768]
  /\ map Moisture grid2 = [400 # 32768; 300 # 32768; 200 # 32768; 100 # 32768]
  /\ (exists a b : FTerrainCell,
        nth_error grid1 1 = Some a /\ nth_error grid1 2 = Some b
        /\ Height a < Height b /\ Moisture a < Moisture b
        /\ ~ Moisture b == MoistureOfHeight (Height b)).
Proof.
  cbv zeta. split; [vm_compute; reflexivity|].
  split; [vm_compute; reflexivity|].
  split; [vm_compute; reflexivity|].
  eexists. eexists. split; [vm_compute; reflexivity|].
  split; [vm_compute; reflexivity|].
  split; [vm_compute; reflexivity|].
  split; [vm_compute; reflexivity|].
  intros E. vm_compute in E. discriminate E.
Qed.

(** The assignment of [GenerateMoistureMap] never lets moisture rise with
    height and never goes below 0; it has no upper clamp. *)
Lemma MoistureOfHeight_antitone (h1 h2 : Q) :
  h1 <= h2 -> MoistureOfHeight h2 <= MoistureOfHeight h1.
Proof.
  intros Hle. unfold MoistureOfHeight.
  destruct (FMax_spec 0 (1 - h1 * 0.5)) as [[H1 ->] | [H1 ->]];
    destruct (FMax_spec 0 (1 - h2 * 0.5)) as [[H2 ->] | [H2 ->]]; lra.
Qed.

Lemma MoistureOfHeight_above_one : MoistureOfHeight (-1) == 1.5.
Proof. vm_compute. reflexivity. Qed.

End TerrainFacts.

(* ------------------------------------------------------------------ *)
(** * The three pipelines together *)

Module GenerationFacts.

Section AnyEngine.
Context `{Random} `{Trig}.

(** Generating the city again on the same object gives the same city: the
    run starts from [ClearCity] and draws from seeded streams only. *)
Lemma GenerateCity_regenerate (G : City.AProceduralCityGenerator) :
  City.GenerateCity (City.GenerateCity G) = City.GenerateCity G.
Proof. reflexivity. Qed.

(** C7, as the code has it.  No property of a generator is validated and no
    error is reported: for every configuration [GenerateCity] lays out
    [max 0 NumberOfDistricts] districts and two roads per district, whatever
    the radius, the population, the density and the buildings per district,
    and [GenerateWeapon] returns a weapon of the requested type and level,
    whatever the three chances. *)
Theorem generation_proceeds_for_any_configuration
  (Gc : City.AProceduralCityGenerator) (Gw : Weapon.AProceduralWeaponGenerator)
  (Ty : Weapon.EWeaponType) (Level : Z) (g : GlobalRand) :
  List.length (City.Districts (City.GenerateCity Gc))
  = Z.to_nat (City.NumberOfDistricts Gc)
  /\ List.length (City.RoadNetwork (City.GenerateCity Gc))
     = (2 * Z.to_nat (City.NumberOfDistricts Gc))%nat
  /\ Weapon.Type_ (fst (Weapon.GenerateWeapon Gw Ty Level g)) = Ty
  /\ Weapon.RequiredLevel (fst (Weapon.GenerateWeapon Gw Ty Level g)) = Level.
Proof.
  destruct (CityFacts.GenerateCity_counts Gc) as [Hd Hr].
  destruct (WeaponFacts.GenerateWeapon_type_level Gw Ty Level g) as [Ht Hl].
  repeat split; assumption.
Qed.

End AnyEngine.

(** C7, as stated, fails.  With chances summing to 0.56, above 0.4,
    [GenerateWeapon] returns a weapon, a rare one on the draw 0.45; with a
    negative radius [GenerateCity] lays out its districts under every
    engine. *)
Lemma invalid_configuration_generates :
  (0.4 < Weapon.LegendaryChance Inputs.WeaponGenBadBands
         + Weapon.EpicChance Inputs.WeaponGenBadBands
         + Weapon.RareChance Inputs.WeaponGenBadBands
   /\ Weapon.WeaponName
        (fst (@Weapon.GenerateWeapon ReferenceEngine.engine Inputs.WeaponGenBadBands
                Weapon.Sword 1 [17; 14746; 3; 5; 6]%Z))
      = "Rare Flaming Sword"%string)
  /\ (City.CityRadius Inputs.CityNegativeRadius < 0
      /\ ~ (exists (R : Random) (T : Trig),
              City.Districts (@City.GenerateCity R T Inputs.CityNegativeRadius) = [])).
Proof.
  split; split.
  - vm_compute. reflexivity.
  - vm_compute. reflexivity.
  - vm_compute. reflexivity.
  - intros (R & T & Hnone).
    pose proof (@CityFacts.GenerateCity_counts R T Inputs.CityNegativeRadius) as [Hd _].
    rewrite Hnone in Hd. discriminate Hd.
Qed.

(** C1. Two runs of one generator object in one process, same seed and same
    properties.  [GenerateWeapon] returns a legendary weapon "WPN_17" and then
    a common weapon "WPN_20"; [GenerateTerrain] leaves the same heights and
    other moistures.  Identifier, rarity, element, enchantments and moisture
    come from the process-wide generator, which [RandomSeed] does not seed. *)
Theorem repeated_runs_differ :
  let two_weapons :=
    (w1 <- @Weapon.GenerateWeapon ReferenceEngine.engine Inputs.WeaponGen Weapon.Sword 1 ;;
     w2 <- @Weapon.GenerateWeapon ReferenceEngine.engine Inputs.WeaponGen Weapon.Sword 1 ;;
     ret (w1, w2)) in
  let ws := fst (two_weapons [17; 100; 3; 5; 6; 7; 20; 30000; 3]%Z) in
  let two_grids :=
    (G1 <- @Terrain.GenerateTerrain ReferenceEngine.engine Inputs.Terrain2x2 ;;
     G2 <- @Terrain.GenerateTerrain ReferenceEngine.engine G1 ;;
     ret (Terrain.TerrainGrid G1, Terrain.TerrainGrid G2)) in
  let gs := fst (two_grids [100; 200; 300; 400; 400; 300; 200; 100]%Z) in
  (Weapon.WeaponId (fst ws) = "WPN_17"%string
   /\ Weapon.WeaponId (snd ws) = "WPN_20"%string
   /\ Weapon.Rarity (fst ws) = Weapon.Legendary
   /\ Weapon.Rarity (snd ws) = Weapon.Common
   /\ List.length (Weapon.Enchantments (fst ws)) = 3%nat
   /\ List.length (Weapon.Enchantments (snd ws)) = 0%nat)
  /\ (map Terrain.Height (fst gs) = map Terrain.Height (snd gs)
      /\ map Terrain.Moisture (fst gs)
         = [100 # 32768; 200 # 32768; 300 # 32768; 400 # 32768]
      /\ map Terrain.Moisture (snd gs)
         = [400 # 32768; 300 # 32768; 200 # 32768; 100 # 32768]).
Proof.
  cbv zeta. split.
  - repeat split; vm_compute; reflexivity.
  - repeat split; vm_compute; reflexivity.
Qed.

End GenerationFacts.


(* ------------------------------------------------------------------ *)
(** * Further properties of the terrain generator *)

Module TerrainMore.
Import Terrain TerrainTerms.

(** A property of each [f i] result holds along [collect]. *)
Lemma collect_Forall {S A : Type} (f : Z -> State S A) (P : A -> Prop) :
  (forall i s, P (fst (f i s))) ->
  forall (n : nat) (i : Z) (s : S), Forall P (fst (collect n i f s)).
Proof.
  intros Hf. induction n as [|n IH]; intros i s; cbn [collect].
  - constructor.
  - unfold bind, ret. specialize (Hf i s). destruct (f i s) as [x s1].
    specialize (IH (i + 1)%Z s1). destruct (collect n (i + 1) f s1) as [xs s2].
    cbn [fst] in *. constructor; assumption.
Qed.

Lemma Forall_concat {A : Type} (P : A -> Prop) (xss : list (list A)) :
  Forall (Forall P) xss -> Forall P (List.concat xss).
Proof.
  induction 1 as [|xs xss Hxs _ IH]; cbn [List.concat].
  - constructor.
  - apply Forall_app. split; assumption.
Qed.

Lemma FClamp_range (x lo hi : Q) : lo <= hi -> lo <= FClamp x lo hi /\ FClamp x lo hi <= hi.
Proof.
  intros Hle. unfold FClamp.
  destruct (Qltb x lo) eqn:E1; [split; lra|].
  apply Qltb_ge in E1.
  destruct (Qltb x hi) eqn:E2.
  - apply Qltb_lt in E2. split; lra.
  - split; lra.
Qed.

Lemma FClamp_inside (x lo hi : Q) : lo <= x -> x < hi -> FClamp x lo hi = x.
Proof.
  intros H1 H2. unfold FClamp.
  destruct (Qltb x lo) eqn:E1; [apply Qltb_lt in E1; lra|].
  destruct (Qltb x hi) eqn:E2; [reflexivity|].
  apply Qltb_ge in E2. lra.
Qed.

Section Facts.
Context `{Random}.
Variable G : AProceduralTerrainGenerator.

Lemma Octave_step (i : Z) (V A F M : Q) (s : Stream) :
  Octave G i (V, A, F, M) s
  = ((V + fst (Stream_FRand s) * A, A * NoisePersistence G, F * 2, M + A),
     snd (Stream_FRand s)).
Proof.
  unfold Octave, bind, ret. destruct (Stream_FRand s) as [r s1]. reflexivity.
Qed.

(** The octave loop keeps [0 <= Value <= MaxValue] and a non-negative
    amplitude, never lowers [MaxValue], and keeps [Value < MaxValue] once it
    holds. *)
Lemma Octave_loop (n : nat) :
  forall (i : Z) (V A F M : Q) (s : Stream),
    0 <= NoisePersistence G -> 0 <= V -> V <= M -> 0 <= A ->
    let '(V', _, _, M') := fst (for_loop n i (Octave G) (V, A, F, M) s) in
    0 <= V' /\ V' <= M' /\ M <= M' /\ (V < M -> V' < M').
Proof.
  induction n as [|n IH]; intros i V A F M s HP HV HVM HA; cbn [for_loop].
  - cbn. repeat split; auto; lra.
  - unfold bind at 1. rewrite Octave_step.
    pose proof (Stream_FRand_range s) as [Hr0 Hr1].
    set (r := fst (Stream_FRand s)) in *. set (s1 := snd (Stream_FRand s)).
    assert (0 <= r * A) as HrA by nra.
    assert (r * A <= A) as HrA' by nra.
    assert (0 <= A * NoisePersistence G) as HAP by nra.
    specialize (IH (i + 1)%Z (V + r * A) (A * NoisePersistence G) (F * 2) (M + A) s1
                  HP ltac:(lra) ltac:(lra) HAP).
    destruct (fst (for_loop n (i + 1) (Octave G)
                     (V + r * A, A * NoisePersistence G, F * 2, M + A) s1))
      as [[[V' A'] F'] M'].
    destruct IH as (H1 & H2 & H3 & H4).
    split; [lra|]. split; [lra|]. split; [lra|]. intros Hlt. apply H4. lra.
Qed.

(** The normalised sum of the octaves lies in [0, 1). *)
Lemma Noise_in_unit (X Y : Q) (Seed : Z) :
  (1 <= NoiseOctaves G)%Z -> 0 <= NoisePersistence G ->
  0 <= GetPerlinNoise G X Y Seed /\ GetPerlinNoise G X Y Seed < 1.
Proof.
  intros Hoct HP. unfold GetPerlinNoise.
  destruct (Z.to_nat (NoiseOctaves G)) as [|n] eqn:En; [lia|].
  set (s0 := FRandomStream (wrap32 (Seed + trunc_int32 (X + Y * 1000)))).
  assert (let '(V, _, _, M) := fst (for_loop (S n) 0 (Octave G) (0, 1, 1, 0) s0) in
          0 <= V /\ V < M /\ 0 < M) as Hres.
  { cbn [for_loop]. unfold bind at 1. rewrite Octave_step.
    pose proof (Stream_FRand_range s0) as [Hr0 Hr1].
    set (r := fst (Stream_FRand s0)) in *. set (s1 := snd (Stream_FRand s0)).
    pose proof (@Octave_loop n (0 + 1) (0 + r * 1) (1 * NoisePersistence G) (1 * 2)
                  (0 + 1) s1 HP ltac:(lra) ltac:(lra) ltac:(lra)) as Hloop.
    destruct (fst (for_loop n (0 + 1) (Octave G)
                     (0 + r * 1, 1 * NoisePersistence G, 1 * 2, 0 + 1) s1))
      as [[[V' A'] F'] M'].
    destruct Hloop as (H1 & H2 & H3 & H4).
    split; [exact H1|]. split; [apply H4; lra | lra]. }
  destruct (fst (for_loop (S n) 0 (Octave G) (0, 1, 1, 0) s0)) as [[[V A] F] M].
  destruct Hres as (HV0 & HV & HM).
  split.
  - apply Qle_shift_div_l; [exact HM | lra].
  - apply Qlt_shift_div_r; [exact HM | lra].
Qed.

(** X1. With at least one octave, a persistence in [0, 1] (the amplitudes
    then stay bounded) and coordinates of magnitude at most 10^6 (the cast of
    [X + Y * 1000] then stays an [int32]), [GetPerlinNoise] returns a value
    between 0 and 1, whatever the seed; in particular it is never
    negative. *)
Theorem GetPerlinNoise_range (X Y : Q) (Seed : Z) :
  (1 <= NoiseOctaves G)%Z ->
  0 <= NoisePersistence G <= 1 ->
  -1000000 <= X <= 1000000 -> -1000000 <= Y <= 1000000 ->
  0 <= GetPerlinNoise G X Y Seed <= 1.
Proof.
  intros Hoct [HP _] _ _.
  destruct (Noise_in_unit X Y Seed Hoct HP) as [H0 H1].
  split; [exact H0 | apply Qlt_le_weak; exact H1].
Qed.

End Facts.

Lemma GetPerlinNoise_range_witness :
  ((1 <= NoiseOctaves Inputs.Terrain2x2)%Z
   /\ 0 <= NoisePersistence Inputs.Terrain2x2 <= 1
   /\ -1000000 <= 1 <= 1000000 /\ -1000000 <= 0 <= 1000000)
  /\ 0 <= @GetPerlinNoise ReferenceEngine.engine Inputs.Terrain2x2 1 0 12345 <= 1.
Proof.
  assert (1 <= NoiseOctaves Inputs.Terrain2x2)%Z as H1 by (cbn; lia).
  assert (0 <= NoisePersistence Inputs.Terrain2x2 <= 1) as H2 by (cbn; split; lra).
  assert (-1000000 <= 1 <= 1000000) as H3 by (split; lra).
  assert (-1000000 <= 0 <= 1000000) as H4 by (split; lra).
  split; [repeat split; tauto|].
  exact (@GetPerlinNoise_range ReferenceEngine.engine Inputs.Terrain2x2 1 0 12345
           H1 H2 H3 H4).
Defined.

Ltac case_lt a b :=
  let E := fresh "E" in
  destruct (Qltb a b) eqn:E; [apply Qltb_lt in E | apply Qltb_ge in E].

(** X2. The decision list of [DetermineBiome] as conditions on the three
    inputs: Ocean is every height below -0.3 and Mountain every height above
    0.7, whatever moisture and temperature; the other biomes lie in the
    height band [-0.3, 0.7], Forest only above 0.4 and Volcanic only above
    0.5; whatever matches none of them is Plains. *)
Theorem DetermineBiome_cases (h m t : Q) :
  (DetermineBiome h m t = Ocean <-> h < -0.3)
  /\ (DetermineBiome h m t = Mountain <-> 0.7 < h)
  /\ (DetermineBiome h m t = Tundra <-> (-0.3 <= h /\ h <= 0.7) /\ t < 0.2)
  /\ (DetermineBiome h m t = Jungle
      <-> (-0.3 <= h /\ h <= 0.7) /\ 0.8 < t /\ 0.6 < m)
  /\ (DetermineBiome h m t = Desert
      <-> (-0.3 <= h /\ h <= 0.7) /\ 0.8 < t /\ m < 0.3)
  /\ (DetermineBiome h m t = Forest
      <-> (0.4 < h /\ h <= 0.7) /\ 0.2 <= t /\ 0.5 < m /\ ~ (0.8 < t /\ 0.6 < m))
  /\ (DetermineBiome h m t = Volcanic
      <-> (0.5 < h /\ h <= 0.7) /\ 0.6 < t /\ m <= 0.5 /\ ~ (0.8 < t /\ m < 0.3))
  /\ (DetermineBiome h m t = Plains
      <-> (-0.3 <= h /\ h <= 0.7) /\ 0.2 <= t
          /\ ~ (0.8 < t /\ 0.6 < m) /\ ~ (0.8 < t /\ m < 0.3)
          /\ ~ (0.4 < h /\ 0.5 < m) /\ ~ (0.6 < t /\ 0.5 < h)).
Proof.
  unfold DetermineBiome, Qgtb.
  case_lt h (-0.3); [repeat split; intros; try discriminate; try reflexivity; lra|].
  case_lt 0.7 h; [repeat split; intros; try discriminate; try reflexivity; lra|].
  case_lt t 0.2; [repeat split; intros; try discriminate; try reflexivity; lra|].
  case_lt 0.8 t; case_lt 0.6 m; case_lt m 0.3; case_lt 0.4 h; case_lt 0.5 m;
    case_lt 0.6 t; case_lt 0.5 h; cbn [andb];
    repeat split; intros; try discriminate; try reflexivity; try lra;
    try (exfalso; lra); try tauto.
Qed.

(** On heights of [0, 1) and temperatures of at least 0.5 the decision list
    never answers Ocean or Tundra. *)
Lemma DetermineBiome_no_ocean_tundra (h m t : Q) :
  0 <= h -> 0.5 <= t ->
  DetermineBiome h m t <> Ocean /\ DetermineBiome h m t <> Tundra.
Proof.
  intros Hh Ht. unfold DetermineBiome, Qgtb.
  case_lt h (-0.3); [lra|].
  case_lt 0.7 h; [split; discriminate|].
  case_lt t 0.2; [lra|].
  destruct (Qltb 0.8 t && Qltb 0.6 m); [split; discriminate|].
  destruct (Qltb 0.8 t && Qltb m 0.3); [split; discriminate|].
  destruct (Qltb 0.4 h && Qltb 0.5 m); [split; discriminate|].
  destruct (Qltb 0.6 t && Qltb 0.5 h); split; discriminate.
Qed.

Section Cells.
Context `{Random}.
Variable G : AProceduralTerrainGenerator.

Lemma MakeCell_generated (X Y : Z) (g : GlobalRand) :
  (1 <= NoiseOctaves G)%Z -> 0 <= NoisePersistence G ->
  GeneratedCell (fst (MakeCell G X Y g)).
Proof.
  intros Hoct HP. unfold MakeCell, bind, ret.
  pose proof (@Noise_in_unit _ G (to_float X) (to_float Y) (RandomSeed G) Hoct HP)
    as [Hh0 Hh1].
  pose proof (FMath_FRand_range g) as [Hm0 Hm1].
  destruct (FMath_FRand g) as [m g1]. cbn [fst] in *.
  set (h := GetPerlinNoise G (to_float X) (to_float Y) (RandomSeed G)) in *.
  assert (FClamp (0.5 + h * 0.5) 0 1 = 0.5 + h * 0.5) as Ht
    by (apply FClamp_inside; lra).
  unfold GeneratedCell. cbn [Height Moisture Temperature BiomeType bWalkable Objects].
  rewrite Ht.
  destruct (@DetermineBiome_no_ocean_tundra h m (0.5 + h * 0.5)) as [HO HT]; [lra | lra |].
  pose proof (Qlt_le_weak _ _ Hh1) as Hh1'. pose proof (Qlt_le_weak _ _ Hm1) as Hm1'.
  repeat split; try assumption.
  unfold Qgtb. apply Qltb_lt. lra.
Qed.

End Cells.

(** X3. With at least one octave, a persistence in [0, 1] and a grid of at
    most 10^6 by 10^6 cells (the cast of [X + Y * 1000] in [GetPerlinNoise]
    then stays an [int32]), every cell of the grid [GenerateTerrain] leaves
    has a height and a moisture between 0 and 1, the temperature
    [0.5 + 0.5 * height], the biome [DetermineBiome] gives for these three,
    which is never Ocean nor Tundra, is walkable, and carries no object. *)
Theorem GenerateTerrain_cells `{Random} (G : AProceduralTerrainGenerator)
  (g : GlobalRand) :
  (1 <= NoiseOctaves G)%Z -> 0 <= NoisePersistence G <= 1 ->
  (TerrainWidth G <= 1000000)%Z -> (TerrainHeight G <= 1000000)%Z ->
  Forall GeneratedCell (TerrainGrid (fst (GenerateTerrain G g))).
Proof.
  intros Hoct [HP _] _ _. rewrite TerrainFacts.GenerateTerrain_unfold.
  cbn [fst set_TerrainGrid TerrainGrid].
  apply Forall_concat.
  apply (collect_Forall
           (fun X => collect (Z.to_nat (TerrainHeight G)) 0 (MakeCell G X))
           (Forall GeneratedCell)).
  intros X s. apply collect_Forall. intros Y s'.
  apply MakeCell_generated; assumption.
Qed.

Lemma GenerateTerrain_cells_witness :
  ((1 <= NoiseOctaves Inputs.Terrain2x2)%Z
   /\ 0 <= NoisePersistence Inputs.Terrain2x2 <= 1
   /\ (TerrainWidth Inputs.Terrain2x2 <= 1000000)%Z
   /\ (TerrainHeight Inputs.Terrain2x2 <= 1000000)%Z)
  /\ Forall GeneratedCell
       (TerrainGrid
          (fst (@GenerateTerrain ReferenceEngine.engine Inputs.Terrain2x2
                  [100; 200; 300; 400]%Z))).
Proof.
  assert (1 <= NoiseOctaves Inputs.Terrain2x2)%Z as H1 by (cbn; lia).
  assert (0 <= NoisePersistence Inputs.Terrain2x2 <= 1) as H2 by (cbn; split; lra).
  assert (TerrainWidth Inputs.Terrain2x2 <= 1000000)%Z as H3 by (cbn; lia).
  assert (TerrainHeight Inputs.Terrain2x2 <= 1000000)%Z as H4 by (cbn; lia).
  split; [repeat split; tauto|].
  exact (@GenerateTerrain_cells ReferenceEngine.engine Inputs.Terrain2x2
           [100; 200; 300; 400]%Z H1 H2 H3 H4).
Defined.

(** X4. The heights of the grid [GenerateTerrain] leaves are the values of
    [GetPerlinNoise] at the cell coordinates with the seed [RandomSeed],
    column by column ([x] outside, [y] inside): they depend on neither the
    draws of the process-wide generator nor what the grid held before, and
    the random heights of [GenerateHeightMap] are not among them. *)
Theorem GenerateTerrain_heights `{Random} (G : AProceduralTerrainGenerator)
  (g : GlobalRand) :
  map Height (TerrainGrid (fst (GenerateTerrain G g)))
  = flat_map
      (fun X => map (fun Y => GetPerlinNoise G (to_float X) (to_float Y) (RandomSeed G))
                  (Zseq 0 (Z.to_nat (TerrainHeight G))))
      (Zseq 0 (Z.to_nat (TerrainWidth G))).
Proof.
  rewrite TerrainFacts.GenerateTerrain_unfold. cbn [fst set_TerrainGrid TerrainGrid].
  apply TerrainFacts.columns_height.
Qed.

Section Vegetation.
Context `{Random}.
Variable G : AProceduralTerrainGenerator.

(** One cell: the tags appended and the stream left depend on the cell
    through its walkability and its biome only. *)
Lemma Vegetate_tags (i : Z) (c : FTerrainCell) (s : Stream) :
  exists (tree rock bush : bool) (s' : Stream),
    (forall d : FTerrainCell,
       bWalkable d = bWalkable c -> BiomeType d = BiomeType c ->
       Vegetate G i d s = (WithObjects (VegetationTags tree rock bush) d, s'))
    /\ (bWalkable c = false -> tree = false /\ rock = false /\ bush = false)
    /\ (tree = true -> BiomeType c = Forest \/ BiomeType c = Jungle).
Proof.
  assert (Hid : forall d : FTerrainCell, WithObjects [] d = d).
  { intros [h m t b o w]. unfold WithObjects. cbn. rewrite app_nil_r. reflexivity. }
  destruct (bWalkable c) eqn:Ew.
  - assert (Htree : exists (tree : bool) (s1 : Stream),
               (forall d, BiomeType d = BiomeType c ->
                  (match BiomeType d with
                   | Forest | Jungle =>
                       r <- Stream_FRand ;;
                       ret (if Qltb r (TreeDensity G) then add_Object "tree" d else d)
                   | _ => ret d
                   end) s = (WithObjects (if tree then ["tree"%string] else []) d, s1))
               /\ (tree = true -> BiomeType c = Forest \/ BiomeType c = Jungle)).
    { destruct (Stream_FRand s) as [r s1] eqn:E1.
      destruct (BiomeType c) eqn:Eb;
        try (exists false, s; split; [intros d ->; cbn; rewrite Hid; reflexivity
                                     | discriminate]);
        exists (Qltb r (TreeDensity G)), s1;
        (split; [intros d ->; unfold bind, ret; rewrite E1;
                 destruct (Qltb r (TreeDensity G));
                 [reflexivity | rewrite Hid; reflexivity]
                | auto]). }
    destruct Htree as (tree & s1 & Htree & Hbiome).
    destruct (Stream_FRand s1) as [r2 s2] eqn:E2.
    destruct (Stream_FRand s2) as [r3 s3] eqn:E3.
    exists tree, (Qltb r2 (RockDensity G)), (Qltb r3 (BushDensity G)), s3.
    split; [|split; [discriminate | exact Hbiome]].
    intros d Hw Hb. unfold Vegetate. rewrite Hw. cbn [negb].
    unfold bind at 1. rewrite (Htree d Hb).
    unfold bind, ret. rewrite E2, E3.
    unfold WithObjects, VegetationTags, add_Object.
    destruct tree, (Qltb r2 (RockDensity G)), (Qltb r3 (BushDensity G));
      cbn [Height Moisture Temperature BiomeType Objects bWalkable app];
      rewrite <- ?app_assoc, ?app_nil_r; reflexivity.
  - exists false, false, false, s.
    split; [|split; [auto | discriminate]].
    intros d Hw _. unfold Vegetate. rewrite Hw. cbn. rewrite Hid. reflexivity.
Qed.

(** The whole loop on two grids that agree, cell by cell, on walkability and
    biome: the same tags are appended to both, cell by cell. *)
Lemma VegetateFrom_tags (cells : list FTerrainCell) :
  forall (cells2 : list FTerrainCell) (i : Z) (s : Stream),
    Forall2 (fun c d => bWalkable d = bWalkable c /\ BiomeType d = BiomeType c)
      cells cells2 ->
    exists tags : list (bool * bool * bool),
      Forall2 (fun c '(t, r, b) =>
                 (bWalkable c = false -> t = false /\ r = false /\ b = false)
                 /\ (t = true -> BiomeType c = Forest \/ BiomeType c = Jungle))
        cells tags
      /\ fst (VegetateFrom G i cells s)
         = map (fun '(c, (t, r, b)) => WithObjects (VegetationTags t r b) c)
             (combine cells tags)
      /\ fst (VegetateFrom G i cells2 s)
         = map (fun '(c, (t, r, b)) => WithObjects (VegetationTags t r b) c)
             (combine cells2 tags).
Proof.
  induction cells as [|c cells IH]; intros cells2 i s Hsame.
  - inversion Hsame; subst. exists []. repeat split; constructor.
  - inversion Hsame as [|c0 d l cells2' [Hw Hb] Hrest]; subst.
    destruct (Vegetate_tags i c s) as (t & r & b & s1 & Hv & Hnw & Htree).
    destruct (IH cells2' (i + 1)%Z s1 Hrest) as (tags & Htags & H1 & H2).
    exists ((t, r, b) :: tags). split; [constructor; [split; assumption | exact Htags]|].
    cbn [VegetateFrom]. unfold bind, ret.
    rewrite (Hv c eq_refl eq_refl), (Hv d Hw Hb).
    destruct (VegetateFrom G (i + 1) cells s1) as [rest1 s2].
    destruct (VegetateFrom G (i + 1) cells2' s1) as [rest2 s3].
    cbn [fst combine map] in *. rewrite H1, H2. split; reflexivity.
Qed.

(** The loop reads the properties of the generator, not its grid. *)
Lemma VegetateFrom_grid (v : list FTerrainCell) (cells : list FTerrainCell) :
  forall (i : Z) (s : Stream),
    VegetateFrom (set_TerrainGrid v G) i cells s = VegetateFrom G i cells s.
Proof.
  induction cells as [|c cells IH]; intros i s; cbn [VegetateFrom].
  - reflexivity.
  - unfold bind.
    change (Vegetate (set_TerrainGrid v G) i c s) with (Vegetate G i c s).
    destruct (Vegetate G i c s) as [c' s1]. rewrite IH. reflexivity.
Qed.

End Vegetation.

Lemma Vegetation_appends `{Random} (G : AProceduralTerrainGenerator) :
  Forall2
    (fun c c' =>
       exists tree rock bush : bool,
         c' = WithObjects (VegetationTags tree rock bush) c
         /\ (bWalkable c = false -> tree = false /\ rock = false /\ bush = false)
         /\ (tree = true -> BiomeType c = Forest \/ BiomeType c = Jungle))
    (TerrainGrid G) (TerrainGrid (GenerateVegetation G)).
Proof.
  unfold GenerateVegetation. cbn [set_TerrainGrid TerrainGrid].
  assert (Hrefl : Forall2 (fun c d => bWalkable d = bWalkable c
                                     /\ BiomeType d = BiomeType c)
                    (TerrainGrid G) (TerrainGrid G))
    by (induction (TerrainGrid G); constructor; auto).
  destruct (@VegetateFrom_tags _ G (TerrainGrid G) (TerrainGrid G) 0
              (FRandomStream (RandomSeed G)) Hrefl)
    as (tags & Htags & H1 & _).
  rewrite H1. clear H1 Hrefl.
  induction Htags as [|c [[t r] b] cells tags [Hnw Htree] _ IH]; cbn [combine map].
  - constructor.
  - constructor; [|exact IH]. exists t, r, b.
    split; [reflexivity|]. split; assumption.
Qed.

(** X5. For a non-zero [TerrainWidth] (the loop divides the cell index by
    it), [GenerateVegetation] keeps the number of cells and, in every cell,
    height, moisture, temperature, biome and walkability; to the objects of a
    cell it only appends, in this order, at most one "tree", one "rock" and
    one "bush": nothing on a cell that is not walkable, and a tree only on a
    Forest or Jungle cell. *)
Theorem GenerateVegetation_frame `{Random} (G : AProceduralTerrainGenerator) :
  TerrainWidth G <> 0%Z ->
  Forall2
    (fun c c' =>
       exists tree rock bush : bool,
         c' = WithObjects (VegetationTags tree rock bush) c
         /\ (bWalkable c = false -> tree = false /\ rock = false /\ bush = false)
         /\ (tree = true -> BiomeType c = Forest \/ BiomeType c = Jungle))
    (TerrainGrid G) (TerrainGrid (GenerateVegetation G)).
Proof. intros _. exact (Vegetation_appends G). Qed.

Lemma GenerateVegetation_frame_witness :
  TerrainWidth Inputs.TerrainJungleCell <> 0%Z
  /\ Forall2
       (fun c c' =>
          exists tree rock bush : bool,
            c' = WithObjects (VegetationTags tree rock bush) c
            /\ (bWalkable c = false -> tree = false /\ rock = false /\ bush = false)
            /\ (tree = true -> BiomeType c = Forest \/ BiomeType c = Jungle))
       (TerrainGrid Inputs.TerrainJungleCell)
       (TerrainGrid (@GenerateVegetation ReferenceEngine.engine Inputs.TerrainJungleCell)).
Proof.
  assert (TerrainWidth Inputs.TerrainJungleCell <> 0%Z) as HW by (cbn; discriminate).
  split; [exact HW|].
  exact (@GenerateVegetation_frame ReferenceEngine.engine Inputs.TerrainJungleCell HW).
Defined.

(** X6. [GenerateVegetation] does not clear the objects of the cells, and its
    stream restarts from [RandomSeed]: for a non-zero [TerrainWidth], a
    second pass appends to every cell the very tags the first pass appended,
    so every tag of the first pass is there twice.  On the Jungle cell with
    the densities at 1 the objects are tree, rock, bush after one pass and
    tree, rock, bush, tree, rock, bush after two. *)
Theorem GenerateVegetation_twice `{Random} (G : AProceduralTerrainGenerator) :
  TerrainWidth G <> 0%Z ->
  Forall2
    (fun '(c0, c1) c2 =>
       c2 = WithObjects (skipn (List.length (Objects c0)) (Objects c1)) c1)
    (combine (TerrainGrid G) (TerrainGrid (GenerateVegetation G)))
    (TerrainGrid (GenerateVegetation (GenerateVegetation G))).
Proof.
  intros _.
  set (g1 := TerrainGrid (GenerateVegetation G)).
  assert (TerrainGrid (GenerateVegetation (GenerateVegetation G))
          = fst (VegetateFrom G 0 g1 (FRandomStream (RandomSeed G)))) as ->.
  { unfold GenerateVegetation at 1. cbn [set_TerrainGrid TerrainGrid].
    unfold GenerateVegetation at 1. rewrite VegetateFrom_grid. reflexivity. }
  assert (Hs : Forall2 (fun c d => bWalkable d = bWalkable c /\ BiomeType d = BiomeType c)
                 (TerrainGrid G) g1).
  { eapply Forall2_impl; [|apply Vegetation_appends].
    intros c c' (t & r & b & -> & _). split; reflexivity. }
  destruct (@VegetateFrom_tags _ G (TerrainGrid G) g1 0 (FRandomStream (RandomSeed G)) Hs)
    as (tags & Htags & H1 & H2).
  assert (Hg1 : g1 = map (fun '(c, (t, r, b)) => WithObjects (VegetationTags t r b) c)
                       (combine (TerrainGrid G) tags)) by exact H1.
  assert (Hlen : List.length tags = List.length (TerrainGrid G))
    by (symmetry; exact (Forall2_length Htags)).
  clear Htags.
  rewrite H2, Hg1. clear H1 H2 Hg1 Hs g1.
  revert tags Hlen. induction (TerrainGrid G) as [|c cells IH]; intros [|[[t r] b] tags] Hlen;
    try discriminate Hlen; cbn [combine map].
  - constructor.
  - constructor; [|apply IH; cbn in Hlen; lia].
    replace (skipn (List.length (Objects c))
               (Objects (WithObjects (VegetationTags t r b) c)))
      with (VegetationTags t r b); [reflexivity|].
    unfold WithObjects. cbn [Objects].
    rewrite skipn_app, skipn_all, Nat.sub_diag. reflexivity.
Qed.

Lemma GenerateVegetation_twice_witness :
  TerrainWidth Inputs.TerrainDenseJungleCell <> 0%Z
  /\ Forall2
       (fun '(c0, c1) c2 =>
          c2 = WithObjects (skipn (List.length (Objects c0)) (Objects c1)) c1)
       (combine (TerrainGrid Inputs.TerrainDenseJungleCell)
          (TerrainGrid
             (@GenerateVegetation ReferenceEngine.engine Inputs.TerrainDenseJungleCell)))
       (TerrainGrid
          (@GenerateVegetation ReferenceEngine.engine
             (@GenerateVegetation ReferenceEngine.engine Inputs.TerrainDenseJungleCell)))
  /\ map Objects
       (TerrainGrid
          (@GenerateVegetation ReferenceEngine.engine Inputs.TerrainDenseJungleCell))
     = [["tree"; "rock"; "bush"]%string]
  /\ map Objects
       (TerrainGrid
          (@GenerateVegetation ReferenceEngine.engine
             (@GenerateVegetation ReferenceEngine.engine Inputs.TerrainDenseJungleCell)))
     = [["tree"; "rock"; "bush"; "tree"; "rock"; "bush"]%string].
Proof.
  assert (TerrainWidth Inputs.TerrainDenseJungleCell <> 0%Z) as HW by (cbn; discriminate).
  split; [exact HW|].
  split;
    [exact (@GenerateVegetation_twice ReferenceEngine.engine
              Inputs.TerrainDenseJungleCell HW)|].
  split; vm_compute; reflexivity.
Defined.

Lemma passes_over `{Random} (G2 : AProceduralTerrainGenerator)
  (cells : list FTerrainCell) :
  forall (g : GlobalRand) (i : Z),
    Forall2 AfterPasses cells
      (TemperatureFrom G2 i
         (map (fun c => set_Moisture (MoistureOfHeight (Height c)) c)
            (fst (HeightMapOver cells g)))).
Proof.
  induction cells as [|c cells IH]; intros g i; cbn [HeightMapOver].
  - constructor.
  - unfold bind, ret.
    pose proof (FMath_FRand_range g) as [Hr0 Hr1].
    destruct (FMath_FRand g) as [r g1]. cbn [fst] in Hr0, Hr1.
    specialize (IH g1 (i + 1)%Z).
    destruct (HeightMapOver cells g1) as [rest g2]. cbn [fst map TemperatureFrom] in *.
    constructor; [|exact IH].
    unfold AfterPasses.
    cbn [set_Height set_Moisture set_Temperature Height Moisture Temperature BiomeType
         Objects bWalkable].
    assert (MoistureOfHeight (r * 2 - 1) = 1 - (r * 2 - 1) * 0.5) as ->.
    { unfold MoistureOfHeight.
      destruct (FMax_spec 0 (1 - (r * 2 - 1) * 0.5)) as [[Hle _] | [_ ->]];
        [lra | reflexivity]. }
    split; [split; lra|]. split; [reflexivity|]. split; [split; lra|].
    split; [apply FClamp_range; lra|]. repeat split.
Qed.

(** X7. The three map passes, in the order [GenerateTerrain] calls them, on
    a grid that holds cells, for a non-zero [TerrainHeight] (the temperature
    pass divides the cell index by it): every height is redrawn between -1
    and 1, every moisture becomes [1 - 0.5 * height], which lies between 0.5
    and 1.5 (the lower clamp at 0 never applies and there is no upper one),
    every temperature lies in [0, 1]; biome, objects and walkability of the
    cells are left as they were. *)
Theorem map_passes `{Random} (G : AProceduralTerrainGenerator) (g : GlobalRand) :
  TerrainHeight G <> 0%Z ->
  Forall2 AfterPasses
    (TerrainGrid G)
    (TerrainGrid
       (GenerateTemperatureMap (GenerateMoistureMap (fst (GenerateHeightMap G g))))).
Proof.
  intros _.
  unfold GenerateTemperatureMap, GenerateMoistureMap, GenerateHeightMap, bind, ret.
  destruct (HeightMapOver (TerrainGrid G) g) as [cells' g'] eqn:E.
  cbn [fst set_TerrainGrid TerrainGrid].
  assert (cells' = fst (HeightMapOver (TerrainGrid G) g)) as -> by (rewrite E; reflexivity).
  apply passes_over.
Qed.

Lemma map_passes_witness :
  TerrainHeight Inputs.TerrainJungleCell <> 0%Z
  /\ Forall2 AfterPasses
       (TerrainGrid Inputs.TerrainJungleCell)
       (TerrainGrid
          (GenerateTemperatureMap
             (GenerateMoistureMap
                (fst (@GenerateHeightMap ReferenceEngine.engine Inputs.TerrainJungleCell
                        [8192]%Z))))).
Proof.
  assert (TerrainHeight Inputs.TerrainJungleCell <> 0%Z) as HH by (cbn; discriminate).
  split; [exact HH|].
  exact (@map_passes ReferenceEngine.engine Inputs.TerrainJungleCell [8192]%Z HH).
Defined.

End TerrainMore.


(* ------------------------------------------------------------------ *)
(** * Further properties of the city generator *)

Module CityMore.
Import City CityTerms.

Section Facts.
Context `{Random} `{Trig}.
Variable G : AProceduralCityGenerator.

Lemma GenerateDistrict_next (ds : list FDistrict) (s : Stream) :
  exists D : FDistrict,
    fst (GenerateDistrict G (Z.of_nat (List.length ds)) ds s) = ds ++ [D]
    /\ LaidOut G (Z.of_nat (List.length ds)) D /\ Buildings D = [].
Proof.
  unfold GenerateDistrict, bind, ret.
  pose proof (@Stream_RandRange_range _ 0 3 s ltac:(lia)) as Hc.
  destruct (Stream_RandRange 0 3 s) as [c s1]. cbn [fst] in *.
  rewrite CityFacts.CreateDistrict_next.
  eexists. split; [reflexivity|].
  unfold LaidOut. cbn [DistrictName Center Radius District_Population DistrictType
                       Buildings].
  repeat split.
  assert (c = 0 \/ c = 1 \/ c = 2 \/ c = 3)%Z as [-> | [-> | [-> | ->]]] by lia;
    cbn; auto.
Qed.

Lemma GenerateDistrict_loop (n : nat) :
  forall (ds : list FDistrict) (s : Stream),
    exists new : list FDistrict,
      fst (for_loop n (Z.of_nat (List.length ds)) (GenerateDistrict G) ds s) = ds ++ new
      /\ Forall2 (fun i D => LaidOut G i D /\ Buildings D = [])
           (Zseq (Z.of_nat (List.length ds)) n) new.
Proof.
  induction n as [|n IH]; intros ds s; cbn [for_loop Zseq].
  - exists []. rewrite app_nil_r. split; [reflexivity | constructor].
  - unfold bind at 1.
    destruct (GenerateDistrict_next ds s) as (D & HD & HL & HB).
    destruct (GenerateDistrict G (Z.of_nat (List.length ds)) ds s) as [ds1 s1].
    cbn [fst] in HD. subst ds1.
    destruct (IH (ds ++ [D]) s1) as (new & Hnew & Hall).
    rewrite length_app in Hnew, Hall. cbn [List.length] in Hnew, Hall.
    replace (Z.of_nat (List.length ds + 1)) with (Z.of_nat (List.length ds) + 1)%Z
      in Hnew, Hall by lia.
    exists (D :: new). rewrite Hnew, <- app_assoc. split; [reflexivity|].
    constructor; [split; assumption | exact Hall].
Qed.

End Facts.

(** X8. [GenerateDistricts] lays out [max 0 NumberOfDistricts] districts,
    whatever the array held before: district [i] is named "District_i",
    stands at angle [i * 360 / NumberOfDistricts] degrees and distance
    [0.6 * CityRadius] from the actor, has radius
    [CityRadius / (0.5 * NumberOfDistricts)] and population
    [CityPopulation / NumberOfDistricts], one of the four district types,
    and no building. *)
Theorem GenerateDistricts_layout `{Random} `{Trig} (G : AProceduralCityGenerator) :
  Forall2 (fun i D => LaidOut G i D /\ Buildings D = [])
    (Zseq 0 (Z.to_nat (NumberOfDistricts G))) (Districts (GenerateDistricts G)).
Proof.
  unfold GenerateDistricts. cbn [set_Districts Districts].
  destruct (GenerateDistrict_loop G (Z.to_nat (NumberOfDistricts G)) []
              (FRandomStream (RandomSeed G))) as (new & Hnew & Hall).
  cbn [List.length Z.of_nat app] in Hnew, Hall. rewrite Hnew. exact Hall.
Qed.

Section Roads.
Context `{Random} `{Trig}.
Variable G : AProceduralCityGenerator.

Lemma RoadLoop_flat_map (ds : list FDistrict) (n : nat) :
  forall (i : Z) (roads : list FRoad),
    RoadLoop G ds n i roads = roads ++ flat_map (RoadsOfDistrict G ds) (Zseq i n).
Proof.
  induction n as [|n IH]; intros i roads; cbn [RoadLoop Zseq flat_map].
  - rewrite app_nil_r. reflexivity.
  - rewrite IH, <- app_assoc. reflexivity.
Qed.

(** The two roads of district [k], read with [nth_error]. *)
Lemma RoadsOfDistrict_at (ds : list FDistrict) (k : nat) :
  (k < List.length ds)%nat ->
  exists Dk Dnext : FDistrict,
    nth_error ds k = Some Dk
    /\ nth_error ds ((k + 1) mod List.length ds) = Some Dnext
    /\ RoadsOfDistrict G ds (Z.of_nat k)
       = [MkRoad (Center Dk) (Center Dnext) 25 "main";
          MkRoad (Center Dk) (ActorLocation G) 15 "secondary"].
Proof.
  intros Hk. unfold RoadsOfDistrict.
  set (dflt := MkDistrict "" (MkVector 0 0 0) 500 [] 0 "").
  assert ((k + 1) mod List.length ds < List.length ds)%nat as Hnext
    by (apply Nat.mod_upper_bound; lia).
  assert (Z.to_nat (Z.rem (Z.of_nat k + 1) (Z.of_nat (List.length ds)))
          = ((k + 1) mod List.length ds)%nat) as ->.
  { rewrite Z.rem_mod_nonneg by lia.
    replace (Z.of_nat k + 1)%Z with (Z.of_nat (k + 1)) by lia.
    rewrite <- Nat2Z.inj_mod. apply Nat2Z.id. }
  rewrite Nat2Z.id.
  exists (nth k ds dflt), (nth ((k + 1) mod List.length ds) ds dflt).
  split; [apply nth_error_nth'; exact Hk|].
  split; [apply nth_error_nth'; exact Hnext | reflexivity].
Qed.

(** Ring and spokes, on any array of districts. *)
Lemma GenerateRoadNetwork_roads :
  let ds := Districts G in
  let roads := RoadNetwork (GenerateRoadNetwork G) in
  Districts (GenerateRoadNetwork G) = ds
  /\ List.length roads = (2 * List.length ds)%nat
  /\ Forall
       (fun k =>
          exists Dk Dnext : FDistrict,
            nth_error ds k = Some Dk
            /\ nth_error ds ((k + 1) mod List.length ds) = Some Dnext
            /\ nth_error roads (2 * k)
               = Some (MkRoad (Center Dk) (Center Dnext) 25 "main")
            /\ nth_error roads (2 * k + 1)
               = Some (MkRoad (Center Dk) (ActorLocation G) 15 "secondary"))
       (seq 0 (List.length ds)).
Proof.
  cbv zeta. unfold GenerateRoadNetwork. cbn [set_RoadNetwork Districts RoadNetwork].
  split; [reflexivity|]. split; [rewrite CityFacts.RoadLoop_length; cbn; lia|].
  rewrite RoadLoop_flat_map. cbn [app].
  apply Forall_forall. intros k Hk. apply in_seq in Hk.
  destruct (@RoadsOfDistrict_at (Districts G) k ltac:(lia)) as (Dk & Dn & H1 & H2 & H3).
  exists Dk, Dn. split; [exact H1|]. split; [exact H2|].
  set (cell := fun (X Y : Z) =>
                 nth (Z.to_nat Y) (RoadsOfDistrict G (Districts G) X)
                   (MkRoad (MkVector 0 0 0) (MkVector 0 0 0) 0 "")).
  assert (Hrows : flat_map (RoadsOfDistrict G (Districts G))
                    (Zseq 0 (List.length (Districts G)))
                  = flat_map (fun X => map (cell X) (Zseq 0 2))
                      (Zseq 0 (List.length (Districts G)))).
  { apply flat_map_ext. intros X. reflexivity. }
  rewrite Hrows.
  split.
  - replace (2 * k)%nat with (k * 2 + 0)%nat by lia.
    rewrite (@TerrainFacts.nth_error_rows _ cell 2 (List.length (Districts G)) 0 k 0)
      by lia.
    unfold cell. cbn [Z.add]. rewrite H3. reflexivity.
  - replace (2 * k + 1)%nat with (k * 2 + 1)%nat by lia.
    rewrite (@TerrainFacts.nth_error_rows _ cell 2 (List.length (Districts G)) 0 k 1)
      by lia.
    unfold cell. cbn [Z.add]. rewrite H3. reflexivity.
Qed.

End Roads.

(** X9. [GenerateRoadNetwork] leaves the districts alone and replaces the
    road array by two roads per district, in district order: a "main" road of
    width 25 from the centre of district [k] to the centre of district
    [(k + 1) mod n], the last district closing the ring on the first, then a
    "secondary" road of width 15 from the centre of district [k] to the
    actor. *)
Theorem GenerateRoadNetwork_ring_and_spokes `{Random} `{Trig}
  (G : AProceduralCityGenerator) :
  let ds := Districts G in
  let roads := RoadNetwork (GenerateRoadNetwork G) in
  Districts (GenerateRoadNetwork G) = ds
  /\ List.length roads = (2 * List.length ds)%nat
  /\ Forall
       (fun k =>
          exists Dk Dnext : FDistrict,
            nth_error ds k = Some Dk
            /\ nth_error ds ((k + 1) mod List.length ds) = Some Dnext
            /\ nth_error roads (2 * k)
               = Some (MkRoad (Center Dk) (Center Dnext) 25 "main")
            /\ nth_error roads (2 * k + 1)
               = Some (MkRoad (Center Dk) (ActorLocation G) 15 "secondary"))
       (seq 0 (List.length ds)).
Proof. exact (GenerateRoadNetwork_roads G). Qed.

Section Buildings.
Context `{Random} `{Trig}.
Variable G : AProceduralCityGenerator.

Lemma DrawSize_bounds (x0 x1 y0 y1 z0 z1 : Q) (s : Stream) :
  x0 <= x1 -> y0 <= y1 -> z0 <= z1 ->
  let v := fst (DrawSize x0 x1 y0 y1 z0 z1 s) in
  (x0 <= X v /\ X v <= x1) /\ (y0 <= Y v /\ Y v <= y1) /\ (z0 <= Z_ v /\ Z_ v <= z1).
Proof.
  intros Hx Hy Hz. cbv zeta. unfold DrawSize, bind, ret.
  pose proof (Stream_FRandRange_range s Hx) as HX.
  destruct (Stream_FRandRange x0 x1 s) as [sx s1]; cbn [fst] in HX.
  pose proof (Stream_FRandRange_range s1 Hy) as HY.
  destruct (Stream_FRandRange y0 y1 s1) as [sy s2]; cbn [fst] in HY.
  pose proof (Stream_FRandRange_range s2 Hz) as HZ.
  destruct (Stream_FRandRange z0 z1 s2) as [sz s3]; cbn [fst] in HZ.
  cbn. auto.
Qed.

Lemma GenerateBuilding_profile (Ty : EBuildingType) (L : FVector) (i : Z) :
  let b := GenerateBuilding G Ty L i in
  let '(id, r, p) := BuildingDraws G i in
  let '(xy, z, fl, mat) := Profile Ty in
  (Location b = L /\ BuildingType b = Ty /\ bHasGarden b = false /\ Material b = mat)
  /\ (BuildingId b = Printf_d "Building_" id /\ (10000 <= id <= 99999)%Z)
  /\ (Rotation b = r * 360 /\ 0 <= Rotation b /\ Rotation b < 360)
  /\ (Building_Population b = p /\ (10 <= p <= 500)%Z)
  /\ (fst xy <= X (Size b) /\ X (Size b) <= snd xy)
  /\ (fst xy <= Y (Size b) /\ Y (Size b) <= snd xy)
  /\ (fst z <= Z_ (Size b) /\ Z_ (Size b) <= snd z)
  /\ (fst fl <= Floors b <= snd fl)%Z.
Proof.
  cbv zeta. unfold GenerateBuilding, BuildingDraws, bind, ret.
  set (s0 := FRandomStream (wrap32 (RandomSeed G + wrap32 (i * 100)))).
  pose proof (@Stream_RandRange_range _ 10000 99999 s0 ltac:(lia)) as Hid.
  destruct (Stream_RandRange 10000 99999 s0) as [id s1]. cbn [fst] in Hid.
  pose proof (Stream_FRand_range s1) as [Hr0 Hr1].
  destruct (Stream_FRand s1) as [r s2]. cbn [fst] in Hr0, Hr1.
  pose proof (@Stream_RandRange_range _ 10 500 s2 ltac:(lia)) as Hp.
  destruct (Stream_RandRange 10 500 s2) as [p s3]. cbn [fst] in Hp.
  destruct Ty; cbn [Profile];
    match goal with
    | |- context [DrawSize ?x0 ?x1 ?y0 ?y1 ?z0 ?z1 s3] =>
        pose proof (@DrawSize_bounds x0 x1 y0 y1 z0 z1 s3
                      ltac:(unfold Qle; cbn; lia) ltac:(unfold Qle; cbn; lia)
                      ltac:(unfold Qle; cbn; lia)) as (HX & HY & HZ);
        destruct (DrawSize x0 x1 y0 y1 z0 z1 s3) as [sz s4]; cbn [fst] in HX, HY, HZ
    end;
    try match goal with
      | |- context [Stream_RandRange ?a ?b ?s] =>
          let Hf := fresh "Hf" in
          pose proof (@Stream_RandRange_range _ a b s ltac:(lia)) as Hf;
          destruct (Stream_RandRange a b s) as [fl s5]; cbn [fst] in Hf
      end;
    cbn [fst snd Location BuildingType bHasGarden Material BuildingId Rotation
         Building_Population Size Floors];
    repeat split; try assumption; try lia; try lra.
Qed.

Lemma PickBuildingType_allowed (D : FDistrict) (s : Stream) :
  TypeAllowed D (fst (PickBuildingType D s)).
Proof.
  unfold PickBuildingType, TypeAllowed.
  destruct (String.eqb_spec (DistrictType D) "residential") as [-> | Hr];
    [cbn; repeat split; intros; try reflexivity; discriminate|].
  destruct (String.eqb_spec (DistrictType D) "commercial") as [-> | Hc];
    [cbn; repeat split; intros; try reflexivity; discriminate|].
  destruct (String.eqb_spec (DistrictType D) "industrial") as [-> | Hi];
    [cbn; repeat split; intros; try reflexivity; discriminate|].
  repeat split; intros; contradiction.
Qed.

(** One placement attempt: the district as it was, or with one building
    appended. *)
Lemma PlaceBuilding_cases (i j : Z) (D : FDistrict) (s : Stream) :
  fst (PlaceBuilding G i j D s) = D
  \/ exists Ty : EBuildingType,
       TypeAllowed D Ty
       /\ fst (PlaceBuilding G i j D s)
          = set_Buildings
              (Buildings D
               ++ [GenerateBuilding G Ty (GenerateRandomLocationInDistrict G D) i]) D.
Proof.
  unfold PlaceBuilding, bind, ret.
  destruct (Stream_FRand s) as [r s1].
  destruct (Qgtb r (BuildingDensity G)); [left; reflexivity|].
  pose proof (PickBuildingType_allowed D s1) as HT.
  destruct (PickBuildingType D s1) as [Ty s2]. cbn [fst] in *.
  right. exists Ty. split; [exact HT | reflexivity].
Qed.

Lemma set_Buildings_same (D : FDistrict) : set_Buildings (Buildings D ++ []) D = D.
Proof. destruct D. cbn. rewrite app_nil_r. reflexivity. Qed.

Lemma PlaceLoop_populated (i : Z) (n : nat) :
  forall (j : Z) (D : FDistrict) (s : Stream),
    exists added : list FBuilding,
      fst (for_loop n j (PlaceBuilding G i) D s)
      = set_Buildings (Buildings D ++ added) D
      /\ (List.length added <= n)%nat
      /\ Forall
           (fun b =>
              exists Ty : EBuildingType,
                TypeAllowed D Ty
                /\ b = GenerateBuilding G Ty (GenerateRandomLocationInDistrict G D) i)
           added.
Proof.
  induction n as [|n IH]; intros j D s; cbn [for_loop].
  - exists []. rewrite set_Buildings_same. repeat split; auto.
  - unfold bind at 1.
    destruct (PlaceBuilding_cases i j D s) as [Hsame | (Ty & HT & Hadd)].
    + destruct (PlaceBuilding G i j D s) as [D1 s1]. cbn [fst] in Hsame. rewrite Hsame.
      destruct (IH (j + 1)%Z D s1) as (added & Hfst & Hlen & Hall).
      exists added. rewrite Hfst. repeat split; auto.
    + destruct (PlaceBuilding G i j D s) as [D1 s1]. cbn [fst] in Hadd. rewrite Hadd.
      set (b0 := GenerateBuilding G Ty (GenerateRandomLocationInDistrict G D) i).
      destruct (IH (j + 1)%Z (set_Buildings (Buildings D ++ [b0]) D) s1)
        as (added & Hfst & Hlen & Hall).
      exists (b0 :: added).
      rewrite Hfst. cbn [set_Buildings Buildings DistrictName Center Radius
                         District_Population DistrictType].
      rewrite <- app_assoc. split; [reflexivity|]. split; [cbn; lia|].
      constructor; [exists Ty; split; [exact HT | reflexivity]|].
      eapply Forall_impl; [|exact Hall].
      intros b (Ty' & HT' & Hb). exists Ty'. split; [exact HT' | exact Hb].
Qed.

Lemma PopulateFrom_populated (ds : list FDistrict) :
  forall (i : Z) (s : Stream),
    Forall2 (fun '(k, D) D' => exists added, Populated G k D D' added)
      (combine (Zseq i (List.length ds)) ds) (fst (PopulateFrom G i ds s)).
Proof.
  induction ds as [|D ds IH]; intros i s; cbn [PopulateFrom List.length Zseq combine].
  - constructor.
  - unfold bind, ret.
    destruct (PlaceLoop_populated i (Z.to_nat (BuildingsPerDistrict G)) 0 D s)
      as (added & Hfst & Hlen & Hall).
    destruct (for_loop _ 0%Z (PlaceBuilding G i) D s) as [D' s1]. cbn [fst] in Hfst.
    specialize (IH (i + 1)%Z s1).
    destruct (PopulateFrom G (i + 1) ds s1) as [rest s2]. cbn [fst] in *.
    constructor; [|exact IH].
    exists added. split; [exact Hfst|]. split; assumption.
Qed.

End Buildings.

(** X10. A building from [GenerateBuilding] stands at the location and has
    the type it is given, no garden, and the material, the three extents and
    the floors of the profile of its type: hence at least one floor and
    extents of at least 20.  Its identifier "Building_<n>" with [n] in
    10000..99999, its rotation in [0, 360) and its population in 10..500 are
    the first three draws of the stream of the district index and depend on
    neither the type nor the location. *)
Theorem GenerateBuilding_fields `{Random} `{Trig} (G : AProceduralCityGenerator)
  (Ty : EBuildingType) (L : FVector) (i : Z) :
  let b := GenerateBuilding G Ty L i in
  let '(id, r, p) := BuildingDraws G i in
  let '(xy, z, fl, mat) := Profile Ty in
  (Location b = L /\ BuildingType b = Ty /\ bHasGarden b = false /\ Material b = mat)
  /\ (BuildingId b = Printf_d "Building_" id /\ (10000 <= id <= 99999)%Z)
  /\ (Rotation b = r * 360 /\ 0 <= Rotation b /\ Rotation b < 360)
  /\ (Building_Population b = p /\ (10 <= p <= 500)%Z)
  /\ (fst xy <= X (Size b) /\ X (Size b) <= snd xy)
  /\ (fst xy <= Y (Size b) /\ Y (Size b) <= snd xy)
  /\ (fst z <= Z_ (Size b) /\ Z_ (Size b) <= snd z)
  /\ (fst fl <= Floors b <= snd fl)%Z.
Proof. exact (GenerateBuilding_profile G Ty L i). Qed.

(** X11. [PopulateDistricts] changes nothing of a district but its
    buildings, keeps the buildings it finds, in front, and adds at most
    [BuildingsPerDistrict].  Every building it adds to district [i] is
    [GenerateBuilding] at the one point of the district and with district
    index [i]; in a residential, commercial or industrial district the type
    is the district's, so the added buildings are all one and the same
    building, identifier included. *)
Theorem PopulateDistricts_populated `{Random} `{Trig} (G : AProceduralCityGenerator) :
  Forall2 (fun '(i, D) D' => exists added, Populated G i D D' added)
    (combine (Zseq 0 (List.length (Districts G))) (Districts G))
    (Districts (PopulateDistricts G)).
Proof.
  unfold PopulateDistricts. cbn [set_Districts Districts].
  apply PopulateFrom_populated.
Qed.

Section Whole.
Context `{Random} `{Trig}.
Variable G : AProceduralCityGenerator.

(** With a negative density every attempt is skipped. *)
Lemma PlaceLoop_skipped (i : Z) (n : nat) :
  BuildingDensity G < 0 ->
  forall (j : Z) (D : FDistrict) (s : Stream),
    fst (for_loop n j (PlaceBuilding G i) D s) = D.
Proof.
  intros Hd. induction n as [|n IH]; intros j D s; cbn [for_loop].
  - reflexivity.
  - unfold bind at 1.
    assert (fst (PlaceBuilding G i j D s) = D) as Hskip.
    { unfold PlaceBuilding, bind, ret.
      pose proof (Stream_FRand_range s) as [Hr0 _].
      destruct (Stream_FRand s) as [r s1]. cbn [fst] in Hr0.
      assert (Qgtb r (BuildingDensity G) = true) as ->
        by (unfold Qgtb; apply Qltb_lt; lra).
      reflexivity. }
    destruct (PlaceBuilding G i j D s) as [D1 s1]. cbn [fst] in Hskip. subst D1.
    apply IH.
Qed.

Lemma PopulateFrom_skipped (ds : list FDistrict) :
  BuildingDensity G < 0 \/ (BuildingsPerDistrict G <= 0)%Z ->
  forall (i : Z) (s : Stream), fst (PopulateFrom G i ds s) = ds.
Proof.
  intros Hnone. induction ds as [|D ds IH]; intros i s; cbn [PopulateFrom].
  - reflexivity.
  - unfold bind, ret.
    assert (fst (for_loop (Z.to_nat (BuildingsPerDistrict G)) 0 (PlaceBuilding G i) D s)
            = D) as Hloop.
    { destruct Hnone as [Hd | Hb].
      - apply PlaceLoop_skipped. exact Hd.
      - replace (Z.to_nat (BuildingsPerDistrict G)) with 0%nat by lia. reflexivity. }
    destruct (for_loop _ 0%Z (PlaceBuilding G i) D s) as [D' s1]. cbn [fst] in Hloop.
    specialize (IH (i + 1)%Z s1).
    destruct (PopulateFrom G (i + 1) ds s1) as [rest s2]. cbn [fst] in *.
    subst. reflexivity.
Qed.

(** A district after [PopulateDistricts] is the district before, up to its
    buildings. *)
Lemma PopulateFrom_frame (ds : list FDistrict) :
  forall (i : Z) (s : Stream),
    Forall2
      (fun D D' =>
         exists added : list FBuilding,
           D' = set_Buildings (Buildings D ++ added) D
           /\ (List.length added <= Z.to_nat (BuildingsPerDistrict G))%nat
           /\ (1 <= BuildingDensity G ->
               List.length added = Z.to_nat (BuildingsPerDistrict G)))
      ds (fst (PopulateFrom G i ds s)).
Proof.
  induction ds as [|D ds IH]; intros i s; cbn [PopulateFrom].
  - constructor.
  - unfold bind, ret.
    destruct (PlaceLoop_populated G i (Z.to_nat (BuildingsPerDistrict G)) 0 D s)
      as (added & Hfst & Hlen & _).
    pose proof (CityFacts.PlaceLoop_effect G i (Z.to_nat (BuildingsPerDistrict G)) 0 D s)
      as (_ & _ & added' & Hb' & _ & Hdense).
    destruct (for_loop _ 0%Z (PlaceBuilding G i) D s) as [D' s1]. cbn [fst] in *.
    specialize (IH (i + 1)%Z s1).
    destruct (PopulateFrom G (i + 1) ds s1) as [rest s2]. cbn [fst] in *.
    constructor; [|exact IH].
    exists added. split; [exact Hfst|]. split; [exact Hlen|].
    intros Hd. specialize (Hdense Hd). subst D'.
    cbn [set_Buildings Buildings] in Hb'. apply app_inv_head in Hb'. subst. exact Hdense.
Qed.

Lemma Forall2_nth_error_l {A B : Type} (R : A -> B -> Prop) (l : list A) (l' : list B) :
  Forall2 R l l' ->
  forall (k : nat) (a : A),
    nth_error l k = Some a -> exists b, nth_error l' k = Some b /\ R a b.
Proof.
  induction 1 as [|a0 b0 l l' Hab _ IH]; intros k a Hk.
  - destruct k; discriminate Hk.
  - destruct k as [|k]; cbn in *.
    + inversion Hk; subst. exists b0. split; [reflexivity | exact Hab].
    + apply IH. exact Hk.
Qed.

End Whole.

Lemma laid_out_after `{Trig} (G : AProceduralCityGenerator) (zs : list Z)
  (new ds3 : list FDistrict) :
  Forall2 (fun i D => LaidOut G i D /\ Buildings D = []) zs new ->
  Forall2
    (fun D D' =>
       exists added : list FBuilding,
         D' = set_Buildings (Buildings D ++ added) D
         /\ (List.length added <= Z.to_nat (BuildingsPerDistrict G))%nat
         /\ (1 <= BuildingDensity G ->
             List.length added = Z.to_nat (BuildingsPerDistrict G)))
    new ds3 ->
  Forall2
    (fun i D =>
       LaidOut G i D
       /\ (List.length (Buildings D) <= Z.to_nat (BuildingsPerDistrict G))%nat
       /\ (1 <= BuildingDensity G ->
           List.length (Buildings D) = Z.to_nat (BuildingsPerDistrict G)))
    zs ds3.
Proof.
  intros Hlaid. revert ds3.
  induction Hlaid as [|i D zs new [HL HB] _ IH]; intros ds3 Hpop.
  - inversion Hpop. constructor.
  - inversion Hpop as [|D0 D' l l' (added & HD' & Hlen & Hdense) Hrest]; subst.
    constructor; [|apply IH; exact Hrest].
    rewrite HB. cbn [app set_Buildings Buildings].
    split; [|split; assumption].
    unfold LaidOut in *. cbn [DistrictName Center Radius District_Population DistrictType].
    exact HL.
Qed.

(** The districts and the roads [GenerateCity] leaves. *)
Lemma GenerateCity_whole `{Random} `{Trig} (G : AProceduralCityGenerator) :
  let ds := Districts (GenerateCity G) in
  let roads := RoadNetwork (GenerateCity G) in
  Forall2
    (fun i D =>
       LaidOut G i D
       /\ (List.length (Buildings D) <= Z.to_nat (BuildingsPerDistrict G))%nat
       /\ (1 <= BuildingDensity G ->
           List.length (Buildings D) = Z.to_nat (BuildingsPerDistrict G)))
    (Zseq 0 (Z.to_nat (NumberOfDistricts G))) ds
  /\ List.length roads = (2 * List.length ds)%nat
  /\ Forall
       (fun k =>
          exists Dk Dnext : FDistrict,
            nth_error ds k = Some Dk
            /\ nth_error ds ((k + 1) mod List.length ds) = Some Dnext
            /\ nth_error roads (2 * k)
               = Some (MkRoad (Center Dk) (Center Dnext) 25 "main")
            /\ nth_error roads (2 * k + 1)
               = Some (MkRoad (Center Dk) (ActorLocation G) 15 "secondary"))
       (seq 0 (List.length ds)).
Proof.
  cbv zeta. unfold GenerateCity.
  set (G1 := GenerateDistricts (ClearCity G)).
  set (G2 := GenerateRoadNetwork G1).
  pose proof (GenerateDistrict_loop (ClearCity G) (Z.to_nat (NumberOfDistricts G)) []
                (FRandomStream (RandomSeed G))) as (new & Hnew & Hlaid).
  cbn [List.length Z.of_nat app] in Hnew, Hlaid.
  change (Forall2 (fun i D => LaidOut G i D /\ Buildings D = [])
            (Zseq 0 (Z.to_nat (NumberOfDistricts G))) new) in Hlaid.
  assert (Districts G1 = new) as Hds1 by exact Hnew.
  destruct (GenerateRoadNetwork_roads G1) as (Hds2 & Hrl & Hroads).
  fold G2 in Hds2, Hrl, Hroads.
  change (ActorLocation G1) with (ActorLocation G) in Hroads.
  pose proof (PopulateFrom_frame G2 (Districts G2) 0
                (FRandomStream (wrap32 (RandomSeed G + 2)))) as Hpop.
  change (BuildingsPerDistrict G2) with (BuildingsPerDistrict G) in Hpop.
  change (BuildingDensity G2) with (BuildingDensity G) in Hpop.
  assert (Districts (PopulateDistricts G2)
          = fst (PopulateFrom G2 0 (Districts G2)
                   (FRandomStream (wrap32 (RandomSeed G + 2))))) as Hds3 by reflexivity.
  assert (RoadNetwork (PopulateDistricts G2) = RoadNetwork G2) as Hr3 by reflexivity.
  rewrite Hr3, Hds3.
  remember (fst (PopulateFrom G2 0 (Districts G2)
                   (FRandomStream (wrap32 (RandomSeed G + 2))))) as ds3 eqn:Eds3.
  clear Eds3 Hds3 Hr3.
  assert (List.length ds3 = List.length (Districts G2)) as Hlen3
    by (symmetry; exact (Forall2_length Hpop)).
  split; [|split].
  - rewrite Hds2, Hds1 in Hpop. exact (laid_out_after Hlaid Hpop).
  - rewrite Hlen3, Hds2. exact Hrl.
  - rewrite Hlen3, Hds2.
    eapply Forall_impl; [|exact Hroads].
    intros k (Dk & Dn & H1 & H2 & H3 & H4). cbv beta in *.
    rewrite Hds2 in Hpop.
    destruct (Forall2_nth_error_l Hpop k H1) as (Dk' & Hk' & (a1 & -> & _)).
    destruct (Forall2_nth_error_l Hpop _ H2) as (Dn' & Hn' & (a2 & -> & _)).
    exists (set_Buildings (Buildings Dk ++ a1) Dk), (set_Buildings (Buildings Dn ++ a2) Dn).
    split; [exact Hk'|]. split; [exact Hn'|].
    cbn [set_Buildings Center]. split; assumption.
Qed.

(** X12. With a negative [BuildingDensity], or with [BuildingsPerDistrict]
    at most 0, [PopulateDistricts] leaves every district as it is. *)
Theorem PopulateDistricts_nothing `{Random} `{Trig} (G : AProceduralCityGenerator) :
  BuildingDensity G < 0 \/ (BuildingsPerDistrict G <= 0)%Z ->
  Districts (PopulateDistricts G) = Districts G.
Proof.
  intros Hnone. unfold PopulateDistricts. cbn [set_Districts Districts].
  apply PopulateFrom_skipped. exact Hnone.
Qed.

Lemma PopulateDistricts_nothing_witness :
  (BuildingDensity (@GenerateDistricts ReferenceEngine.engine ReferenceTrig.trig
                      Inputs.CityNegativeDensity) < 0
   \/ (BuildingsPerDistrict (@GenerateDistricts ReferenceEngine.engine ReferenceTrig.trig
                               Inputs.CityNegativeDensity) <= 0)%Z)
  /\ Districts (@PopulateDistricts ReferenceEngine.engine ReferenceTrig.trig
                  (@GenerateDistricts ReferenceEngine.engine ReferenceTrig.trig
                     Inputs.CityNegativeDensity))
     = Districts (@GenerateDistricts ReferenceEngine.engine ReferenceTrig.trig
                    Inputs.CityNegativeDensity).
Proof.
  assert (BuildingDensity (@GenerateDistricts ReferenceEngine.engine ReferenceTrig.trig
                             Inputs.CityNegativeDensity) < 0
          \/ (BuildingsPerDistrict (@GenerateDistricts ReferenceEngine.engine
                                      ReferenceTrig.trig Inputs.CityNegativeDensity) <= 0)%Z)
    as Hnone by (left; cbn; lra).
  split; [exact Hnone|].
  exact (@PopulateDistricts_nothing ReferenceEngine.engine ReferenceTrig.trig
           (@GenerateDistricts ReferenceEngine.engine ReferenceTrig.trig
              Inputs.CityNegativeDensity) Hnone).
Defined.

(** X13. What [GenerateCity] leaves, whatever the object held before:
    [max 0 NumberOfDistricts] districts laid out as by [GenerateDistricts],
    each with at most [BuildingsPerDistrict] buildings, and exactly that many
    when the density is at least 1; and two roads per district that join the
    centres of these districts in a ring and each centre to the actor. *)
Theorem GenerateCity_layout `{Random} `{Trig} (G : AProceduralCityGenerator) :
  let ds := Districts (GenerateCity G) in
  let roads := RoadNetwork (GenerateCity G) in
  Forall2
    (fun i D =>
       LaidOut G i D
       /\ (List.length (Buildings D) <= Z.to_nat (BuildingsPerDistrict G))%nat
       /\ (1 <= BuildingDensity G ->
           List.length (Buildings D) = Z.to_nat (BuildingsPerDistrict G)))
    (Zseq 0 (Z.to_nat (NumberOfDistricts G))) ds
  /\ List.length roads = (2 * List.length ds)%nat
  /\ Forall
       (fun k =>
          exists Dk Dnext : FDistrict,
            nth_error ds k = Some Dk
            /\ nth_error ds ((k + 1) mod List.length ds) = Some Dnext
            /\ nth_error roads (2 * k)
               = Some (MkRoad (Center Dk) (Center Dnext) 25 "main")
            /\ nth_error roads (2 * k + 1)
               = Some (MkRoad (Center Dk) (ActorLocation G) 15 "secondary"))
       (seq 0 (List.length ds)).
Proof. exact (GenerateCity_whole G). Qed.

End CityMore.


(* ------------------------------------------------------------------ *)
(** * Further properties of the weapon generator *)

Module WeaponMore.
Import Weapon WeaponTerms.

Lemma trunc_int32_upper (q : Q) (z : Z) : 0 <= q -> q <= inject_Z z -> (trunc_int32 q <= z)%Z.
Proof.
  destruct q as [n d]. unfold trunc_int32, Qle, inject_Z. cbn [Qnum Qden].
  intros H0 Hle. rewrite Z.mul_1_r in H0, Hle.
  rewrite Z.quot_div_nonneg by lia.
  apply Z.div_le_upper_bound; lia.
Qed.

Lemma trunc_int32_lower (q : Q) (z : Z) : (0 <= z)%Z -> inject_Z z <= q -> (z <= trunc_int32 q)%Z.
Proof.
  destruct q as [n d]. unfold trunc_int32, Qle, inject_Z. cbn [Qnum Qden].
  intros Hz Hle. rewrite Z.mul_1_r in Hle.
  rewrite Z.quot_div_nonneg by nia.
  apply Z.div_le_lower_bound; lia.
Qed.

Section Facts.
Context `{Random}.
Variable G : AProceduralWeaponGenerator.

(** [AddEnchantment] changes the enchantment list only, by appending nothing
    or one entry of the library. *)
Lemma AddEnchantment_shape (W : FWeapon) (e : EElementalType) (g : GlobalRand) :
  exists added : list string,
    fst (AddEnchantment G W e g) = set_Enchantments (Enchantments W ++ added) W
    /\ Forall (fun x => In x (EnchantmentLibrary G)) added
    /\ (List.length added <= 1)%nat.
Proof.
  assert (Hid : set_Enchantments (Enchantments W ++ []) W = W)
    by (destruct W; cbn; rewrite app_nil_r; reflexivity).
  unfold AddEnchantment, bind, ret.
  destruct (_ <=? _)%Z; [exists []; rewrite Hid; repeat split; auto|].
  destruct (FMath_RandRange _ _ g) as [i g'].
  destruct (Z.leb_spec 0 i); cbn [andb];
    [|exists []; rewrite Hid; repeat split; auto].
  destruct (Z.ltb_spec i (Z.of_nat (List.length (EnchantmentLibrary G))));
    [|exists []; rewrite Hid; repeat split; auto].
  eexists [_]. split; [reflexivity|]. split; [|cbn; lia].
  constructor; [|constructor]. apply nth_In. lia.
Qed.

Lemma EnchantLoop_shape (n : nat) :
  forall (i Num : Z) (W : FWeapon) (g : GlobalRand),
    exists added : list string,
      fst (EnchantLoop G n i Num W g) = set_Enchantments (Enchantments W ++ added) W
      /\ Forall (fun x => In x (EnchantmentLibrary G)) added.
Proof.
  induction n as [|n IH]; intros i Num W g; cbn [EnchantLoop].
  - exists []. split; [|constructor].
    destruct W; cbn; rewrite app_nil_r; reflexivity.
  - destruct (_ && _).
    + unfold bind.
      destruct (AddEnchantment_shape W (Element W) g) as (a1 & H1 & Hin1 & _).
      destruct (AddEnchantment G W (Element W) g) as [W1 g1]. cbn [fst] in H1. subst W1.
      destruct (IH (i + 1)%Z Num (set_Enchantments (Enchantments W ++ a1) W) g1)
        as (a2 & H2 & Hin2).
      exists (a1 ++ a2). rewrite H2. cbn [set_Enchantments Enchantments].
      rewrite app_assoc. split; [reflexivity|]. apply Forall_app. split; assumption.
    + exists []. split; [|constructor].
      destruct W; cbn; rewrite app_nil_r; reflexivity.
Qed.

(** [GenerateWeapon] as one expression of its draws. *)
Lemma GenerateWeapon_shape (Ty : EWeaponType) (Level : Z) (g : GlobalRand) :
  exists (id : Z) (r : Q) (el : Z) (added : list string),
    (0 <= id)%Z /\ (0 <= el <= 7)%Z
    /\ Forall (fun x => In x (EnchantmentLibrary G)) added
    /\ fst (GenerateWeapon G Ty Level g)
       = (let W := set_Enchantments added (BeforeEnchantments G Ty Level id r el) in
          set_GoldValue (CalculateWeaponValue W) W).
Proof.
  unfold GenerateWeapon, DetermineRarity, bind, ret.
  pose proof (FMath_Rand_range g) as Hid.
  destruct (FMath_Rand g) as [id g1]. cbn [fst] in Hid.
  destruct (FMath_FRand g1) as [r g2].
  pose proof (@FMath_RandRange_range _ 0 7 g2 ltac:(lia)) as Hel.
  destruct (FMath_RandRange 0 7 g2) as [el g3]. cbn [fst] in Hel.
  match goal with
  | |- context [EnchantLoop G ?n ?i ?m (CalculateWeaponStats G ?W0 ?L) g3] =>
      destruct (EnchantLoop_shape n i m (CalculateWeaponStats G W0 L) g3)
        as (added & Hloop & Hin);
      pose proof (WeaponFacts.CalculateWeaponStats_frame G W0 L) as (_ & HE & _ & _);
      destruct (EnchantLoop G n i m (CalculateWeaponStats G W0 L) g3) as [W' g4]
  end.
  cbn [fst] in *. subst W'.
  exists id, r, el, added. split; [exact Hid|]. split; [exact Hel|]. split; [exact Hin|].
  rewrite HE. reflexivity.
Qed.

Lemma CalculateWeaponStats_damage (W : FWeapon) (Level : Z) :
  Damage (Stats (CalculateWeaponStats G W Level))
  = BaseDamage (Type_ W) * (1 + to_float Level * 0.1)
    * (1 + to_float (EWeaponRarity_to_int (Rarity W)) * 0.3)
  /\ CriticalChance (Stats (CalculateWeaponStats G W Level))
     = match Type_ W with Dagger => 0.2 | _ => CriticalChance (Stats W) end
       + to_float (EWeaponRarity_to_int (Rarity W)) * 0.02.
Proof.
  destruct W as [i n t r e s l en w d v u]. unfold CalculateWeaponStats.
  cbn [Type_ Rarity Stats]. destruct t; split; reflexivity.
Qed.

Lemma to_float_nonneg (z : Z) : (0 <= z)%Z -> 0 <= to_float z.
Proof. intros Hz. unfold to_float, Qle, inject_Z. cbn. lia. Qed.

Lemma to_float_lt (a b : Z) : (a < b)%Z -> to_float a < to_float b.
Proof. intros Hlt. unfold to_float, Qlt, inject_Z. cbn. lia. Qed.

Lemma BaseDamage_lower (t : EWeaponType) : 12 <= BaseDamage t.
Proof. destruct t; unfold Qle; cbn; lia. Qed.

Lemma rank_nonneg (r : EWeaponRarity) : (0 <= EWeaponRarity_to_int r)%Z.
Proof. destruct r; cbn; lia. Qed.

Lemma rank_at_most (r : EWeaponRarity) : (EWeaponRarity_to_int r <= 4)%Z.
Proof. destruct r; cbn; lia. Qed.

Lemma BaseDamage_upper (t : EWeaponType) : BaseDamage t <= 35.
Proof. destruct t; unfold Qle; cbn; lia. Qed.

(** The enchantment loop adds at most one enchantment per iteration. *)
Lemma EnchantLoop_at_most (n : nat) :
  forall (i Num : Z) (W : FWeapon) (g : GlobalRand),
    (List.length (Enchantments (fst (EnchantLoop G n i Num W g)))
     <= List.length (Enchantments W) + n)%nat.
Proof.
  induction n as [|n IH]; intros i Num W g; cbn [EnchantLoop].
  - cbn [ret fst]. lia.
  - destruct (_ && _); [|cbn [ret fst]; lia].
    unfold bind.
    destruct (AddEnchantment_shape W (Element W) g) as (a1 & H1 & _ & Hle).
    destruct (AddEnchantment G W (Element W) g) as [W1 g1]. cbn [fst] in H1. subst W1.
    specialize (IH (i + 1)%Z Num (set_Enchantments (Enchantments W ++ a1) W) g1).
    cbn [set_Enchantments Enchantments] in IH. rewrite length_app in IH. lia.
Qed.

(** No rarity asks for more than four enchantments. *)
Lemma GenerateWeapon_at_most_four (Ty : EWeaponType) (Level : Z) (g : GlobalRand) :
  (List.length (Enchantments (fst (GenerateWeapon G Ty Level g))) <= 4)%nat.
Proof.
  unfold GenerateWeapon, DetermineRarity, bind, ret.
  destruct (FMath_Rand g) as [id g1].
  destruct (FMath_FRand g1) as [r g2].
  destruct (FMath_RandRange 0 7 g2) as [el g3].
  match goal with
  | |- context [EnchantLoop G ?n ?i ?m (CalculateWeaponStats G ?W0 ?L) g3] =>
      pose proof (EnchantLoop_at_most n i m (CalculateWeaponStats G W0 L) g3) as Hlen;
      pose proof (WeaponFacts.CalculateWeaponStats_frame G W0 L) as (HR & HE & _ & _);
      assert (n <= 4)%nat as Hn
        by (rewrite HR; cbn [set_WeaponName set_Element set_RequiredLevel set_Rarity
                             Rarity];
            destruct (RarityOfDraw G r); cbn [NumEnchantmentsOf]; lia);
      destruct (EnchantLoop G n i m (CalculateWeaponStats G W0 L) g3) as [W' g4]
  end.
  cbn [fst set_GoldValue Enchantments] in *.
  rewrite HE in Hlen.
  cbn [set_WeaponName set_Element set_RequiredLevel set_Rarity set_Type set_WeaponId
       FWeapon_default Enchantments List.length] in Hlen.
  lia.
Qed.

End Facts.


Lemma CalculateWeaponStats_keeps `{Random} (G : AProceduralWeaponGenerator)
  (W : FWeapon) (Level : Z) :
  WeaponName (CalculateWeaponStats G W Level) = WeaponName W
  /\ WeaponId (CalculateWeaponStats G W Level) = WeaponId W
  /\ Element (CalculateWeaponStats G W Level) = Element W
  /\ Description (CalculateWeaponStats G W Level) = Description W
  /\ bIsUnique (CalculateWeaponStats G W Level) = bIsUnique W
  /\ GoldValue (CalculateWeaponStats G W Level) = GoldValue W.
Proof.
  destruct W as [i n t r e s l en w d v u]. unfold CalculateWeaponStats.
  cbn [Type_]. destruct t; repeat split; reflexivity.
Qed.

(** The fields of the weapon that enters the enchantment loop. *)
Lemma BeforeEnchantments_fields `{Random} (G : AProceduralWeaponGenerator)
  (Ty : EWeaponType) (Level : Z) (id : Z) (r : Q) (el : Z) :
  let W := BeforeEnchantments G Ty Level id r el in
  let rank := to_float (EWeaponRarity_to_int (RarityOfDraw G r)) in
  (Type_ W = Ty /\ RequiredLevel W = Level /\ Rarity W = RarityOfDraw G r
   /\ Element W = EElementalType_of_int el)
  /\ (WeaponName W = GenerateWeaponName Ty (RarityOfDraw G r) (EElementalType_of_int el)
      /\ WeaponId W = Printf_d "WPN_" id)
  /\ (Enchantments W = [] /\ Description W = ""%string /\ bIsUnique W = false)
  /\ Damage (Stats W) = BaseDamage Ty * (1 + to_float Level * 0.1) * (1 + rank * 0.3)
  /\ CriticalChance (Stats W)
     = match Ty with Dagger => 0.2 | _ => 0.05 end + rank * 0.02.
Proof.
  cbv zeta. unfold BeforeEnchantments.
  match goal with
  | |- context [CalculateWeaponStats G ?W0 Level] =>
      pose proof (WeaponFacts.CalculateWeaponStats_frame G W0 Level) as (HR & HE & HT & HL);
      pose proof (CalculateWeaponStats_damage G W0 Level) as (HD & HC);
      pose proof (CalculateWeaponStats_keeps G W0 Level) as (HN & HI & HEl & HDe & HU & _);
      rewrite HR, HE, HT, HL, HD, HC, HN, HI, HEl, HDe, HU
  end.
  clear. repeat split. 
Qed.

(** X14. Whatever is drawn, the weapon [GenerateWeapon] returns has the
    requested type and level, the name [GenerateWeaponName] gives for its own
    type, rarity and element, the value [CalculateWeaponValue] gives for the
    weapon itself (enchantments included), an identifier "WPN_<n>" with a
    non-negative [n], enchantments taken from the library only, the damage
    [base * (1 + 0.1 * level) * (1 + 0.3 * rank)] of its type and the
    critical chance [0.05 + 0.02 * rank] (0.2 in place of 0.05 for a Dagger);
    it never has a description and is never unique. *)
Theorem GenerateWeapon_consistent `{Random} (G : AProceduralWeaponGenerator)
  (Ty : EWeaponType) (Level : Z) (g : GlobalRand) :
  let W := fst (GenerateWeapon G Ty Level g) in
  let rank := to_float (EWeaponRarity_to_int (Rarity W)) in
  (Type_ W = Ty /\ RequiredLevel W = Level)
  /\ WeaponName W = GenerateWeaponName (Type_ W) (Rarity W) (Element W)
  /\ GoldValue W = CalculateWeaponValue W
  /\ (exists id : Z, (0 <= id)%Z /\ WeaponId W = Printf_d "WPN_" id)
  /\ Forall (fun x => In x (EnchantmentLibrary G)) (Enchantments W)
  /\ Damage (Stats W) = BaseDamage Ty * (1 + to_float Level * 0.1) * (1 + rank * 0.3)
  /\ CriticalChance (Stats W)
     = match Ty with Dagger => 0.2 | _ => 0.05 end + rank * 0.02
  /\ Description W = ""%string /\ bIsUnique W = false.
Proof.
  cbv zeta.
  destruct (GenerateWeapon_shape G Ty Level g) as (id & r & el & added & Hid & Hel & Hin & ->).
  pose proof (BeforeEnchantments_fields G Ty Level id r el) as Hf. cbv zeta in Hf.
  destruct Hf as ((HT & HL & HR & HEl) & (HN & HI) & (HE & HDe & HU) & HD & HC).
  revert HT HL HR HEl HN HI HE HDe HU HD HC.
  generalize (BeforeEnchantments G Ty Level id r el) as W1.
  intros W1 HT HL HR HEl HN HI HE HDe HU HD HC. cbv zeta.
  unfold CalculateWeaponValue.
  cbn [set_GoldValue set_Enchantments Type_ RequiredLevel WeaponName Rarity Element
       GoldValue WeaponId Enchantments Stats Description bIsUnique].
  rewrite HT, HL, HR, HEl, HN, HI, HDe, HU, HD, HC.
  split; [split; reflexivity|]. split; [reflexivity|]. split; [reflexivity|].
  split; [exists id; split; [exact Hid | reflexivity]|].
  split; [exact Hin|]. split; [reflexivity|]. split; [reflexivity|]. split; reflexivity.
Qed.

(** X15. With an empty enchantment library, as the object has it before
    [BeginPlay], [GenerateWeapon] returns a weapon without enchantments,
    whatever its rarity; the guard on the drawn index keeps [AddEnchantment]
    from reading the empty array. *)
Theorem GenerateWeapon_empty_library `{Random} (G : AProceduralWeaponGenerator)
  (Ty : EWeaponType) (Level : Z) (g : GlobalRand) :
  EnchantmentLibrary G = [] ->
  Enchantments (fst (GenerateWeapon G Ty Level g)) = [].
Proof.
  intros Hlib.
  destruct (GenerateWeapon_shape G Ty Level g) as (id & r & el & added & _ & _ & Hin & ->).
  cbv zeta. cbn [set_GoldValue set_Enchantments Enchantments].
  destruct added as [|x added]; [reflexivity|].
  inversion Hin as [|x0 l Hx _]; subst. rewrite Hlib in Hx. destruct Hx.
Qed.

Lemma GenerateWeapon_empty_library_witness :
  EnchantmentLibrary Generator_default = []
  /\ Enchantments
       (fst (@GenerateWeapon ReferenceEngine.engine Generator_default Sword 1
               [17; 100; 3; 5; 6; 7]%Z))
     = [].
Proof.
  assert (EnchantmentLibrary Generator_default = []) as Hlib by reflexivity.
  split; [exact Hlib|].
  exact (@GenerateWeapon_empty_library ReferenceEngine.engine Generator_default Sword 1
           [17; 100; 3; 5; 6; 7]%Z Hlib).
Defined.

(** X16. Below the cap and with a non-empty library, [AddEnchantment]
    appends exactly one entry of the library at the end of the enchantment
    list and changes no other field; the element it is given plays no part. *)
Theorem AddEnchantment_appends_one `{Random} (G : AProceduralWeaponGenerator)
  (W : FWeapon) (e : EElementalType) (g : GlobalRand) :
  EnchantmentLibrary G <> [] ->
  (Z.of_nat (List.length (Enchantments W)) < MaxEnchantments G)%Z ->
  exists x : string,
    In x (EnchantmentLibrary G)
    /\ fst (AddEnchantment G W e g) = set_Enchantments (Enchantments W ++ [x]) W
    /\ AddEnchantment G W e g = AddEnchantment G W Pure g.
Proof.
  intros Hlib Hroom.
  pose proof (@WeaponFacts.AddEnchantment_appends _ G W e g Hlib Hroom) as Hlen.
  destruct (AddEnchantment_shape G W e g) as (added & Hfst & Hin & Hle).
  rewrite Hfst in Hlen. cbn [set_Enchantments Enchantments] in Hlen.
  rewrite length_app in Hlen.
  destruct added as [|x [|y added]]; cbn [List.length] in Hlen; try lia.
  exists x. split; [inversion Hin; assumption|]. split; [exact Hfst | reflexivity].
Qed.

Lemma AddEnchantment_appends_one_witness :
  (EnchantmentLibrary Inputs.WeaponGen <> []
   /\ (Z.of_nat (List.length (Enchantments FWeapon_default))
       < MaxEnchantments Inputs.WeaponGen)%Z)
  /\ exists x : string,
       In x (EnchantmentLibrary Inputs.WeaponGen)
       /\ fst (@AddEnchantment ReferenceEngine.engine Inputs.WeaponGen FWeapon_default
                 Fire [5; 6]%Z)
          = set_Enchantments (Enchantments FWeapon_default ++ [x]) FWeapon_default
       /\ @AddEnchantment ReferenceEngine.engine Inputs.WeaponGen FWeapon_default Fire
            [5; 6]%Z
          = @AddEnchantment ReferenceEngine.engine Inputs.WeaponGen FWeapon_default Pure
              [5; 6]%Z.
Proof.
  assert (EnchantmentLibrary Inputs.WeaponGen <> []) as Hlib by (cbn; discriminate).
  assert (Z.of_nat (List.length (Enchantments FWeapon_default))
          < MaxEnchantments Inputs.WeaponGen)%Z as Hroom by (cbn; lia).
  split; [split; assumption|].
  exact (@AddEnchantment_appends_one ReferenceEngine.engine Inputs.WeaponGen
           FWeapon_default Fire [5; 6]%Z Hlib Hroom).
Defined.

(** X17. For a level of at least 0, [CalculateWeaponStats] gives a weapon at
    least the base damage of its type, which is at least 12, and of two
    weapons of one type the rarer one strictly more damage. *)
Theorem CalculateWeaponStats_rarity `{Random} (G : AProceduralWeaponGenerator)
  (W1 W2 : FWeapon) (Level : Z) :
  (0 <= Level)%Z -> Type_ W1 = Type_ W2 ->
  (EWeaponRarity_to_int (Rarity W1) < EWeaponRarity_to_int (Rarity W2))%Z ->
  12 <= BaseDamage (Type_ W1)
  /\ BaseDamage (Type_ W1) <= Damage (Stats (CalculateWeaponStats G W1 Level))
  /\ Damage (Stats (CalculateWeaponStats G W1 Level))
     < Damage (Stats (CalculateWeaponStats G W2 Level)).
Proof.
  intros HL HT Hlt.
  destruct (CalculateWeaponStats_damage G W1 Level) as [-> _].
  destruct (CalculateWeaponStats_damage G W2 Level) as [-> _].
  rewrite <- HT.
  pose proof (BaseDamage_lower (Type_ W1)) as Hb.
  pose proof (to_float_nonneg HL) as Hl.
  pose proof (to_float_nonneg (rank_nonneg (Rarity W1))) as Hr1.
  pose proof (to_float_lt Hlt) as Hr.
  set (b := BaseDamage (Type_ W1)) in *. set (l := to_float Level) in *.
  set (r1 := to_float (EWeaponRarity_to_int (Rarity W1))) in *.
  set (r2 := to_float (EWeaponRarity_to_int (Rarity W2))) in *.
  assert (12 <= b * (1 + l * 0.1)) as Hbl by nra.
  split; [exact Hb|]. split; nra.
Qed.

Lemma CalculateWeaponStats_rarity_witness :
  ((0 <= 1)%Z /\ Type_ FWeapon_default = Type_ (set_Rarity Epic FWeapon_default)
   /\ (EWeaponRarity_to_int (Rarity FWeapon_default)
       < EWeaponRarity_to_int (Rarity (set_Rarity Epic FWeapon_default)))%Z)
  /\ (12 <= BaseDamage (Type_ FWeapon_default)
      /\ BaseDamage (Type_ FWeapon_default)
         <= Damage (Stats (@CalculateWeaponStats ReferenceEngine.engine Inputs.WeaponGen
                             FWeapon_default 1))
      /\ Damage (Stats (@CalculateWeaponStats ReferenceEngine.engine Inputs.WeaponGen
                          FWeapon_default 1))
         < Damage (Stats (@CalculateWeaponStats ReferenceEngine.engine Inputs.WeaponGen
                            (set_Rarity Epic FWeapon_default) 1))).
Proof.
  assert (0 <= 1)%Z as HL by lia.
  assert (Type_ FWeapon_default = Type_ (set_Rarity Epic FWeapon_default)) as HT
    by reflexivity.
  assert (EWeaponRarity_to_int (Rarity FWeapon_default)
          < EWeaponRarity_to_int (Rarity (set_Rarity Epic FWeapon_default)))%Z as Hlt
    by (cbn; lia).
  split; [repeat split; assumption|].
  exact (@CalculateWeaponStats_rarity ReferenceEngine.engine Inputs.WeaponGen
           FWeapon_default (set_Rarity Epic FWeapon_default) 1 HL HT Hlt).
Defined.

(** X18. For a level from 0 to 10^6 (the cast of [Damage * 5] and the sum
    then stay inside [int32]) the value of the weapon [GenerateWeapon]
    returns is the base 100, the rarity share [200 * rank], the enchantment
    share [150 * (number of enchantments)], and a damage share from 60 to
    [385 + 39 * Level]; it stays below [2 ^ 31]. *)
Theorem GenerateWeapon_value `{Random} (G : AProceduralWeaponGenerator)
  (Ty : EWeaponType) (Level : Z) (g : GlobalRand) :
  (0 <= Level <= 1000000)%Z ->
  let W := fst (GenerateWeapon G Ty Level g) in
  let shares :=
    (100 + 200 * EWeaponRarity_to_int (Rarity W)
     + 150 * Z.of_nat (List.length (Enchantments W)))%Z in
  (shares + 60 <= GoldValue W)%Z
  /\ (GoldValue W <= shares + 385 + 39 * Level)%Z
  /\ (GoldValue W < 2 ^ 31)%Z.
Proof.
  intros [HL HLmax]. cbv zeta.
  pose proof (GenerateWeapon_at_most_four G Ty Level g) as Hfour.
  destruct (GenerateWeapon_shape G Ty Level g) as (id & r & el & added & _ & _ & _ & E).
  rewrite E in Hfour |- *. clear E.
  pose proof (BeforeEnchantments_fields G Ty Level id r el) as Hf. cbv zeta in Hf.
  destruct Hf as ((_ & _ & HR & _) & _ & _ & HD & _).
  revert HR HD Hfour. generalize (BeforeEnchantments G Ty Level id r el) as W1.
  intros W1 HR HD Hfour. cbv zeta in Hfour |- *. unfold CalculateWeaponValue.
  cbn [set_GoldValue set_Enchantments Rarity GoldValue Enchantments Stats] in Hfour |- *.
  pose proof (rank_nonneg (Rarity W1)) as Hk0.
  pose proof (rank_at_most (Rarity W1)) as Hk4.
  assert (60 <= trunc_int32 (Damage (Stats W1) * 5)
          /\ trunc_int32 (Damage (Stats W1) * 5) <= 385 + 39 * Level)%Z as [Hlo Hhi].
  { rewrite HD.
    pose proof (BaseDamage_lower Ty) as Hb.
    pose proof (BaseDamage_upper Ty) as Hb'.
    pose proof (to_float_nonneg HL) as Hl.
    pose proof (to_float_nonneg (rank_nonneg (RarityOfDraw G r))) as Hr0.
    assert (to_float (EWeaponRarity_to_int (RarityOfDraw G r)) <= 4) as Hr4.
    { pose proof (rank_at_most (RarityOfDraw G r)) as Hz.
      unfold to_float, Qle, inject_Z. cbn. lia. }
    assert (inject_Z (385 + 39 * Level) == 385 + 39 * to_float Level) as Hinj.
    { unfold to_float. rewrite inject_Z_plus, inject_Z_mult. reflexivity. }
    set (b := BaseDamage Ty) in *. set (l := to_float Level) in *.
    set (k := to_float (EWeaponRarity_to_int (RarityOfDraw G r))) in *.
    assert (12 <= b * (1 + l * 0.1)) as Hbl by nra.
    assert (b * (1 + l * 0.1) <= 35 * (1 + l * 0.1)) as Hbu by nra.
    assert (12 <= b * (1 + l * 0.1) * (1 + k * 0.3)) as Hblk by nra.
    assert (b * (1 + l * 0.1) * (1 + k * 0.3) <= 35 * (1 + l * 0.1) * 2.2) as Hbuk by nra.
    split.
    - apply trunc_int32_lower; [lia|]. change (inject_Z 60) with 60. lra.
    - apply trunc_int32_upper; [lra|]. rewrite Hinj. lra. }
  rewrite HR in Hk0, Hk4 |- *.
  assert (2 ^ 31 = 2147483648)%Z as -> by reflexivity.
  lia.
Qed.

Lemma GenerateWeapon_value_witness :
  (0 <= 1 <= 1000000)%Z
  /\ (let W :=
        fst (@GenerateWeapon ReferenceEngine.engine Inputs.WeaponGen Sword 1
               [17; 100; 3; 5; 6; 7]%Z) in
      let shares :=
        (100 + 200 * EWeaponRarity_to_int (Rarity W)
         + 150 * Z.of_nat (List.length (Enchantments W)))%Z in
      (shares + 60 <= GoldValue W)%Z
      /\ (GoldValue W <= shares + 385 + 39 * 1)%Z
      /\ (GoldValue W < 2 ^ 31)%Z).
Proof.
  assert (0 <= 1 <= 1000000)%Z as HL by lia.
  split; [exact HL|].
  exact (@GenerateWeapon_value ReferenceEngine.engine Inputs.WeaponGen Sword 1
           [17; 100; 3; 5; 6; 7]%Z HL).
Defined.

Section WeaponSet.
Context `{Random}.

Lemma GenerateWeaponSetLoop_shape (n : nat) (Level : Z) :
  forall (G : AProceduralWeaponGenerator) (acc : list FWeapon) (g : GlobalRand),
    exists new : list FWeapon,
      List.length new = n
      /\ Forall (fun w => RequiredLevel w = Level) new
      /\ fst (GenerateWeaponSetLoop n Level G acc g)
         = (acc ++ new,
            MkGenerator (RandomSeed G) (MaxEnchantments G) (LegendaryChance G)
              (EpicChance G) (RareChance G) (GeneratedWeapons G ++ new)
              (EnchantmentLibrary G)).
Proof.
  induction n as [|n IH]; intros G acc g; cbn [GenerateWeaponSetLoop].
  - exists []. rewrite !app_nil_r. destruct G. repeat split; constructor.
  - unfold bind at 1.
    assert (RequiredLevel (fst (GenerateRandomWeapon G Level g)) = Level) as Hlvl.
    { unfold GenerateRandomWeapon, bind.
      destruct (FMath_RandRange 0 9 g) as [t g1].
      apply WeaponFacts.GenerateWeapon_type_level. }
    destruct (GenerateRandomWeapon G Level g) as [w g1]. cbn [fst] in Hlvl.
    destruct (IH (MkGenerator (RandomSeed G) (MaxEnchantments G) (LegendaryChance G)
                    (EpicChance G) (RareChance G) (GeneratedWeapons G ++ [w])
                    (EnchantmentLibrary G)) (acc ++ [w]) g1)
      as (new & Hlen & Hall & Hfst).
    exists (w :: new). split; [cbn; lia|]. split; [constructor; assumption|].
    rewrite Hfst. cbn [RandomSeed MaxEnchantments LegendaryChance EpicChance RareChance
                       GeneratedWeapons EnchantmentLibrary].
    rewrite <- !app_assoc. reflexivity.
Qed.

End WeaponSet.

(** X19. [GenerateWeaponSet] returns [max 0 Count] weapons, all of the
    requested level, appends the very same weapons, in the same order, to
    [GeneratedWeapons], and changes nothing else of the generator. *)
Theorem GenerateWeaponSet_records `{Random} (G : AProceduralWeaponGenerator)
  (Count Level : Z) (g : GlobalRand) :
  let WeaponSet := fst (fst (GenerateWeaponSet G Count Level g)) in
  let G' := snd (fst (GenerateWeaponSet G Count Level g)) in
  List.length WeaponSet = Z.to_nat Count
  /\ Forall (fun w => RequiredLevel w = Level) WeaponSet
  /\ G' = MkGenerator (RandomSeed G) (MaxEnchantments G) (LegendaryChance G)
            (EpicChance G) (RareChance G) (GeneratedWeapons G ++ WeaponSet)
            (EnchantmentLibrary G).
Proof.
  cbv zeta. unfold GenerateWeaponSet.
  destruct (GenerateWeaponSetLoop_shape (Z.to_nat Count) Level G [] g)
    as (new & Hlen & Hall & ->).
  cbn [fst snd app]. repeat split; assumption.
Qed.

End WeaponMore.

(* ------------------------------------------------------------------ *)
(** * Properties of the exported documents *)

Module ExportFacts.
Import Json.

Lemma map_eq_Forall2 (A B : Type) (f : A -> B) :
  forall l1 l2 : list A,
    map f l1 = map f l2 <-> Forall2 (fun a b => f a = f b) l1 l2.
Proof.
  induction l1 as [|a l1 IH]; intros [|b l2]; cbn [map]; split; intros E.
  - constructor.
  - reflexivity.
  - discriminate.
  - inversion E.
  - discriminate.
  - inversion E.
  - injection E as Hab Hl. constructor; [exact Hab | apply IH; exact Hl].
  - inversion E as [|? ? ? ? Hab Hl]; subst. rewrite Hab.
    f_equal. apply IH. exact Hl.
Qed.

Lemma Forall2_map_r (A B : Type) (f : A -> B) (P : A -> B -> Prop) :
  forall l : list A, Forall (fun a => P a (f a)) l -> Forall2 P l (map f l).
Proof.
  induction l as [|a l IH]; intros Hl; cbn [map]; [constructor|].
  inversion Hl; subst. constructor; [assumption | apply IH; assumption].
Qed.

Section WeaponDocuments.
Import Weapon WeaponExport.
Context `{UEnum EWeaponType} `{UEnum EWeaponRarity} `{UEnum EElementalType}.

Lemma ExportWeaponSetToJSON_document (Weapons : list FWeapon) :
  ExportWeaponSetToJSON Weapons
  = [("weapons"%string, FJsonValueArray (map WeaponSetEntry Weapons));
     ("total_weapons"%string,
      FJsonValueNumber (to_float (Z.of_nat (List.length Weapons))))].
Proof. reflexivity. Qed.

Lemma WeaponSetEntry_agrees (W : FWeapon) :
  exists o : FJsonObject,
    WeaponSetEntry W = FJsonValueObject o
    /\ map fst o = ["id"; "name"; "damage"; "value"]%string
    /\ TryGetField "id" o = TryGetField "id" (ExportWeaponToJSON W)
    /\ TryGetField "name" o = TryGetField "name" (ExportWeaponToJSON W)
    /\ TryGetField "value" o = TryGetField "value" (ExportWeaponToJSON W)
    /\ exists s : FJsonObject,
         TryGetField "stats" (ExportWeaponToJSON W) = Some (FJsonValueObject s)
         /\ TryGetField "damage" o = TryGetField "damage" s.
Proof.
  eexists. split; [reflexivity|]. repeat (split; [reflexivity|]).
  eexists. split; reflexivity.
Qed.

End WeaponDocuments.

(** X20. In the document of [ExportWeaponSetToJSON], "total_weapons" is the
    number of entries of "weapons", and the entry of a weapon has the four
    fields "id", "name", "damage" and "value" with the values
    [ExportWeaponToJSON] exports for that weapon: "id", "name" and "value"
    under the same names, "damage" inside the object "stats". *)
Theorem ExportWeaponSetToJSON_entries `{UEnum Weapon.EWeaponType}
  `{UEnum Weapon.EWeaponRarity} `{UEnum Weapon.EElementalType}
  (Weapons : list Weapon.FWeapon) :
  let doc := WeaponExport.ExportWeaponSetToJSON Weapons in
  exists a : list FJsonValue,
    TryGetField "weapons" doc = Some (FJsonValueArray a)
    /\ TryGetField "total_weapons" doc
       = Some (FJsonValueNumber (to_float (Z.of_nat (List.length a))))
    /\ Forall2
         (fun W e =>
            exists o : FJsonObject,
              e = FJsonValueObject o
              /\ map fst o = ["id"; "name"; "damage"; "value"]%string
              /\ TryGetField "id" o
                 = TryGetField "id" (WeaponExport.ExportWeaponToJSON W)
              /\ TryGetField "name" o
                 = TryGetField "name" (WeaponExport.ExportWeaponToJSON W)
              /\ TryGetField "value" o
                 = TryGetField "value" (WeaponExport.ExportWeaponToJSON W)
              /\ exists s : FJsonObject,
                   TryGetField "stats" (WeaponExport.ExportWeaponToJSON W)
                   = Some (FJsonValueObject s)
                   /\ TryGetField "damage" o = TryGetField "damage" s)
         Weapons a.
Proof.
  cbv zeta. rewrite ExportWeaponSetToJSON_document.
  exists (map WeaponExport.WeaponSetEntry Weapons).
  split; [reflexivity|]. split; [rewrite length_map; reflexivity|].
  apply Forall2_map_r. apply Forall_forall. intros W _.
  apply WeaponSetEntry_agrees.
Qed.

(** X21. [ExportWeaponSetToJSON] keeps of each weapon its identifier, name,
    damage and value, in the order of the array, and nothing more: two
    arrays of weapons give the same document exactly when they have the same
    length and agree, weapon by weapon, on these four. *)
Theorem ExportWeaponSetToJSON_keeps (Ws1 Ws2 : list Weapon.FWeapon) :
  WeaponExport.ExportWeaponSetToJSON Ws1 = WeaponExport.ExportWeaponSetToJSON Ws2
  <-> Forall2
        (fun W1 W2 =>
           Weapon.WeaponId W1 = Weapon.WeaponId W2
           /\ Weapon.WeaponName W1 = Weapon.WeaponName W2
           /\ Weapon.Damage (Weapon.Stats W1) = Weapon.Damage (Weapon.Stats W2)
           /\ Weapon.GoldValue W1 = Weapon.GoldValue W2)
        Ws1 Ws2.
Proof.
  rewrite !ExportWeaponSetToJSON_document. split.
  - intros E. injection E as Hmap _.
    apply map_eq_Forall2 in Hmap.
    eapply Forall2_impl; [|exact Hmap].
    intros W1 W2 HE. cbv beta in HE. unfold WeaponExport.WeaponSetEntry in HE.
    cbn in HE. injection HE as Hid Hname Hdmg Hval.
    repeat split; assumption.
  - intros HF.
    assert (map WeaponExport.WeaponSetEntry Ws1 = map WeaponExport.WeaponSetEntry Ws2)
      as Hmap.
    { apply map_eq_Forall2. eapply Forall2_impl; [|exact HF].
      intros W1 W2 (Hid & Hname & Hdmg & Hval). cbv beta.
      unfold WeaponExport.WeaponSetEntry. cbn. rewrite Hid, Hname, Hdmg, Hval.
      reflexivity. }
    rewrite Hmap, (Forall2_length HF). reflexivity.
Qed.

Section TerrainDocuments.
Import Terrain TerrainExport.
Context `{Random} `{UEnum EBiomeType}.

Lemma ExportToBlender_document (G : AProceduralTerrainGenerator) :
  ExportToBlender G
  = [("terrain"%string, FJsonValueArray (map CellEntry (TerrainGrid G)));
     ("width"%string, FJsonValueNumber (to_float (TerrainWidth G)));
     ("height"%string, FJsonValueNumber (to_float (TerrainHeight G)))].
Proof. reflexivity. Qed.

Lemma MakeCell_no_object (G : AProceduralTerrainGenerator) (X Y : Z) (g : GlobalRand) :
  Objects (fst (MakeCell G X Y g)) = [].
Proof.
  unfold MakeCell, bind, ret. destruct (FMath_FRand g) as [m g1]. reflexivity.
Qed.

Lemma GenerateTerrain_no_object (G : AProceduralTerrainGenerator) (g : GlobalRand) :
  Forall (fun c => Objects c = []) (TerrainGrid (fst (GenerateTerrain G g))).
Proof.
  rewrite TerrainFacts.GenerateTerrain_unfold.
  cbn [fst set_TerrainGrid TerrainGrid].
  apply TerrainMore.Forall_concat.
  apply (TerrainMore.collect_Forall
           (fun X => collect (Z.to_nat (TerrainHeight G)) 0 (MakeCell G X))
           (Forall (fun c => Objects c = []))).
  intros X s. apply TerrainMore.collect_Forall. intros Y s'.
  apply MakeCell_no_object.
Qed.

End TerrainDocuments.

(** X22. The document [ExportToBlender] builds right after [GenerateTerrain]
    carries the configured "width" and "height" and, under "terrain", one
    entry per cell of the grid, [max 0 TerrainWidth * max 0 TerrainHeight]
    of them, in grid order: each with the height, moisture, temperature and
    biome name of its cell and an empty "objects" array. *)
Theorem ExportToBlender_after_GenerateTerrain `{Random} `{UEnum Terrain.EBiomeType}
  (G : Terrain.AProceduralTerrainGenerator) (g : GlobalRand) :
  let G' := fst (Terrain.GenerateTerrain G g) in
  let doc := TerrainExport.ExportToBlender G' in
  TryGetField "width" doc = Some (FJsonValueNumber (to_float (Terrain.TerrainWidth G)))
  /\ TryGetField "height" doc
     = Some (FJsonValueNumber (to_float (Terrain.TerrainHeight G)))
  /\ exists a : list FJsonValue,
       TryGetField "terrain" doc = Some (FJsonValueArray a)
       /\ List.length a
          = (Z.to_nat (Terrain.TerrainWidth G) * Z.to_nat (Terrain.TerrainHeight G))%nat
       /\ Forall2
            (fun c e =>
               e = FJsonValueObject
                     [("height"%string, FJsonValueNumber (Terrain.Height c));
                      ("moisture"%string, FJsonValueNumber (Terrain.Moisture c));
                      ("temperature"%string, FJsonValueNumber (Terrain.Temperature c));
                      ("biome"%string,
                       FJsonValueString (GetValueAsString (Terrain.BiomeType c)));
                      ("objects"%string, FJsonValueArray [])])
            (Terrain.TerrainGrid G') a.
Proof.
  cbv zeta. rewrite ExportToBlender_document.
  pose proof (TerrainFacts.GenerateTerrain_layout G g) as [Hlen _].
  pose proof (GenerateTerrain_no_object G g) as Hobj.
  pose proof (TerrainFacts.GenerateTerrain_unfold G g) as Hunf. cbv zeta in Hunf.
  assert (Terrain.TerrainWidth (fst (Terrain.GenerateTerrain G g))
          = Terrain.TerrainWidth G) as HW by (rewrite Hunf; reflexivity).
  assert (Terrain.TerrainHeight (fst (Terrain.GenerateTerrain G g))
          = Terrain.TerrainHeight G) as HH by (rewrite Hunf; reflexivity).
  clear Hunf.
  split; [cbn [TryGetField String.eqb Ascii.eqb Bool.eqb]; rewrite HW; reflexivity|].
  split; [cbn [TryGetField String.eqb Ascii.eqb Bool.eqb]; rewrite HH; reflexivity|].
  eexists. split; [reflexivity|]. split; [rewrite length_map; exact Hlen|].
  apply Forall2_map_r. eapply Forall_impl; [|exact Hobj].
  intros c Hc. cbv beta in *. unfold TerrainExport.CellEntry. cbn. rewrite Hc.
  reflexivity.
Qed.

Section CityDocuments.
Import City CityExport.
Context `{Random} `{Trig}.

Lemma ExportCityToBlender_document (G : AProceduralCityGenerator) :
  ExportCityToBlender G
  = [("city_name"%string, FJsonValueString (CityName G));
     ("population"%string, FJsonValueNumber (to_float (CityPopulation G)));
     ("radius"%string, FJsonValueNumber (CityRadius G));
     ("districts"%string, FJsonValueArray (map DistrictEntry (Districts G)))].
Proof. reflexivity. Qed.

Lemma Forall2_map_impl (A B C : Type) (f : B -> C) (P : A -> B -> Prop)
  (R : A -> C -> Prop) :
  (forall a b, P a b -> R a (f b)) ->
  forall (l : list A) (l' : list B), Forall2 P l l' -> Forall2 R l (map f l').
Proof.
  intros HPR l l' HF. induction HF; cbn [map]; constructor; auto.
Qed.

End CityDocuments.

(** X23. The document [ExportCityToBlender] builds right after
    [GenerateCity] has the four fields "city_name", "population", "radius"
    and "districts" and no field for the roads.  "districts" has
    [max 0 NumberOfDistricts] entries; entry [i] is named "District_i", has
    one of the four district types, the population
    [CityPopulation / NumberOfDistricts] and at most [BuildingsPerDistrict]
    buildings. *)
Theorem ExportCityToBlender_after_GenerateCity `{Random} `{Trig}
  (G : City.AProceduralCityGenerator) :
  let doc := CityExport.ExportCityToBlender (City.GenerateCity G) in
  map fst doc = ["city_name"; "population"; "radius"; "districts"]%string
  /\ TryGetField "city_name" doc = Some (FJsonValueString (City.CityName G))
  /\ TryGetField "population" doc
     = Some (FJsonValueNumber (to_float (City.CityPopulation G)))
  /\ TryGetField "radius" doc = Some (FJsonValueNumber (City.CityRadius G))
  /\ exists a : list FJsonValue,
       TryGetField "districts" doc = Some (FJsonValueArray a)
       /\ Forall2
            (fun i e =>
               exists (t : string) (bs : list FJsonValue),
                 e = FJsonValueObject
                       [("name"%string, FJsonValueString (Printf_d "District_" i));
                        ("type"%string, FJsonValueString t);
                        ("population"%string,
                         FJsonValueNumber
                           (to_float
                              (Z.quot (City.CityPopulation G) (City.NumberOfDistricts G))));
                        ("buildings"%string, FJsonValueArray bs)]
                 /\ In t ["residential"; "commercial"; "industrial"; "mixed"]%string
                 /\ (List.length bs <= Z.to_nat (City.BuildingsPerDistrict G))%nat)
            (Zseq 0 (Z.to_nat (City.NumberOfDistricts G))) a.
Proof.
  cbv zeta. rewrite ExportCityToBlender_document.
  split; [reflexivity|]. split; [reflexivity|]. split; [reflexivity|].
  split; [reflexivity|].
  eexists. split; [reflexivity|].
  destruct (CityMore.GenerateCity_whole G) as (Hds & _).
  eapply Forall2_map_impl; [|exact Hds].
  intros i D ((Hname & _ & _ & Hpop & Hty) & Hlen & _). cbv beta.
  exists (City.DistrictType D), (map CityExport.BuildingEntry (City.Buildings D)).
  split; [|split; [exact Hty | rewrite length_map; exact Hlen]].
  unfold CityExport.DistrictEntry. cbn. rewrite Hname, Hpop. reflexivity.
Qed.

End ExportFacts.
